(** * Push-to-talk: a shallow embedding of the desktop client's PTT modules

    The development follows the TypeScript sources:

    - [Js]                 the JavaScript string and array primitives the
                           sources call ([toLowerCase], [split], [trim],
                           [pop], [includes]);
    - [NativePushToTalk]   [src/native/pushToTalk.ts], the main-process
                           module built on [before-input-event] with a
                           [globalShortcut] fallback and hold emulation;
    - [WindowPushToTalk]   the push-to-talk section of
                           [src/native/window.ts], the strategy chain
                           (global key listener, native shortcut, portal,
                           local fallback);
    - [NativeManual]       the manual-state handler of
                           [src/native/pushToTalk.ts] on payloads of any
                           shape;
    - [WorldPushToTalk]    [src/world/pushToTalk.ts], the preload bridge
                           exposed to the renderer;
    - [WindowShell]        the window itself in [src/native/window.ts]:
                           closing, quitting, maximising, zoom and
                           DevTools shortcuts;
    - [LegacyBridge]       the earlier preload bridge, which keeps its
                           callbacks in Maps and has a local-keybind
                           channel;
    - [DomBridge]          the key handlers of the preload bridge that
                           intercepts DOM key events.

    Module-level [let] variables become fields of a state record that every
    function threads explicitly; calls into Electron become entries of an
    action log; what the platform answers (does the shortcut register, is
    the window alive, what time is it) is an argument.  Strings are ASCII
    strings: [toLowerCase] and [trim] are modelled on code points below 128
    only.

    The definitions come first; the facts follow, one module per subject:
    [ParserFacts], [ControllerFacts], [ManualFacts], [PayloadFacts],
    [TeardownFacts], [RegistrationFacts], [MatchFacts], [HoldFacts],
    [BridgeFacts], [FocusFacts], [TimerFacts], [ToggleFacts],
    [QuiescenceFacts], [SettleFacts], [ModifierFacts], [HookFacts],
    [WindowFacts], [WorldFacts], [LegacyFacts], [ShellFacts], [DomFacts]
    and [SyncFacts]. *)

From Stdlib Require Import String Ascii List Bool ZArith Lia.
Import ListNotations.

Local Open Scope string_scope.
Local Open Scope list_scope.
Local Open Scope bool_scope.

(* ------------------------------------------------------------------ *)
(** ** JavaScript primitives *)

Module Js.

(** [String.prototype.toLowerCase] on ASCII letters. *)
Definition lower_char (c : ascii) : ascii :=
  let n := nat_of_ascii c in
  if (65 <=? n)%nat && (n <=? 90)%nat then ascii_of_nat (n + 32) else c.

Fixpoint toLowerCase (s : string) : string :=
  match s with
  | EmptyString => EmptyString
  | String c r => String (lower_char c) (toLowerCase r)
  end.

(** White space as [trim] sees it (TAB, LF, VT, FF, CR, SP). *)
Definition is_space (c : ascii) : bool :=
  let n := nat_of_ascii c in
  ((9 <=? n)%nat && (n <=? 13)%nat) || (n =? 32)%nat.

Fixpoint trimStart (s : string) : string :=
  match s with
  | EmptyString => EmptyString
  | String c r => if is_space c then trimStart r else s
  end.

(** [trimEnd] keeps a character when it is not a space or when something
    survives to its right. *)
Fixpoint trimEnd (s : string) : string :=
  match s with
  | EmptyString => EmptyString
  | String c r =>
      match trimEnd r with
      | EmptyString => if is_space c then EmptyString else String c EmptyString
      | r' => String c r'
      end
  end.

Definition trim (s : string) : string := trimEnd (trimStart s).

(** [s.split(sep)] where the separator matches exactly one character:
    the pieces between separator characters, always at least one. *)
Fixpoint split (sep : ascii -> bool) (s : string) : list string :=
  match s with
  | EmptyString => [EmptyString]
  | String c r =>
      if sep c then EmptyString :: split sep r
      else match split sep r with
           | [] => [String c EmptyString]
           | t :: ts => String c t :: ts
           end
  end.

(** [Array.prototype.pop]: the last element (or [undefined]) and the
    array without it. *)
Fixpoint pop (l : list string) : option string * list string :=
  match l with
  | [] => (None, [])
  | [x] => (Some x, [])
  | x :: r => let (last, init) := pop r in (last, x :: init)
  end.

(** [Array.prototype.includes] on strings. *)
Definition includes (l : list string) (x : string) : bool :=
  existsb (String.eqb x) l.

(** [String.prototype.includes]: [sub] occurs somewhere in [s]. *)
Fixpoint str_includes (s sub : string) : bool :=
  prefix sub s ||
  match s with
  | EmptyString => false
  | String _ r => str_includes r sub
  end.

(** [x || d] on strings: the empty string is falsy. *)
Definition or_default (x : option string) (d : string) : string :=
  match x with
  | Some EmptyString | None => d
  | Some s => s
  end.

End Js.

(** The canonical accelerator both parsers return:
    [{ key, ctrl, shift, alt, meta }]. *)
Module Accelerator.
Record t := make {
  key : string;
  ctrl : bool;
  shift : bool;
  alt : bool;
  meta : bool
}.
End Accelerator.

(** [{ ctrl, shift, alt, meta }], the shape of [keybindModifiers] and of
    the key listener's [modifierState]. *)
Module Modifiers.
Record t := make {
  ctrl : bool;
  shift : bool;
  alt : bool;
  meta : bool
}.
Definition none : t := make false false false false.
End Modifiers.

Inductive Mode := Hold | Toggle.

(** The configuration collaborator ([config] in [./config]). *)
Record Config := mkConfig {
  pushToTalk : bool;
  pushToTalkKeybind : string;
  pushToTalkMode : Mode
}.

(** State of [mainWindow] as the guards of the sources test it. *)
Inductive WindowStatus :=
| NoWindow            (* [mainWindow] is undefined *)
| WindowDestroyed     (* [mainWindow.isDestroyed()] *)
| ContentsDestroyed   (* window alive, [webContents.isDestroyed()] *)
| WindowLive.

(** [mainWindow && !mainWindow.isDestroyed() && !mainWindow.webContents.isDestroyed()] *)
Definition canSend (w : WindowStatus) : bool :=
  match w with WindowLive => true | _ => false end.

(** [mainWindow && !mainWindow.isDestroyed()] *)
Definition canAttach (w : WindowStatus) : bool :=
  match w with WindowLive | ContentsDestroyed => true | _ => false end.

Definition sep_plus (c : ascii) : bool := Ascii.eqb c "+".
Definition sep_plus_minus (c : ascii) : bool := Ascii.eqb c "+" || Ascii.eqb c "-".

(** Calls into Electron and the other collaborators, in program order.
    [pttLog] lines are not recorded, except the warning the manual-state
    handler logs ([LogWarning]) and the [console.warn] calls ([ConsoleWarn]). *)
Inductive Action :=
| Send (active : bool)                 (* webContents.send("push-to-talk", { active }) *)
| SendLocal (accelerator : string)     (* webContents.send("push-to-talk-local", { accelerator }) *)
| PreventDefault                       (* event.preventDefault() *)
| InputListenerOff                     (* webContents.off("before-input-event", ...) *)
| InputListenerOn                      (* webContents.on("before-input-event", ...) *)
| ShortcutRegister (accelerator : string) (ok : bool)  (* globalShortcut.register *)
| ShortcutUnregister (accelerator : string)            (* globalShortcut.unregister *)
| ShortcutUnregisterAll                                (* globalShortcut.unregisterAll *)
| SetTimeout (delay : Z)
| ClearTimeout
| KeyListenerNew (ok : bool)           (* import + new GlobalKeyboardListener() *)
| KeyListenerKill                      (* globalKeyListener.kill() *)
| BusCreateSession
| BusBindShortcuts
| BusListen                            (* bus.on("message", dbusMessageHandler) *)
| BusUnlisten                          (* bus.removeListener + removeMatch x2 *)
| LogWarning
| ConsoleWarn.

(** A statement of a module over its state [St]: the new state and the
    calls it made. *)
Section Steps.
Context {St : Type}.

Definition Step := St -> St * list Action.

Definition skip : Step := fun s => (s, []).
Definition emit (a : Action) : Step := fun s => (s, [a]).
Definition assign (f : St -> St) : Step := fun s => (f s, []).
Definition andThen (a b : Step) : Step :=
  fun s => let (s1, l1) := a s in let (s2, l2) := b s1 in (s2, l1 ++ l2).
Definition when (c : St -> bool) (a : Step) : Step :=
  fun s => if c s then a s else (s, []).
End Steps.
Arguments Step St : clear implicits.

Declare Scope step_scope.
Delimit Scope step_scope with step.
Notation "a ;; b" := (andThen a b) (at level 61, right associativity) : step_scope.
Local Open Scope step_scope.

Definition isSome {A} (o : option A) : bool :=
  match o with Some _ => true | None => false end.

(* ------------------------------------------------------------------ *)
(** ** src/native/pushToTalk.ts *)

Module NativePushToTalk.

(** [Electron.Input] as far as the module reads it. *)
Inductive InputType := KeyDown | KeyUp | OtherInput.

Module Input.
Record t := make {
  key : string;
  type : InputType;
  control : bool;
  shift : bool;
  alt : bool;
  meta : bool
}.
End Input.

Definition GLOBAL_HOLD_TIMEOUT_MS : Z := 400.
Definition MIN_HOLD_DURATION_MS : Z := 600.

(** The pending [holdModeTimeout]: which callback it runs and the time
    before which it cannot fire (time of [setTimeout] plus its delay). *)
Inductive Timer :=
| HoldTimer (due : Z)        (* the callback that checks the minimum hold *)
| ExtendedTimer (due : Z).   (* the rescheduled, unconditional callback *)

Record State := mkState {
  isPttActive : bool;
  registeredAccelerator : option string;
  currentKeybind : string;
  keybindModifiers : Modifiers.t;
  holdModeTimeout : option Timer;
  lastGlobalTriggerTime : Z;
  lastActivationTime : Z;
  (* collaborators *)
  mainWindow : WindowStatus;
  inputListener : bool;        (* handleBeforeInputEvent is subscribed *)
  shortcut : option string     (* what globalShortcut holds for the app *)
}.

Definition initial (w : WindowStatus) : State :=
  mkState false None "" Modifiers.none None 0 0 w false None.

Definition set_isPttActive (v : bool) (s : State) : State :=
  mkState v (registeredAccelerator s) (currentKeybind s) (keybindModifiers s)
    (holdModeTimeout s) (lastGlobalTriggerTime s) (lastActivationTime s)
    (mainWindow s) (inputListener s) (shortcut s).
Definition set_registeredAccelerator (v : option string) (s : State) : State :=
  mkState (isPttActive s) v (currentKeybind s) (keybindModifiers s)
    (holdModeTimeout s) (lastGlobalTriggerTime s) (lastActivationTime s)
    (mainWindow s) (inputListener s) (shortcut s).
Definition set_keybind (k : string) (m : Modifiers.t) (s : State) : State :=
  mkState (isPttActive s) (registeredAccelerator s) k m
    (holdModeTimeout s) (lastGlobalTriggerTime s) (lastActivationTime s)
    (mainWindow s) (inputListener s) (shortcut s).
Definition set_holdModeTimeout (v : option Timer) (s : State) : State :=
  mkState (isPttActive s) (registeredAccelerator s) (currentKeybind s)
    (keybindModifiers s) v (lastGlobalTriggerTime s) (lastActivationTime s)
    (mainWindow s) (inputListener s) (shortcut s).
Definition set_lastGlobalTriggerTime (v : Z) (s : State) : State :=
  mkState (isPttActive s) (registeredAccelerator s) (currentKeybind s)
    (keybindModifiers s) (holdModeTimeout s) v (lastActivationTime s)
    (mainWindow s) (inputListener s) (shortcut s).
Definition set_lastActivationTime (v : Z) (s : State) : State :=
  mkState (isPttActive s) (registeredAccelerator s) (currentKeybind s)
    (keybindModifiers s) (holdModeTimeout s) (lastGlobalTriggerTime s) v
    (mainWindow s) (inputListener s) (shortcut s).
Definition set_mainWindow (v : WindowStatus) (s : State) : State :=
  mkState (isPttActive s) (registeredAccelerator s) (currentKeybind s)
    (keybindModifiers s) (holdModeTimeout s) (lastGlobalTriggerTime s)
    (lastActivationTime s) v (inputListener s) (shortcut s).
Definition set_inputListener (v : bool) (s : State) : State :=
  mkState (isPttActive s) (registeredAccelerator s) (currentKeybind s)
    (keybindModifiers s) (holdModeTimeout s) (lastGlobalTriggerTime s)
    (lastActivationTime s) (mainWindow s) v (shortcut s).
Definition set_shortcut (v : option string) (s : State) : State :=
  mkState (isPttActive s) (registeredAccelerator s) (currentKeybind s)
    (keybindModifiers s) (holdModeTimeout s) (lastGlobalTriggerTime s)
    (lastActivationTime s) (mainWindow s) (inputListener s) v.

Definition Step := Step State.

(** [sendPttState] *)
Definition sendPttState (active : bool) : Step :=
  when (fun s => canSend (mainWindow s)) (emit (Send active)).

(** [deactivatePtt] *)
Definition deactivatePtt : Step :=
  when isPttActive (assign (set_isPttActive false) ;; sendPttState false) ;;
  when (fun s => isSome (holdModeTimeout s))
       (emit ClearTimeout ;; assign (set_holdModeTimeout None)).

(** [activatePtt] *)
Definition activatePtt : Step :=
  when (fun s => negb (isPttActive s))
       (assign (set_isPttActive true) ;; sendPttState true).

(** [isPttActive = !isPttActive; sendPttState(isPttActive)] *)
Definition togglePtt : Step :=
  assign (fun s => set_isPttActive (negb (isPttActive s)) s) ;;
  (fun s => sendPttState (isPttActive s) s).

(** [parseAccelerator]: splits on [/[+-]/]. *)
Definition parseAccelerator (accelerator : string) : Accelerator.t :=
  let parts := map Js.trim (Js.split sep_plus_minus (Js.toLowerCase accelerator)) in
  let (last, parts) := Js.pop parts in
  let key := Js.or_default last "" in
  Accelerator.make key
    (Js.includes parts "ctrl" || Js.includes parts "control")
    (Js.includes parts "shift")
    (Js.includes parts "alt")
    (Js.includes parts "meta" || Js.includes parts "cmd" || Js.includes parts "command").

(** [matchesKeybind] *)
Definition matchesKeybind (input : Input.t) (s : State) : bool :=
  let keyMatch := String.eqb (Js.toLowerCase (Input.key input))
                             (Js.toLowerCase (currentKeybind s)) in
  let ctrlMatch := Bool.eqb (Input.control input) (Modifiers.ctrl (keybindModifiers s)) in
  let shiftMatch := Bool.eqb (Input.shift input) (Modifiers.shift (keybindModifiers s)) in
  let altMatch := Bool.eqb (Input.alt input) (Modifiers.alt (keybindModifiers s)) in
  let metaMatch := Bool.eqb (Input.meta input) (Modifiers.meta (keybindModifiers s)) in
  keyMatch && ctrlMatch && shiftMatch && altMatch && metaMatch.

(** [handleBeforeInputEvent]; [mode] is [config.pushToTalkMode]. *)
Definition handleBeforeInputEvent (mode : Mode) (input : Input.t) : Step :=
  fun s =>
    if negb (matchesKeybind input s) then (s, [])
    else match mode, Input.type input with
         | Hold, KeyDown => (emit PreventDefault ;; activatePtt) s
         | Hold, KeyUp => (emit PreventDefault ;; deactivatePtt) s
         | Hold, OtherInput => (s, [])
         | Toggle, KeyDown => (emit PreventDefault ;; togglePtt) s
         | Toggle, _ => (s, [])
         end.

(** The callback given to [globalShortcut.register]; [now] is what
    [Date.now()] returns when it runs. *)
Definition globalHotkeyCallback (mode : Mode) (now : Z) : Step :=
  assign (set_lastGlobalTriggerTime now) ;;
  match mode with
  | Hold =>
      (fun s => if negb (isPttActive s)
                then (assign (set_lastActivationTime now) ;; activatePtt) s
                else (s, [])) ;;
      when (fun s => isSome (holdModeTimeout s)) (emit ClearTimeout) ;;
      emit (SetTimeout GLOBAL_HOLD_TIMEOUT_MS) ;;
      assign (set_holdModeTimeout (Some (HoldTimer (now + GLOBAL_HOLD_TIMEOUT_MS))))
  | Toggle => togglePtt
  end.

(** The callback of the timeout set by [globalHotkeyCallback]. *)
Definition holdTimeoutCallback (now : Z) : Step :=
  fun s =>
    let holdDuration := (now - lastActivationTime s)%Z in
    if (MIN_HOLD_DURATION_MS <=? holdDuration)%Z then deactivatePtt s
    else
      let delay := (MIN_HOLD_DURATION_MS - holdDuration + 100)%Z in
      (when (fun s => isSome (holdModeTimeout s)) (emit ClearTimeout) ;;
       emit (SetTimeout delay) ;;
       assign (set_holdModeTimeout (Some (ExtendedTimer (now + delay))))) s.

(** The callback of the extended timeout. *)
Definition extendedTimeoutCallback : Step := deactivatePtt.

(** The event loop runs the pending timeout, not before it is due. *)
Definition timeoutElapsed (now : Z) : Step :=
  fun s =>
    match holdModeTimeout s with
    | None => (s, [])
    | Some (HoldTimer d) =>
        if (d <=? now)%Z then holdTimeoutCallback now s else (s, [])
    | Some (ExtendedTimer d) =>
        if (d <=? now)%Z then extendedTimeoutCallback s else (s, [])
    end.

Definition release (r : string) (s : State) : State :=
  match shortcut s with
  | Some a => if String.eqb a r then set_shortcut None s else s
  | None => s
  end.

(** [registerGlobalHotkey]; [ok] is the answer of
    [globalShortcut.register] ([false] also when it throws).  The boolean
    it returns is only logged by the caller and is not kept. *)
Definition registerGlobalHotkey (accelerator : string) (ok : bool) : Step :=
  (fun s => match registeredAccelerator s with
            | Some (String _ _ as r) =>
                (emit (ShortcutUnregister r) ;; assign (release r)) s
            | _ => (s, [])
            end) ;;
  emit (ShortcutRegister accelerator ok) ;;
  when (fun _ => ok)
       (assign (fun s => set_registeredAccelerator (Some accelerator)
                           (set_shortcut (Some accelerator) s))).

(** [unregisterPushToTalkHotkey] *)
Definition unregisterPushToTalkHotkey : Step :=
  deactivatePtt ;;
  when (fun s => canAttach (mainWindow s))
       (emit InputListenerOff ;; assign (set_inputListener false)) ;;
  (fun s => match registeredAccelerator s with
            | Some (String _ _ as r) =>
                (emit (ShortcutUnregister r) ;;
                 assign (fun s => set_registeredAccelerator None (release r s))) s
            | _ => (s, [])
            end) ;;
  emit ShortcutUnregisterAll ;;
  assign (set_shortcut None).

(** [config.pushToTalkKeybind || "Shift+Space"] *)
Definition effectiveAccelerator (cfg : Config) : string :=
  Js.or_default (Some (pushToTalkKeybind cfg)) "Shift+Space".

Definition same_accelerator (r : option string) (a : string) : bool :=
  match r with Some x => String.eqb x a | None => false end.

(** [registerPushToTalkHotkey].  The periodic debug logger it installs
    with [setInterval] only logs and is left out. *)
Definition registerPushToTalkHotkey (cfg : Config) (ok : bool) : Step :=
  fun s =>
    if negb (pushToTalk cfg) then unregisterPushToTalkHotkey s
    else
      let accelerator := effectiveAccelerator cfg in
      if same_accelerator (registeredAccelerator s) accelerator then (s, [])
      else
        (unregisterPushToTalkHotkey ;;
         (let parsed := parseAccelerator accelerator in
          assign (set_keybind (Accelerator.key parsed)
                    (Modifiers.make (Accelerator.ctrl parsed) (Accelerator.shift parsed)
                                    (Accelerator.alt parsed) (Accelerator.meta parsed)))) ;;
         when (fun s => canAttach (mainWindow s))
              (emit InputListenerOff ;; emit InputListenerOn ;;
               assign (set_inputListener true)) ;;
         registerGlobalHotkey accelerator ok ;;
         assign (set_isPttActive false) ;;
         sendPttState false) s.

(** The [push-to-talk-manual] handler of [initPushToTalk]; its parameter
    is typed [{ active: boolean }]. *)
Definition manualStateHandler (active : bool) : Step :=
  assign (set_isPttActive active) ;; sendPttState active.

(** [initPushToTalk], after it has installed [manualStateHandler]. *)
Definition initPushToTalk (cfg : Config) (ok : bool) : Step :=
  when (fun _ => pushToTalk cfg) (registerPushToTalkHotkey cfg ok).

(** [cleanupPushToTalk] *)
Definition cleanupPushToTalk : Step := unregisterPushToTalkHotkey.

(** *** The module as a machine

    What the event loop can deliver to the module.  Every occurrence
    carries the clock and the configuration in force when it happens. *)
Inductive Event :=
| BeforeInput (input : Input.t)
| GlobalShortcutTriggered
| TimeoutElapsed
| ManualState (active : bool)
| RegisterRequested (ok : bool)
| UnregisterRequested
| WindowBecomes (w : WindowStatus).

Record Occurrence := mkOccurrence {
  at_ms : Z;
  config : Config;
  event : Event
}.

Definition step (o : Occurrence) : Step :=
  match event o with
  | BeforeInput input =>
      when (fun s => inputListener s && canAttach (mainWindow s))
           (handleBeforeInputEvent (pushToTalkMode (config o)) input)
  | GlobalShortcutTriggered =>
      when (fun s => isSome (shortcut s))
           (globalHotkeyCallback (pushToTalkMode (config o)) (at_ms o))
  | TimeoutElapsed => timeoutElapsed (at_ms o)
  | ManualState active => manualStateHandler active
  | RegisterRequested ok => registerPushToTalkHotkey (config o) ok
  | UnregisterRequested => unregisterPushToTalkHotkey
  | WindowBecomes w => assign (set_mainWindow w)
  end.

(** Runs a trace; every action is stamped with the time of the
    occurrence that caused it. *)
Fixpoint run (os : list Occurrence) (s : State) : State * list (Z * Action) :=
  match os with
  | [] => (s, [])
  | o :: rest =>
      let (s1, l1) := step o s in
      let (s2, l2) := run rest s1 in
      (s2, map (pair (at_ms o)) l1 ++ l2)
  end.

End NativePushToTalk.

(* ------------------------------------------------------------------ *)
(** ** src/native/window.ts, push-to-talk section *)

(** A value received over IPC, as far as [typeof], [in] and truthiness
    tell values apart. *)
#[local] Set Warnings "-register-all".
Inductive JsValue :=
| JsUndefined
| JsNull
| JsBool (b : bool)
| JsNumber (z : Z)
| JsString (s : string)
| JsObject (fields : list (string * JsValue)).

Module WindowPushToTalk.

Inductive KeyState := DOWN | UP.

(** The event of node-global-key-listener: [e.name] may be missing. *)
Record KeyEvent := mkKeyEvent {
  name : option string;
  state : KeyState
}.

(** What the closure installed by [registerGlobalKeyListener] holds:
    the parsed accelerator and its [modifierState]. *)
Record KeyListener := mkKeyListener {
  target : Accelerator.t;
  modifierState : Modifiers.t
}.

Record State := mkState {
  isPttActive : bool;
  registeredAccelerator : option string;
  isWayland : bool;
  portalAvailable : bool;
  dbusBus : bool;               (* [dbusBus] is not null *)
  dbusMessageHandler : bool;    (* [dbusMessageHandler] is not null *)
  globalKeyListener : option KeyListener;
  (* collaborators *)
  mainWindow : WindowStatus;
  shortcut : option string;     (* what globalShortcut holds for the app *)
  pendingBind : option string   (* BindShortcuts call not yet answered *)
}.

Definition initial (w : WindowStatus) : State :=
  mkState false None false false false false None w None None.

Definition set_isPttActive (v : bool) (s : State) : State :=
  mkState v (registeredAccelerator s) (isWayland s) (portalAvailable s)
    (dbusBus s) (dbusMessageHandler s) (globalKeyListener s)
    (mainWindow s) (shortcut s) (pendingBind s).
Definition set_registeredAccelerator (v : option string) (s : State) : State :=
  mkState (isPttActive s) v (isWayland s) (portalAvailable s)
    (dbusBus s) (dbusMessageHandler s) (globalKeyListener s)
    (mainWindow s) (shortcut s) (pendingBind s).
Definition set_isWayland (v : bool) (s : State) : State :=
  mkState (isPttActive s) (registeredAccelerator s) v (portalAvailable s)
    (dbusBus s) (dbusMessageHandler s) (globalKeyListener s)
    (mainWindow s) (shortcut s) (pendingBind s).
Definition set_portalAvailable (v : bool) (s : State) : State :=
  mkState (isPttActive s) (registeredAccelerator s) (isWayland s) v
    (dbusBus s) (dbusMessageHandler s) (globalKeyListener s)
    (mainWindow s) (shortcut s) (pendingBind s).
Definition set_dbusBus (v : bool) (s : State) : State :=
  mkState (isPttActive s) (registeredAccelerator s) (isWayland s)
    (portalAvailable s) v (dbusMessageHandler s) (globalKeyListener s)
    (mainWindow s) (shortcut s) (pendingBind s).
Definition set_dbusMessageHandler (v : bool) (s : State) : State :=
  mkState (isPttActive s) (registeredAccelerator s) (isWayland s)
    (portalAvailable s) (dbusBus s) v (globalKeyListener s)
    (mainWindow s) (shortcut s) (pendingBind s).
Definition set_globalKeyListener (v : option KeyListener) (s : State) : State :=
  mkState (isPttActive s) (registeredAccelerator s) (isWayland s)
    (portalAvailable s) (dbusBus s) (dbusMessageHandler s) v
    (mainWindow s) (shortcut s) (pendingBind s).
Definition set_mainWindow (v : WindowStatus) (s : State) : State :=
  mkState (isPttActive s) (registeredAccelerator s) (isWayland s)
    (portalAvailable s) (dbusBus s) (dbusMessageHandler s)
    (globalKeyListener s) v (shortcut s) (pendingBind s).
Definition set_shortcut (v : option string) (s : State) : State :=
  mkState (isPttActive s) (registeredAccelerator s) (isWayland s)
    (portalAvailable s) (dbusBus s) (dbusMessageHandler s)
    (globalKeyListener s) (mainWindow s) v (pendingBind s).
Definition set_pendingBind (v : option string) (s : State) : State :=
  mkState (isPttActive s) (registeredAccelerator s) (isWayland s)
    (portalAvailable s) (dbusBus s) (dbusMessageHandler s)
    (globalKeyListener s) (mainWindow s) (shortcut s) v.

Definition Step := Step State.

(** [sendPttState] *)
Definition sendPttState (active : bool) : Step :=
  when (fun s => canSend (mainWindow s)) (emit (Send active)).

(** [sendLocalKeybind] *)
Definition sendLocalKeybind (accelerator : string) : Step :=
  when (fun s => canSend (mainWindow s)) (emit (SendLocal accelerator)).

(** [isPttActive = !isPttActive; sendPttState(isPttActive)] *)
Definition togglePtt : Step :=
  assign (fun s => set_isPttActive (negb (isPttActive s)) s) ;;
  (fun s => sendPttState (isPttActive s) s).

(** [parseAccelerator]: splits on ["+"] only. *)
Definition parseAccelerator (accelerator : string) : Accelerator.t :=
  let parts := map Js.trim (Js.split sep_plus (Js.toLowerCase accelerator)) in
  let (last, parts) := Js.pop parts in
  let key := Js.or_default last "" in
  Accelerator.make key
    (Js.includes parts "ctrl" || Js.includes parts "control")
    (Js.includes parts "shift")
    (Js.includes parts "alt")
    (Js.includes parts "meta" || Js.includes parts "command" || Js.includes parts "cmd").

(** [hasAllModifiers] of [registerGlobalKeyListener] *)
Definition hasAllModifiers (a : Accelerator.t) (m : Modifiers.t) : bool :=
  if Accelerator.ctrl a && negb (Modifiers.ctrl m) then false
  else if Accelerator.shift a && negb (Modifiers.shift m) then false
  else if Accelerator.alt a && negb (Modifiers.alt m) then false
  else if Accelerator.meta a && negb (Modifiers.meta m) then false
  else true.

Definition isDown (k : KeyState) : bool :=
  match k with DOWN => true | UP => false end.

(** [e.name?.toLowerCase() || ""] *)
Definition keyNameOf (e : KeyEvent) : string :=
  match name e with
  | Some n => Js.toLowerCase n
  | None => ""
  end.

(** The four modifier updates at the head of the listener. *)
Definition trackModifiers (e : KeyEvent) (m : Modifiers.t) : Modifiers.t :=
  let keyName := keyNameOf e in
  let down := isDown (state e) in
  let named n := String.eqb keyName n in
  Modifiers.make
    (if named "left ctrl" || named "right ctrl" then down else Modifiers.ctrl m)
    (if named "left shift" || named "right shift" then down else Modifiers.shift m)
    (if named "left alt" || named "right alt" then down else Modifiers.alt m)
    (if named "left meta" || named "right meta" || named "command" then down
     else Modifiers.meta m).

(** [keyName === key || keyName.includes(key)] *)
Definition keyMatch (keyName key : string) : bool :=
  String.eqb keyName key || Js.str_includes keyName key.

(** The listener given to [globalKeyListener.addListener]: the new state,
    the calls made and the boolean returned to the library ([true]
    stops propagation). *)
Definition keyListenerCallback (e : KeyEvent) (l : KeyListener) (s : State)
  : State * list Action * bool :=
  let m := trackModifiers e (modifierState l) in
  let l' := mkKeyListener (target l) m in
  let s := set_globalKeyListener (Some l') s in
  let hit := keyMatch (keyNameOf e) (Accelerator.key (target l)) in
  if hit && isDown (state e) && hasAllModifiers (target l) m then
    (when (fun s => negb (isPttActive s))
          (assign (set_isPttActive true) ;; sendPttState true) s, true)
  else if hit && negb (isDown (state e)) then
    (when isPttActive (assign (set_isPttActive false) ;; sendPttState false) s, true)
  else ((s, []), false).

(** What the platform answers during a registration. *)
Inductive PortalOutcome :=
| BusFails (serviceUnknown : bool)            (* require / sessionBus() throws *)
| CreateSessionFails (serviceUnknown : bool)  (* the CreateSession call is rejected *)
| SessionCreated.

Record Platform := mkPlatform {
  linux : bool;               (* process.platform === "linux" *)
  keyListenerLoads : bool;    (* import and new GlobalKeyboardListener() succeed *)
  nativeRegisters : bool;     (* globalShortcut.register answers true *)
  waylandSession : bool;      (* detectWayland() *)
  portalIntrospects : bool;   (* the Introspect call finds GlobalShortcuts *)
  portal : PortalOutcome
}.

(** [checkPortalAvailability] *)
Definition checkPortalAvailability (env : Platform) : bool :=
  if negb (linux env) then false else portalIntrospects env.

Definition release (r : string) (s : State) : State :=
  match shortcut s with
  | Some a => if String.eqb a r then set_shortcut None s else s
  | None => s
  end.

(** [registerGlobalKeyListener]; nothing is assigned when the import or
    the constructor throws. *)
Definition registerGlobalKeyListener (accelerator : string) (ok : bool) : Step :=
  emit (KeyListenerNew ok) ;;
  when (fun _ => ok)
       (assign (set_globalKeyListener
                  (Some (mkKeyListener (parseAccelerator accelerator) Modifiers.none))) ;;
        assign (set_registeredAccelerator (Some accelerator))).

(** [registerNativeHotkey]: both arms register the same toggling
    callback. *)
Definition registerNativeHotkey (accelerator : string) (ok : bool) : Step :=
  emit (ShortcutRegister accelerator ok) ;;
  when (fun _ => ok)
       (assign (fun s => set_registeredAccelerator (Some accelerator)
                           (set_shortcut (Some accelerator) s))).

(** [registerLocalHotkey] *)
Definition registerLocalHotkey (accelerator : string) : Step :=
  sendLocalKeybind accelerator.

(** [registerWaylandHotkey]; the two [addMatch] calls are part of
    [BusCreateSession] and [BusListen].  The answer to BindShortcuts
    arrives later, see [bindShortcutsAnswered]. *)
Definition registerWaylandHotkey (accelerator : string) (o : PortalOutcome) : Step :=
  let failed (serviceUnknown : bool) : Step :=
    if serviceUnknown
    then emit ConsoleWarn ;; assign (set_portalAvailable false) ;;
         registerLocalHotkey accelerator
    else skip in
  match o with
  | BusFails u => failed u
  | CreateSessionFails u =>
      assign (set_dbusBus true) ;; emit BusCreateSession ;; failed u
  | SessionCreated =>
      assign (set_dbusBus true) ;; emit BusCreateSession ;;
      emit BusBindShortcuts ;; assign (set_pendingBind (Some accelerator)) ;;
      assign (set_dbusMessageHandler true) ;; emit BusListen
  end.

(** The callback of the BindShortcuts call. *)
Definition bindShortcutsAnswered (ok : bool) : Step :=
  fun s =>
    match pendingBind s with
    | Some accelerator =>
        (assign (set_pendingBind None) ;;
         when (fun _ => ok) (assign (set_registeredAccelerator (Some accelerator)))) s
    | None => (s, [])
    end.

Inductive PortalMessage :=
| Activated (shortcutId : option string)
| Deactivated (shortcutId : option string)
| OtherMember.

Definition isPushToTalkId (shortcutId : option string) : bool :=
  match shortcutId with Some i => String.eqb i "push-to-talk" | None => false end.

(** [dbusMessageHandler] *)
Definition portalMessageHandler (mode : Mode) (m : PortalMessage) : Step :=
  match m with
  | Activated i =>
      if isPushToTalkId i then
        match mode with
        | Hold => assign (set_isPttActive true) ;; sendPttState true
        | Toggle => togglePtt
        end
      else skip
  | Deactivated i =>
      match mode with
      | Hold => if isPushToTalkId i
                then assign (set_isPttActive false) ;; sendPttState false
                else skip
      | Toggle => skip
      end
  | OtherMember => skip
  end.

(** [unregisterPushToTalkHotkey] *)
Definition unregisterPushToTalkHotkey : Step :=
  (fun s => match globalKeyListener s with
            | Some _ => (emit KeyListenerKill ;; assign (set_globalKeyListener None)) s
            | None => (s, [])
            end) ;;
  (fun s => match registeredAccelerator s with
            | Some (String _ _ as r) =>
                (when (fun s => negb (isWayland s) || negb (portalAvailable s))
                      (emit (ShortcutUnregister r) ;; assign (release r)) ;;
                 assign (set_registeredAccelerator None) ;;
                 assign (set_isPttActive false) ;;
                 sendPttState false) s
            | _ => (s, [])
            end) ;;
  when (fun s => dbusBus s && dbusMessageHandler s)
       (emit BusUnlisten ;;
        assign (set_dbusBus false) ;; assign (set_dbusMessageHandler false)) ;;
  assign (set_isWayland false) ;;
  assign (set_portalAvailable false).

(** [config.pushToTalkKeybind || "Shift+Space"] *)
Definition effectiveAccelerator (cfg : Config) : string :=
  Js.or_default (Some (pushToTalkKeybind cfg)) "Shift+Space".

Definition same_accelerator (r : option string) (a : string) : bool :=
  match r with Some x => String.eqb x a | None => false end.

Definition isHold (m : Mode) : bool :=
  match m with Hold => true | Toggle => false end.

(** The tail of [registerPushToTalkHotkey], once native registration has
    failed. *)
Definition afterNativeFailure (accelerator : string) (env : Platform) : Step :=
  assign (set_isWayland (waylandSession env)) ;;
  (if waylandSession env && linux env then
     assign (set_portalAvailable (checkPortalAvailability env)) ;;
     (if negb (checkPortalAvailability env)
      then emit ConsoleWarn ;; registerLocalHotkey accelerator
      else registerWaylandHotkey accelerator (portal env))
   else registerLocalHotkey accelerator).

(** The strategy chain of [registerPushToTalkHotkey], after the existing
    binding was removed. *)
Definition strategyChain (cfg : Config) (accelerator : string) (env : Platform) : Step :=
  let viaListener := isHold (pushToTalkMode cfg) && linux env in
  if viaListener && keyListenerLoads env
  then registerGlobalKeyListener accelerator true
  else
    (if viaListener then registerGlobalKeyListener accelerator false else skip) ;;
    registerNativeHotkey accelerator (nativeRegisters env) ;;
    (if nativeRegisters env
     then (if isHold (pushToTalkMode cfg) then emit ConsoleWarn else skip)
     else afterNativeFailure accelerator env).

(** [registerPushToTalkHotkey].  The function is [async]; the model runs
    it to completion without other events in between.  Two calls that
    overlap at an [await] are outside the model: each would create a key
    listener of its own, and the module knows only the one assigned last
    to [globalKeyListener]. *)
Definition registerPushToTalkHotkey (cfg : Config) (env : Platform) : Step :=
  fun s =>
    if negb (pushToTalk cfg) then unregisterPushToTalkHotkey s
    else
      let accelerator := effectiveAccelerator cfg in
      if same_accelerator (registeredAccelerator s) accelerator then (s, [])
      else (unregisterPushToTalkHotkey ;; strategyChain cfg accelerator env) s.

(** [typeof data === "object"] *)
Definition typeofObject (v : JsValue) : bool :=
  match v with JsNull | JsObject _ => true | _ => false end.

(** Truthiness of a value. *)
Definition truthy (v : JsValue) : bool :=
  match v with
  | JsUndefined | JsNull => false
  | JsBool b => b
  | JsNumber z => negb (z =? 0)%Z
  | JsString s => negb (String.eqb s "")
  | JsObject _ => true
  end.

(** [data.active] on an object, [undefined] when the field is absent. *)
Fixpoint field (n : string) (fields : list (string * JsValue)) : option JsValue :=
  match fields with
  | [] => None
  | (k, v) :: r => if String.eqb k n then Some v else field n r
  end.

(** The guard of the [push-to-talk-manual] handler: the boolean carried by
    a well-formed payload. *)
Definition validManualState (data : JsValue) : option bool :=
  if truthy data && typeofObject data then
    match data with
    | JsObject fields =>
        match field "active" fields with
        | Some (JsBool active) => Some active
        | _ => None
        end
    | _ => None
    end
  else None.

(** The [push-to-talk-manual] handler of [initPushToTalk]; its parameter
    is typed [unknown]. *)
Definition manualStateHandler (data : JsValue) : Step :=
  match validManualState data with
  | Some active => assign (set_isPttActive active) ;; sendPttState active
  | None => emit LogWarning
  end.

(** [initPushToTalk], after it has installed [manualStateHandler]. *)
Definition initPushToTalk (cfg : Config) (env : Platform) : Step :=
  when (fun _ => pushToTalk cfg)
       (assign (set_isPttActive false) ;; sendPttState false ;;
        registerPushToTalkHotkey cfg env).

(** *** The module as a machine *)
Inductive Event :=
| KeyPressed (e : KeyEvent)
| NativeShortcutTriggered
| PortalSignal (m : PortalMessage)
| BindShortcutsAnswered (ok : bool)
| ManualState (data : JsValue)
| RegisterRequested (env : Platform)
| UnregisterRequested
| WindowBecomes (w : WindowStatus).

Definition step (cfg : Config) (e : Event) : Step :=
  match e with
  | KeyPressed k =>
      fun s => match globalKeyListener s with
               | Some l => fst (keyListenerCallback k l s)
               | None => (s, [])
               end
  | NativeShortcutTriggered => when (fun s => isSome (shortcut s)) togglePtt
  | PortalSignal m =>
      when dbusMessageHandler (portalMessageHandler (pushToTalkMode cfg) m)
  | BindShortcutsAnswered ok => bindShortcutsAnswered ok
  | ManualState data => manualStateHandler data
  | RegisterRequested env => registerPushToTalkHotkey cfg env
  | UnregisterRequested => unregisterPushToTalkHotkey
  | WindowBecomes w => assign (set_mainWindow w)
  end.

Fixpoint run (os : list (Config * Event)) (s : State) : State * list Action :=
  match os with
  | [] => (s, [])
  | (cfg, e) :: rest =>
      let (s1, l1) := step cfg e s in
      let (s2, l2) := run rest s1 in
      (s2, l1 ++ l2)
  end.

End WindowPushToTalk.

(* ------------------------------------------------------------------ *)
(** ** src/native/pushToTalk.ts, the manual-state handler as it runs

    The parameter of the [push-to-talk-manual] handler is declared
    [{ active: boolean }].  The declaration is erased at run time and the
    handler checks nothing, so the payload is whatever the renderer sent.
    [NativePushToTalk.manualStateHandler] is the handler on the payloads
    of its declared type; this is the handler on every payload. *)

Module NativeManual.

(** [data.active]: [None] when the read throws a TypeError ([data] is
    [null] or [undefined]); [undefined] when there is no such property,
    as on every primitive. *)
Definition readActive (data : JsValue) : option JsValue :=
  match data with
  | JsUndefined | JsNull => None
  | JsObject fields =>
      match WindowPushToTalk.field "active" fields with
      | Some v => Some v
      | None => Some JsUndefined
      end
  | _ => Some JsUndefined
  end.

(** [isPttActive] holds what was assigned to it, and the window. *)
Record State := mkState {
  isPttActive : JsValue;
  mainWindow : WindowStatus
}.

(** The handler: [None] when it throws (before anything is assigned);
    otherwise the new state and the [active] values sent to the renderer
    on ["push-to-talk"]. *)
Definition manualStateHandler (data : JsValue) (s : State)
  : option (State * list JsValue) :=
  match readActive data with
  | None => None
  | Some active =>
      Some (mkState active (mainWindow s),
            if canSend (mainWindow s) then [active] else [])
  end.

End NativeManual.

(* ------------------------------------------------------------------ *)
(** ** src/world/pushToTalk.ts *)

Module WorldPushToTalk.

(** Callbacks of the page are told apart by identity only. *)
Definition Callback := nat.

(** What the preload script does that the outside can see. *)
Inductive Effect :=
| Invoke (cb : Callback) (active : bool)   (* cb({ active }) *)
| IpcSend (active : bool).                 (* ipcRenderer.send("push-to-talk-manual", { active }) *)

Record State := mkState {
  stateChangeCallbacks : list Callback;   (* the Set, in insertion order *)
  currentPttState : bool
}.

Definition initial : State := mkState [] false.

(** [Set.prototype.add] *)
Definition set_add (cb : Callback) (l : list Callback) : list Callback :=
  if existsb (Nat.eqb cb) l then l else l ++ [cb].

(** [Set.prototype.delete] *)
Definition set_delete (cb : Callback) (l : list Callback) : list Callback :=
  filter (fun c => negb (Nat.eqb cb c)) l.

(** [stateChangeCallbacks.forEach((cb) => cb({ active }))]; an exception
    thrown by a callback is caught and logged. *)
Definition notifyAll (active : bool) (s : State) : list Effect :=
  map (fun cb => Invoke cb active) (stateChangeCallbacks s).

(** The [ipcRenderer.on("push-to-talk", ...)] listener. *)
Definition onPushToTalk (active : bool) (s : State) : State * list Effect :=
  if negb (Bool.eqb (currentPttState s) active) then
    let s' := mkState (stateChangeCallbacks s) active in
    (s', notifyAll active s')
  else (s, []).

(** [pushToTalk.onStateChange] *)
Definition onStateChange (callback : Callback) (s : State) : State * list Effect :=
  let s' := mkState (set_add callback (stateChangeCallbacks s)) (currentPttState s) in
  (s', [Invoke callback (currentPttState s')]).

(** [pushToTalk.offStateChange] *)
Definition offStateChange (callback : Callback) (s : State) : State * list Effect :=
  (mkState (set_delete callback (stateChangeCallbacks s)) (currentPttState s), []).

(** [pushToTalk.setManualState] *)
Definition setManualState (active : bool) (s : State) : State * list Effect :=
  let s' := mkState (stateChangeCallbacks s) active in
  (s', IpcSend active :: notifyAll active s').

(** [pushToTalk.getCurrentState] *)
Definition getCurrentState (s : State) : bool := currentPttState s.

Inductive Call :=
| PushToTalkReceived (active : bool)
| OnStateChange (callback : Callback)
| OffStateChange (callback : Callback)
| SetManualState (active : bool).

Definition step (c : Call) (s : State) : State * list Effect :=
  match c with
  | PushToTalkReceived active => onPushToTalk active s
  | OnStateChange cb => onStateChange cb s
  | OffStateChange cb => offStateChange cb s
  | SetManualState active => setManualState active s
  end.

Fixpoint run (cs : list Call) (s : State) : State * list Effect :=
  match cs with
  | [] => (s, [])
  | c :: rest =>
      let (s1, l1) := step c s in
      let (s2, l2) := run rest s1 in
      (s2, l1 ++ l2)
  end.

End WorldPushToTalk.

(* ------------------------------------------------------------------ *)
(** ** src/native/window.ts, the window itself *)

Module WindowShell.

(** What [createMainWindow]'s handlers and [quitApp] do to the window. *)
Inductive Effect :=
| PreventDefault              (* event.preventDefault() *)
| Hide                        (* mainWindow.hide() *)
| Destroy                     (* the close went through *)
| DestroyedError              (* a method called on the destroyed window throws *)
| SetZoomLevel (level : Z)    (* webContents.setZoomLevel(level) *)
| ToggleDevTools              (* webContents.toggleDevTools() *)
| Minimize
| Maximize
| Unmaximize.

(** [shouldQuit], and whether the window was closed for good.  What the
    window answers when asked ([isMaximized()], [getZoomLevel()]) comes
    with the event. *)
Record State := mkState {
  shouldQuit : bool;
  destroyed : bool
}.

Definition initial : State := mkState false false.

(** [mainWindow.close()]: the ["close"] handler decides;
    [minimiseToTray] is [config.minimiseToTray].  A close that the
    handler does not prevent goes through (the page is taken not to
    cancel its unload). *)
Definition close (minimiseToTray : bool) (s : State) : State * list Effect :=
  if destroyed s then (s, [DestroyedError])
  else if negb (shouldQuit s) && minimiseToTray
  then (s, [PreventDefault; Hide])
  else (mkState (shouldQuit s) true, [Destroy]).

(** [quitApp] *)
Definition quitApp (minimiseToTray : bool) (s : State) : State * list Effect :=
  close minimiseToTray (mkState true (destroyed s)).

(** The [app.on("before-quit")] handler. *)
Definition beforeQuit (s : State) : State * list Effect :=
  (mkState true (destroyed s), []).

(** The [ipcMain.on("minimise")] handler. *)
Definition minimise (s : State) : State * list Effect :=
  if destroyed s then (s, [DestroyedError]) else (s, [Minimize]).

(** The [ipcMain.on("maximise")] handler. *)
Definition maximise (isMaximized : bool) (s : State) : State * list Effect :=
  if destroyed s then (s, [DestroyedError])
  else (s, [if isMaximized then Unmaximize else Maximize]).

(** The window's own [before-input-event] handler (zoom and DevTools);
    [zoomLevel] is what [getZoomLevel()] returns. *)
Definition shortcutHandler (input : NativePushToTalk.Input.t) (zoomLevel : Z)
  : list Effect :=
  let key := NativePushToTalk.Input.key input in
  let control := NativePushToTalk.Input.control input in
  if control && String.eqb key "=" then
    [PreventDefault; SetZoomLevel (zoomLevel + 1)]
  else if control && String.eqb key "-" then
    [PreventDefault; SetZoomLevel (zoomLevel - 1)]
  else if String.eqb key "F12" && negb control
          && negb (NativePushToTalk.Input.shift input)
          && negb (NativePushToTalk.Input.alt input) then
    [PreventDefault; ToggleDevTools]
  else [].

(** What can happen to the window. *)
Inductive Event :=
| CloseRequested                 (* the close button, or the ["close"] IPC *)
| QuitApp
| BeforeQuit
| MinimiseRequested
| MaximiseRequested (isMaximized : bool)
| Input (input : NativePushToTalk.Input.t) (zoomLevel : Z).

(** Every event comes with [config.minimiseToTray] as it is then; a
    destroyed window delivers no input. *)
Definition step (minimiseToTray : bool) (e : Event) (s : State) : State * list Effect :=
  match e with
  | CloseRequested => close minimiseToTray s
  | QuitApp => quitApp minimiseToTray s
  | BeforeQuit => beforeQuit s
  | MinimiseRequested => minimise s
  | MaximiseRequested isMaximized => maximise isMaximized s
  | Input input zoomLevel =>
      if destroyed s then (s, []) else (s, shortcutHandler input zoomLevel)
  end.

Fixpoint run (es : list (bool * Event)) (s : State) : State * list Effect :=
  match es with
  | [] => (s, [])
  | (m, e) :: rest =>
      let (s1, l1) := step m e s in
      let (s2, l2) := run rest s1 in
      (s2, l1 ++ l2)
  end.

End WindowShell.

(* ------------------------------------------------------------------ *)
(** ** The earlier preload bridge (callbacks kept in a Map) *)

Module LegacyBridge.

Definition Callback := nat.

Inductive Effect :=
| Invoke (cb : Callback) (active : bool)              (* callback(state) *)
| InvokeLocal (cb : Callback) (accelerator : string)  (* callback(data) *)
| IpcSend (active : bool)     (* ipcRenderer.send("push-to-talk-manual", { active }) *)
| Warn.                       (* console.warn: already registered *)

(** The keys of the two Maps in insertion order; the wrapped listeners
    are attached to [ipcRenderer] in the same order.  Callbacks are taken
    to return normally: nothing here catches what one throws. *)
Record State := mkState {
  stateChangeCallbacks : list Callback;
  localKeybindCallbacks : list Callback;
  currentPttState : bool
}.

Definition initial : State := mkState [] [] false.

Definition has (cb : Callback) (l : list Callback) : bool := existsb (Nat.eqb cb) l.

Definition remove (cb : Callback) (l : list Callback) : list Callback :=
  filter (fun c => negb (Nat.eqb cb c)) l.

(** [pushToTalk.onStateChange] *)
Definition onStateChange (callback : Callback) (s : State) : State * list Effect :=
  if has callback (stateChangeCallbacks s) then (s, [Warn])
  else (mkState (stateChangeCallbacks s ++ [callback]) (localKeybindCallbacks s)
          (currentPttState s), []).

(** [pushToTalk.offStateChange] *)
Definition offStateChange (callback : Callback) (s : State) : State * list Effect :=
  if has callback (stateChangeCallbacks s)
  then (mkState (remove callback (stateChangeCallbacks s)) (localKeybindCallbacks s)
          (currentPttState s), [])
  else (s, []).

(** [pushToTalk.onLocalKeybind] *)
Definition onLocalKeybind (callback : Callback) (s : State) : State * list Effect :=
  if has callback (localKeybindCallbacks s) then (s, [Warn])
  else (mkState (stateChangeCallbacks s) (localKeybindCallbacks s ++ [callback])
          (currentPttState s), []).

(** [pushToTalk.offLocalKeybind] *)
Definition offLocalKeybind (callback : Callback) (s : State) : State * list Effect :=
  if has callback (localKeybindCallbacks s)
  then (mkState (stateChangeCallbacks s) (remove callback (localKeybindCallbacks s))
          (currentPttState s), [])
  else (s, []).

(** A ["push-to-talk"] message: the global listener, then every wrapped
    callback, each storing the state before it calls. *)
Definition onPushToTalk (active : bool) (s : State) : State * list Effect :=
  (mkState (stateChangeCallbacks s) (localKeybindCallbacks s) active,
   map (fun cb => Invoke cb active) (stateChangeCallbacks s)).

(** A ["push-to-talk-local"] message. *)
Definition onPushToTalkLocal (accelerator : string) (s : State) : State * list Effect :=
  (s, map (fun cb => InvokeLocal cb accelerator) (localKeybindCallbacks s)).

(** [pushToTalk.setManualState] *)
Definition setManualState (active : bool) (s : State) : State * list Effect :=
  (s, [IpcSend active]).

(** [pushToTalk.getCurrentState] *)
Definition getCurrentState (s : State) : bool := currentPttState s.

Inductive Call :=
| PushToTalkReceived (active : bool)
| PushToTalkLocalReceived (accelerator : string)
| OnStateChange (callback : Callback)
| OffStateChange (callback : Callback)
| OnLocalKeybind (callback : Callback)
| OffLocalKeybind (callback : Callback)
| SetManualState (active : bool).

Definition step (c : Call) (s : State) : State * list Effect :=
  match c with
  | PushToTalkReceived active => onPushToTalk active s
  | PushToTalkLocalReceived accelerator => onPushToTalkLocal accelerator s
  | OnStateChange cb => onStateChange cb s
  | OffStateChange cb => offStateChange cb s
  | OnLocalKeybind cb => onLocalKeybind cb s
  | OffLocalKeybind cb => offLocalKeybind cb s
  | SetManualState active => setManualState active s
  end.

Fixpoint run (cs : list Call) (s : State) : State * list Effect :=
  match cs with
  | [] => (s, [])
  | c :: rest =>
      let (s1, l1) := step c s in
      let (s2, l2) := run rest s1 in
      (s2, l1 ++ l2)
  end.

End LegacyBridge.

(* ------------------------------------------------------------------ *)
(** ** The preload bridge with DOM interception: its key handlers *)

Module DomBridge.

Record State := mkState {
  pttKeybind : string;
  pttEnabled : bool;
  pttMode : Mode
}.

Definition initial : State := mkState "V" false Hold.

(** A [KeyboardEvent] as far as the handlers read it: the key and whether
    the target is an input, a text area, content-editable or inside an
    [mdui-text-field]. *)
Record KeyboardEvent := mkKeyboardEvent {
  key : string;
  isInput : bool
}.

(** [matchesPttKeybind] *)
Definition matchesPttKeybind (e : KeyboardEvent) (s : State) : bool :=
  String.eqb (Js.toLowerCase (key e)) (Js.toLowerCase (pttKeybind s)).

(** [handleKeyDown]: [true] when it calls [e.stopPropagation()]. *)
Definition handleKeyDown (e : KeyboardEvent) (s : State) : bool :=
  if negb (pttEnabled s) || negb (matchesPttKeybind e s) then false
  else if isInput e then false else true.

(** [handleKeyUp]: [true] when it calls [e.stopPropagation()]. *)
Definition handleKeyUp (e : KeyboardEvent) (s : State) : bool :=
  if negb (pttEnabled s) || negb (matchesPttKeybind e s) then false
  else if negb (isInput e) then true else false.

(** The ["push-to-talk-config"] listener. *)
Definition onConfig (enabled : bool) (keybind : string) (mode : Mode) (s : State) : State :=
  mkState keybind enabled mode.

End DomBridge.

(* ------------------------------------------------------------------ *)
(** ** Vocabulary of the properties *)

(** *** Reading a log *)

(** The state changes a log delivers to the renderer, in order. *)
Definition stateChanges (l : list Action) : list bool :=
  flat_map (fun a => match a with Send b => [b] | _ => [] end) l.

(** The same for a time-stamped log. *)
Definition stateChangesAt (l : list (Z * Action)) : list (Z * bool) :=
  flat_map (fun p => match snd p with Send b => [(fst p, b)] | _ => [] end) l.

(** The calls of a time-stamped log. *)
Definition calls (l : list (Z * Action)) : list Action := map snd l.

(** The local-keybind notices of a log. *)
Definition localKeybinds (l : list Action) : list string :=
  flat_map (fun a => match a with SendLocal acc => [acc] | _ => [] end) l.

(** Calls that take a binding down, and calls that set one up. *)
Definition isTeardown (a : Action) : bool :=
  match a with
  | Send false | ClearTimeout | InputListenerOff | ShortcutUnregister _
  | ShortcutUnregisterAll | KeyListenerKill | BusUnlisten => true
  | _ => false
  end.

Definition isBinding (a : Action) : bool :=
  match a with
  | InputListenerOn | ShortcutRegister _ _ | KeyListenerNew _
  | BusCreateSession | BusBindShortcuts | BusListen | SendLocal _ => true
  | _ => false
  end.

(** *** Predicates *)

(** The input holds a modifier that the keybind does not ask for. *)
Definition extraModifier (input : NativePushToTalk.Input.t) (m : Modifiers.t) : bool :=
  (NativePushToTalk.Input.control input && negb (Modifiers.ctrl m)) ||
  (NativePushToTalk.Input.shift input && negb (Modifiers.shift m)) ||
  (NativePushToTalk.Input.alt input && negb (Modifiers.alt m)) ||
  (NativePushToTalk.Input.meta input && negb (Modifiers.meta m)).

(** Every modifier the accelerator demands is held. *)
Definition requiredHeld (a : Accelerator.t) (held : Modifiers.t) : Prop :=
  (Accelerator.ctrl a = true -> Modifiers.ctrl held = true) /\
  (Accelerator.shift a = true -> Modifiers.shift held = true) /\
  (Accelerator.alt a = true -> Modifiers.alt held = true) /\
  (Accelerator.meta a = true -> Modifiers.meta held = true).

(** [k] occurs in [n] as a contiguous piece. *)
Definition occursIn (k n : string) : Prop :=
  exists pre post, n = (pre ++ k ++ post)%string.

(** A manual-state payload that is not an object, has no [active] field,
    or whose [active] is not a boolean. *)
Definition malformed (data : JsValue) : Prop :=
  (forall fields, data <> JsObject fields) \/
  (exists fields, data = JsObject fields /\
     WindowPushToTalk.field "active" fields = None) \/
  (exists fields v, data = JsObject fields /\
     WindowPushToTalk.field "active" fields = Some v /\ forall b, v <> JsBool b).

(** An occurrence of the native global-shortcut strategy in hold mode: the
    shortcut is triggered or the pending timeout elapses. *)
Definition hotkeyOccurrence (o : NativePushToTalk.Occurrence) : Prop :=
  pushToTalkMode (NativePushToTalk.config o) = Hold /\
  (NativePushToTalk.event o = NativePushToTalk.GlobalShortcutTriggered \/
   NativePushToTalk.event o = NativePushToTalk.TimeoutElapsed).

(** A pending extended timeout is not due before the minimum hold is over. *)
Definition extensionCovers (s : NativePushToTalk.State) : Prop :=
  match NativePushToTalk.holdModeTimeout s with
  | Some (NativePushToTalk.ExtendedTimer d) =>
      (NativePushToTalk.lastActivationTime s + NativePushToTalk.MIN_HOLD_DURATION_MS <= d)%Z
  | _ => True
  end.

(** An occurrence that leaves the window as it is. *)
Definition windowStays (o : NativePushToTalk.Occurrence) : Prop :=
  match NativePushToTalk.event o with
  | NativePushToTalk.WindowBecomes _ => False
  | _ => True
  end.

(** Key listener, native shortcut and portal all unavailable. *)
Definition onlyLocalLeft (env : WindowPushToTalk.Platform) : Prop :=
  WindowPushToTalk.keyListenerLoads env = false /\
  WindowPushToTalk.nativeRegisters env = false /\
  (WindowPushToTalk.waylandSession env && WindowPushToTalk.linux env = false \/
   WindowPushToTalk.checkPortalAvailability env = false).

(** *** Configurations, platforms, states and traces of the examples *)

Definition holdV : Config := mkConfig true "V" Hold.
Definition toggleV : Config := mkConfig true "V" Toggle.
Definition disabledV : Config := mkConfig false "V" Hold.

(** No key listener, no native shortcut, not a Wayland session: only the
    local fallback is left. *)
Definition barePlatform : WindowPushToTalk.Platform :=
  WindowPushToTalk.mkPlatform false false false false false
    (WindowPushToTalk.BusFails false).

(** An X11 Linux desktop where the global key listener loads. *)
Definition x11Platform : WindowPushToTalk.Platform :=
  WindowPushToTalk.mkPlatform true true true false false
    (WindowPushToTalk.BusFails false).

(** A Wayland desktop without the GlobalShortcuts portal. *)
Definition waylandNoPortal : WindowPushToTalk.Platform :=
  WindowPushToTalk.mkPlatform true false false true false
    (WindowPushToTalk.BusFails true).

(** Manual-state payloads: [{ active: true }] and [{ active: "yes" }]. *)
Definition manualOn : JsValue := JsObject [("active", JsBool true)].
Definition activeString : JsValue := JsObject [("active", JsString "yes")].

(** The native module with a live window: at rest, talk active, bound to
    ["V"] under hold mode, and listening for ["v"] without modifiers. *)
Definition resting : NativePushToTalk.State := NativePushToTalk.initial WindowLive.
Definition talking : NativePushToTalk.State :=
  NativePushToTalk.set_isPttActive true (NativePushToTalk.initial WindowLive).
Definition boundV : NativePushToTalk.State :=
  fst (NativePushToTalk.registerPushToTalkHotkey holdV true
         (NativePushToTalk.initial WindowLive)).
Definition focusOnV : NativePushToTalk.State :=
  NativePushToTalk.set_inputListener true
    (NativePushToTalk.set_keybind "v" Modifiers.none (NativePushToTalk.initial WindowLive)).

(** Inputs of the focused window: ["v"] down with ctrl held (the example
    of the design document), and ["V"] down alone. *)
Definition ctrlV : NativePushToTalk.Input.t :=
  NativePushToTalk.Input.make "v" NativePushToTalk.KeyDown true false false false.
Definition vKeyDown : NativePushToTalk.Input.t :=
  NativePushToTalk.Input.make "V" NativePushToTalk.KeyDown false false false false.

(** The window variant bound to ["V"] through the key listener; a key
    listener for ["v"] that has seen ctrl go down; ["V"] going down. *)
Definition listeningV : WindowPushToTalk.State :=
  fst (WindowPushToTalk.registerPushToTalkHotkey holdV x11Platform
         (WindowPushToTalk.initial WindowLive)).
Definition hookOnV : WindowPushToTalk.KeyListener :=
  WindowPushToTalk.mkKeyListener (WindowPushToTalk.parseAccelerator "v")
    (Modifiers.make true false false false).
Definition vDown : WindowPushToTalk.KeyEvent :=
  WindowPushToTalk.mkKeyEvent (Some "V") WindowPushToTalk.DOWN.

(** Local fallback engaged, the renderer reports the key held, then
    push-to-talk is disabled in the configuration. *)
Definition heldThenDisabled : list (Config * WindowPushToTalk.Event) :=
  [ (holdV, WindowPushToTalk.RegisterRequested barePlatform);
    (holdV, WindowPushToTalk.ManualState manualOn);
    (disabledV, WindowPushToTalk.RegisterRequested barePlatform) ].

(** Key listener bound, the key goes down, then the module is torn down. *)
Definition heldThenUnregistered : list (Config * WindowPushToTalk.Event) :=
  [ (holdV, WindowPushToTalk.RegisterRequested x11Platform);
    (holdV, WindowPushToTalk.KeyPressed vDown);
    (holdV, WindowPushToTalk.UnregisterRequested) ].

(** After an activation: the hold timeout elapses 400 ms later, before
    the minimum hold is over, and the extended timeout when it is due. *)
Definition earlyThenDue (t0 : Z) : list NativePushToTalk.Occurrence :=
  [ NativePushToTalk.mkOccurrence (t0 + 400) holdV NativePushToTalk.TimeoutElapsed;
    NativePushToTalk.mkOccurrence (t0 + 700) holdV NativePushToTalk.TimeoutElapsed ].

(** Shift+V is registered and goes down in the focused window. *)
Definition shiftVHeld : list NativePushToTalk.Occurrence :=
  [ NativePushToTalk.mkOccurrence 0 (mkConfig true "Shift+V" Hold)
      (NativePushToTalk.RegisterRequested true);
    NativePushToTalk.mkOccurrence 10 (mkConfig true "Shift+V" Hold)
      (NativePushToTalk.BeforeInput
         (NativePushToTalk.Input.make "V" NativePushToTalk.KeyDown false true false false)) ].

(** *** Inputs of the focused window *)

(** The inputs that [handleBeforeInputEvent] acts on once the keybind
    matches. *)
Definition actsOn (mode : Mode) (t : NativePushToTalk.InputType) : bool :=
  match mode, t with
  | Hold, NativePushToTalk.KeyDown | Hold, NativePushToTalk.KeyUp
  | Toggle, NativePushToTalk.KeyDown => true
  | _, _ => false
  end.

(** Inputs delivered one after the other to [handleBeforeInputEvent]. *)
Fixpoint feed (mode : Mode) (inputs : list NativePushToTalk.Input.t)
  : NativePushToTalk.Step :=
  match inputs with
  | [] => skip
  | i :: rest => NativePushToTalk.handleBeforeInputEvent mode i ;; feed mode rest
  end.

(** ["V"] going up in the focused window. *)
Definition vKeyUp : NativePushToTalk.Input.t :=
  NativePushToTalk.Input.make "V" NativePushToTalk.KeyUp false false false false.

(** *** Timeouts and toggling *)

(** Book-keeping of the one hold timeout over a log: [Some p] when no
    [setTimeout] was issued while a timeout was still pending, with [p]
    telling whether one is pending at the end; [None] otherwise. *)
Fixpoint pendingAfter (pending : bool) (l : list Action) : option bool :=
  match l with
  | [] => Some pending
  | ClearTimeout :: rest => pendingAfter false rest
  | SetTimeout _ :: rest => if pending then None else pendingAfter true rest
  | _ :: rest => pendingAfter pending rest
  end.

(** The occurrence runs the callback of the pending timeout. *)
Definition fires (o : NativePushToTalk.Occurrence) (s : NativePushToTalk.State) : bool :=
  match NativePushToTalk.event o, NativePushToTalk.holdModeTimeout s with
  | NativePushToTalk.TimeoutElapsed, Some (NativePushToTalk.HoldTimer d)
  | NativePushToTalk.TimeoutElapsed, Some (NativePushToTalk.ExtendedTimer d) =>
      (d <=? NativePushToTalk.at_ms o)%Z
  | _, _ => false
  end.

(** An occurrence that comes from an event source of the module: the
    focused window's input, the global shortcut or the hold timeout. *)
Definition fromEventSource (o : NativePushToTalk.Occurrence) : Prop :=
  match NativePushToTalk.event o with
  | NativePushToTalk.BeforeInput _ | NativePushToTalk.GlobalShortcutTriggered
  | NativePushToTalk.TimeoutElapsed => True
  | _ => False
  end.

(** The global shortcut triggered under toggle mode. *)
Definition toggleTrigger (o : NativePushToTalk.Occurrence) : Prop :=
  pushToTalkMode (NativePushToTalk.config o) = Toggle /\
  NativePushToTalk.event o = NativePushToTalk.GlobalShortcutTriggered.

(** [b] flipped [n] times. *)
Definition flipped (n : nat) (b : bool) : bool := xorb (Nat.odd n) b.

(** The states delivered by [n] flips starting from [b]. *)
Fixpoint flips (n : nat) (b : bool) : list bool :=
  match n with
  | O => []
  | S k => negb b :: flips k (negb b)
  end.

(** The global shortcut triggered twice under toggle mode. *)
Definition doubleTrigger : list NativePushToTalk.Occurrence :=
  [ NativePushToTalk.mkOccurrence 0 toggleV NativePushToTalk.GlobalShortcutTriggered;
    NativePushToTalk.mkOccurrence 50 toggleV NativePushToTalk.GlobalShortcutTriggered ].

(** *** The key listener *)

(** Key names the listener takes for each modifier. *)
Definition ctrlKey (n : string) : bool :=
  String.eqb n "left ctrl" || String.eqb n "right ctrl".
Definition shiftKey (n : string) : bool :=
  String.eqb n "left shift" || String.eqb n "right shift".
Definition altKey (n : string) : bool :=
  String.eqb n "left alt" || String.eqb n "right alt".
Definition metaKey (n : string) : bool :=
  String.eqb n "left meta" || String.eqb n "right meta" || String.eqb n "command".

(** The state of the last event, in order of arrival, whose key name
    satisfies [named]; [init] when there is none. *)
Fixpoint lastEdge (named : string -> bool) (es : list WindowPushToTalk.KeyEvent)
    (init : bool) : bool :=
  match es with
  | [] => init
  | e :: rest =>
      lastEdge named rest
        (if named (WindowPushToTalk.keyNameOf e)
         then WindowPushToTalk.isDown (WindowPushToTalk.state e) else init)
  end.

(** The modifier state after the listener has seen [es]. *)
Fixpoint tracked (es : list WindowPushToTalk.KeyEvent) (m : Modifiers.t) : Modifiers.t :=
  match es with
  | [] => m
  | e :: rest => tracked rest (WindowPushToTalk.trackModifiers e m)
  end.

(** Both ctrl keys go down, the left one goes up. *)
Definition bothCtrlThenLeftUp : list WindowPushToTalk.KeyEvent :=
  [ WindowPushToTalk.mkKeyEvent (Some "LEFT CTRL") WindowPushToTalk.DOWN;
    WindowPushToTalk.mkKeyEvent (Some "RIGHT CTRL") WindowPushToTalk.DOWN;
    WindowPushToTalk.mkKeyEvent (Some "LEFT CTRL") WindowPushToTalk.UP ].

(** Key events delivered in order, under one configuration. *)
Definition pressed (cfg : Config) (es : list WindowPushToTalk.KeyEvent)
  : list (Config * WindowPushToTalk.Event) :=
  map (fun e => (cfg, WindowPushToTalk.KeyPressed e)) es.

(** A key listener for ["Shift+V"] that has seen shift released, talk
    still active; ["V"] going up. *)
Definition shiftVHook : WindowPushToTalk.KeyListener :=
  WindowPushToTalk.mkKeyListener (WindowPushToTalk.parseAccelerator "Shift+V")
    Modifiers.none.
Definition vUp : WindowPushToTalk.KeyEvent :=
  WindowPushToTalk.mkKeyEvent (Some "V") WindowPushToTalk.UP.
Definition hookTalking : WindowPushToTalk.State :=
  WindowPushToTalk.set_isPttActive true
    (WindowPushToTalk.set_globalKeyListener (Some shiftVHook)
       (WindowPushToTalk.initial WindowLive)).

(** The key listener that registration for ["V"] installs. *)
Definition plainVHook : WindowPushToTalk.KeyListener :=
  WindowPushToTalk.mkKeyListener (WindowPushToTalk.parseAccelerator "V") Modifiers.none.

(** *** Portal, strategies and further examples of the window variant *)

(** A portal signal that is not for this module: another shortcut id, no
    id at all, another member, or [Deactivated] under toggle mode. *)
Definition foreignSignal (mode : Mode) (m : WindowPushToTalk.PortalMessage) : Prop :=
  match m with
  | WindowPushToTalk.Activated i => WindowPushToTalk.isPushToTalkId i = false
  | WindowPushToTalk.Deactivated i =>
      mode = Toggle \/ WindowPushToTalk.isPushToTalkId i = false
  | WindowPushToTalk.OtherMember => True
  end.

(** Calls that bound a strategy. *)
Definition bindingsMade (l : list Action) : nat :=
  length (filter (fun a => match a with
                           | KeyListenerNew true | ShortcutRegister _ true | BusListen => true
                           | _ => false
                           end) l).

(** Triggers of the native shortcut only, under any configuration. *)
Definition nativeTriggers (os : list (Config * WindowPushToTalk.Event)) : Prop :=
  Forall (fun p => snd p = WindowPushToTalk.NativeShortcutTriggered) os.

(** A Wayland desktop whose portal creates the session. *)
Definition waylandPortal : WindowPushToTalk.Platform :=
  WindowPushToTalk.mkPlatform true false false true true WindowPushToTalk.SessionCreated.

(** The window variant negotiating ["V"] with the portal: the session is
    created, the answer to BindShortcuts is still out. *)
Definition negotiatingV : WindowPushToTalk.State :=
  fst (WindowPushToTalk.registerPushToTalkHotkey toggleV waylandPortal
         (WindowPushToTalk.initial WindowLive)).

(** A desktop where the registrar accepts the shortcut and the key
    listener is not used; the window variant bound to ["V"] there; the
    shortcut triggered twice under hold mode. *)
Definition registrarPlatform : WindowPushToTalk.Platform :=
  WindowPushToTalk.mkPlatform false false true false false (WindowPushToTalk.BusFails false).
Definition nativeV : WindowPushToTalk.State :=
  fst (WindowPushToTalk.registerPushToTalkHotkey holdV registrarPlatform
         (WindowPushToTalk.initial WindowLive)).
Definition doubleNativeTrigger : list (Config * WindowPushToTalk.Event) :=
  [ (holdV, WindowPushToTalk.NativeShortcutTriggered);
    (holdV, WindowPushToTalk.NativeShortcutTriggered) ].

(** *** Reading the effects of a bridge *)

(** The states callback [cb] was called with, in order. *)
Definition deliveredTo (cb : WorldPushToTalk.Callback) (l : list WorldPushToTalk.Effect)
  : list bool :=
  flat_map (fun e => match e with
                     | WorldPushToTalk.Invoke c b => if Nat.eqb c cb then [b] else []
                     | _ => []
                     end) l.

(** The manual states sent to the main process, in order. *)
Definition ipcSent (l : list WorldPushToTalk.Effect) : list bool :=
  flat_map (fun e => match e with WorldPushToTalk.IpcSend b => [b] | _ => [] end) l.

(** [cb] is among the subscribers. *)
Definition subscribed (cb : WorldPushToTalk.Callback) (s : WorldPushToTalk.State) : bool :=
  existsb (Nat.eqb cb) (WorldPushToTalk.stateChangeCallbacks s).

(** The values of [bs] that differ from the one before, [cur] being the
    value before the first. *)
Fixpoint changes (cur : bool) (bs : list bool) : list bool :=
  match bs with
  | [] => []
  | b :: rest => if Bool.eqb cur b then changes cur rest else b :: changes b rest
  end.

(** States arriving from the main process one after the other. *)
Definition received (bs : list bool) : list WorldPushToTalk.Call :=
  map WorldPushToTalk.PushToTalkReceived bs.

(** A call that subscribes [cb]. *)
Definition subscribes (cb : WorldPushToTalk.Callback) (c : WorldPushToTalk.Call) : Prop :=
  c = WorldPushToTalk.OnStateChange cb.

(** The same readings for the earlier bridge. *)
Definition legacyDeliveredTo (cb : LegacyBridge.Callback) (l : list LegacyBridge.Effect)
  : list bool :=
  flat_map (fun e => match e with
                     | LegacyBridge.Invoke c b => if Nat.eqb c cb then [b] else []
                     | _ => []
                     end) l.

Definition legacyReceived (bs : list bool) : list LegacyBridge.Call :=
  map LegacyBridge.PushToTalkReceived bs.

Definition legacyLocalDeliveredTo (cb : LegacyBridge.Callback)
    (l : list LegacyBridge.Effect) : list string :=
  flat_map (fun e => match e with
                     | LegacyBridge.InvokeLocal c a => if Nat.eqb c cb then [a] else []
                     | _ => []
                     end) l.

Definition legacyLocalReceived (accs : list string) : list LegacyBridge.Call :=
  map LegacyBridge.PushToTalkLocalReceived accs.

(** The payload [{ active }] that [setManualState] sends. *)
Definition manualPayload (active : bool) : JsValue := JsObject [("active", JsBool active)].

(** Two subscribers and talk active, as the page can bring about. *)
Definition twoSubscribers : WorldPushToTalk.State :=
  fst (WorldPushToTalk.run
         [ WorldPushToTalk.OnStateChange 1; WorldPushToTalk.OnStateChange 2;
           WorldPushToTalk.PushToTalkReceived true ] WorldPushToTalk.initial).

(** What happens after subscriber 1 has left: main reports, the page sets
    the state by hand, subscriber 2 subscribes again. *)
Definition afterLeaving : list WorldPushToTalk.Call :=
  [ WorldPushToTalk.PushToTalkReceived false; WorldPushToTalk.SetManualState true;
    WorldPushToTalk.OnStateChange 2 ].

(** *** The window's own handlers *)

(** The inputs the window's shortcut handler takes for zooming in and
    out; the handler does not read [input.type]. *)
Definition zoomsIn (i : NativePushToTalk.Input.t) : bool :=
  NativePushToTalk.Input.control i && String.eqb (NativePushToTalk.Input.key i) "=".
Definition zoomsOut (i : NativePushToTalk.Input.t) : bool :=
  NativePushToTalk.Input.control i && String.eqb (NativePushToTalk.Input.key i) "-".

(** Inputs reaching the window one after the other, each with the zoom
    level the window reports then. *)
Definition typed (minimiseToTray : bool) (inputs : list (NativePushToTalk.Input.t * Z))
  : list (bool * WindowShell.Event) :=
  map (fun p => (minimiseToTray, WindowShell.Input (fst p) (snd p))) inputs.

(** The zoom levels a log asks for, in order. *)
Definition zoomRequests (l : list WindowShell.Effect) : list Z :=
  flat_map (fun e => match e with WindowShell.SetZoomLevel z => [z] | _ => [] end) l.

(** One level up for every input that zooms in, one level down for every
    input that zooms out, from the level reported with the input. *)
Definition zoomSteps (inputs : list (NativePushToTalk.Input.t * Z)) : list Z :=
  flat_map (fun p => if zoomsIn (fst p) then [(snd p + 1)%Z]
                     else if zoomsOut (fst p) then [(snd p - 1)%Z] else []) inputs.

(** An event that sets [shouldQuit]. *)
Definition quits (e : WindowShell.Event) : Prop :=
  e = WindowShell.QuitApp \/ e = WindowShell.BeforeQuit.

(** Minimise-to-tray is on and nothing asks the app to quit. *)
Definition trayOnly (es : list (bool * WindowShell.Event)) : Prop :=
  Forall (fun p => fst p = true /\ ~ quits (snd p)) es.

(** Ctrl+= pressed and released: the key-down at level 0, the key-up at
    level 1. *)
Definition ctrlEqualsTap : list (NativePushToTalk.Input.t * Z) :=
  [ (NativePushToTalk.Input.make "=" NativePushToTalk.KeyDown true false false false, 0%Z);
    (NativePushToTalk.Input.make "=" NativePushToTalk.KeyUp true false false false, 1%Z) ].

(** The close button, F12, maximise, the close button again. *)
Definition closeTwice : list (bool * WindowShell.Event) :=
  [ (true, WindowShell.CloseRequested);
    (true, WindowShell.Input
             (NativePushToTalk.Input.make "F12" NativePushToTalk.KeyDown false false false false)
             0%Z);
    (true, WindowShell.MaximiseRequested false);
    (true, WindowShell.CloseRequested) ].

(** *** Keeping in step *)

(** An event of the window variant that leaves the window as it is. *)
Definition windowKept (p : Config * WindowPushToTalk.Event) : Prop :=
  match snd p with
  | WindowPushToTalk.WindowBecomes _ => False
  | _ => True
  end.

(** A statement of the window variant that keeps renderer and module in
    step: the window is left alone; when it can receive, talk is
    afterwards what was sent last; when it cannot, nothing is sent. *)
Definition inStep (f : Step WindowPushToTalk.State) : Prop :=
  forall s,
    WindowPushToTalk.mainWindow (fst (f s)) = WindowPushToTalk.mainWindow s /\
    (canSend (WindowPushToTalk.mainWindow s) = true ->
       WindowPushToTalk.isPttActive (fst (f s)) =
         last (stateChanges (snd (f s))) (WindowPushToTalk.isPttActive s)) /\
    (canSend (WindowPushToTalk.mainWindow s) = false ->
       stateChanges (snd (f s)) = [] /\ localKeybinds (snd (f s)) = []).

(* ------------------------------------------------------------------ *)
(** ** The accelerator grammar as the design document words it *)

Module Grammar.

Definition ctrl_names : list string := ["ctrl"; "control"].
Definition shift_names : list string := ["shift"].
Definition alt_names : list string := ["alt"].
Definition meta_names : list string := ["meta"; "cmd"; "command"].
Definition modifier_names : list string :=
  ctrl_names ++ shift_names ++ alt_names ++ meta_names.

Definition names (l : list string) (t : string) : bool :=
  existsb (String.eqb t) l.

(** The parser of the design document, word for word: lower-case, split on
    [+] and [-], the final token is the key, a flag is set when some
    preceding token is one of its names. *)
Definition parse (s : string) : Accelerator.t :=
  let tokens := Js.split sep_plus_minus (Js.toLowerCase s) in
  let preceding := removelast tokens in
  Accelerator.make (last tokens "")
    (existsb (names ctrl_names) preceding)
    (existsb (names shift_names) preceding)
    (existsb (names alt_names) preceding)
    (existsb (names meta_names) preceding).

(** [t] holds no separator. *)
Fixpoint clean (sep : ascii -> bool) (t : string) : bool :=
  match t with
  | EmptyString => true
  | String c r => negb (sep c) && clean sep r
  end.

(** The characters of [s] that are not separators. *)
Fixpoint unseparated (sep : ascii -> bool) (s : string) : string :=
  match s with
  | EmptyString => EmptyString
  | String c r => if sep c then unseparated sep r else String c (unseparated sep r)
  end.

Fixpoint separators (sep : ascii -> bool) (s : string) : nat :=
  match s with
  | EmptyString => 0
  | String c r => (if sep c then 1 else 0) + separators sep r
  end.

End Grammar.

(* ------------------------------------------------------------------ *)
(** ** Facts about the JavaScript primitives *)

Module JsFacts.
Import Js.

Example lower_mixed : toLowerCase "Ctrl+Alt+Q" = "ctrl+alt+q".
Proof. reflexivity. Qed.

Example trim_both_ends : trim "  left alt  " = "left alt".
Proof. reflexivity. Qed.

Example split_two_separators :
  split sep_plus_minus "a+b-c" = ["a"; "b"; "c"] /\
  split sep_plus_minus "+" = [""; ""] /\
  split sep_plus "a+b-c" = ["a"; "b-c"].
Proof. repeat split; reflexivity. Qed.

Example pop_takes_last : pop ["ctrl"; "alt"; "q"] = (Some "q", ["ctrl"; "alt"]).
Proof. reflexivity. Qed.

Example includes_inside : str_includes "left shift" "shift" = true.
Proof. reflexivity. Qed.

Lemma split_nonempty sep s : split sep s <> [].
Proof.
  destruct s as [|c r]; simpl; [discriminate|].
  destruct (sep c); [discriminate|].
  destruct (split sep r); discriminate.
Qed.

Lemma split_clean sep s : Forall (fun t => Grammar.clean sep t = true) (split sep s).
Proof.
  induction s as [|c r IH]; simpl.
  - repeat constructor.
  - destruct (sep c) eqn:Hc.
    + constructor; [reflexivity | exact IH].
    + destruct (split sep r) as [|t ts] eqn:Hs.
      * constructor; [simpl; rewrite Hc; reflexivity | constructor].
      * inversion IH; subst. constructor; [simpl; rewrite Hc; simpl; assumption | assumption].
Qed.

Lemma split_length sep s : length (split sep s) = S (Grammar.separators sep s).
Proof.
  induction s as [|c r IH]; simpl; [reflexivity|].
  destruct (sep c); simpl.
  - now rewrite IH.
  - destruct (split sep r) as [|t ts] eqn:Hs; simpl in *.
    + discriminate.
    + exact IH.
Qed.

Lemma split_concat sep s :
  String.concat "" (split sep s) = Grammar.unseparated sep s.
Proof.
  induction s as [|c r IH]; simpl; [reflexivity|].
  destruct (sep c) eqn:Hc.
  - destruct (split sep r) as [|t ts] eqn:Hs.
    + now destruct (split_nonempty sep r).
    + simpl in *. exact IH.
  - destruct (split sep r) as [|t ts] eqn:Hs.
    + now destruct (split_nonempty sep r).
    + rewrite <- IH. destruct ts; reflexivity.
Qed.

Lemma pop_last (l : list string) :
  l <> [] -> pop l = (Some (last l ""), removelast l).
Proof.
  induction l as [|x r IH]; intros Hne; [contradiction|].
  destruct r as [|y r']; [reflexivity|].
  change (pop (x :: y :: r')) with (let (la, init) := pop (y :: r') in (la, x :: init)).
  rewrite IH by discriminate. reflexivity.
Qed.

Lemma last_map {A B} (f : A -> B) (l : list A) d :
  last (map f l) (f d) = f (last l d).
Proof.
  induction l as [|x r IH]; [reflexivity|].
  destruct r; [reflexivity|]. exact IH.
Qed.

Lemma removelast_map {A B} (f : A -> B) (l : list A) :
  removelast (map f l) = map f (removelast l).
Proof.
  induction l as [|x r IH]; [reflexivity|].
  destruct r; [reflexivity|]. simpl in *. now rewrite IH.
Qed.

Lemma includes_In l x : includes l x = true <-> In x l.
Proof.
  unfold includes. rewrite existsb_exists. split.
  - intros [y [Hy He]]. apply String.eqb_eq in He. now subst.
  - intros H. exists x. split; [assumption | apply String.eqb_refl].
Qed.

Lemma or_default_some x : or_default (Some x) "" = x.
Proof. destruct x; reflexivity. Qed.

Lemma trim_empty : trim "" = "".
Proof. reflexivity. Qed.

End JsFacts.

(* ------------------------------------------------------------------ *)
(** ** The accelerator parser *)

Module ParserFacts.
Import JsFacts.

Example parse_shift_v :
  NativePushToTalk.parseAccelerator "Shift+V" = Accelerator.make "v" false true false false.
Proof. reflexivity. Qed.

Example parse_f8 :
  NativePushToTalk.parseAccelerator "F8" = Accelerator.make "f8" false false false false.
Proof. reflexivity. Qed.

Example parse_ctrl_alt_q :
  NativePushToTalk.parseAccelerator "ctrl+alt+Q" = Accelerator.make "q" true false true false.
Proof. reflexivity. Qed.

Example parse_unknown_dropped :
  NativePushToTalk.parseAccelerator "Hyper+Cmd-x" = Accelerator.make "x" false false false true.
Proof. reflexivity. Qed.

Example parse_empty :
  NativePushToTalk.parseAccelerator "" = Accelerator.make "" false false false false.
Proof. reflexivity. Qed.

(** The window variant splits on [+] only: a dash stays inside the key. *)
Example window_parse_dash :
  WindowPushToTalk.parseAccelerator "ctrl-v" = Accelerator.make "ctrl-v" false false false false.
Proof. reflexivity. Qed.

Lemma includes_trimmed (tokens : list string) (n : string) :
  Js.includes (map Js.trim tokens) n = true <->
  exists t, In t tokens /\ Js.trim t = n.
Proof.
  rewrite includes_In, in_map_iff. split; intros [t [H1 H2]]; exists t; tauto.
Qed.

Lemma parts_of (sep : ascii -> bool) (s : string) :
  let tokens := Js.split sep (Js.toLowerCase s) in
  Js.pop (map Js.trim tokens) =
  (Some (Js.trim (last tokens "")), map Js.trim (removelast tokens)).
Proof.
  intros tokens. rewrite pop_last.
  - rewrite removelast_map. rewrite <- trim_empty at 1. now rewrite last_map.
  - intros H. apply map_eq_nil in H. now apply (split_nonempty sep (Js.toLowerCase s)).
Qed.

(** C8, as the design document words it, fails: the parser also trims every
    token, so ["Ctrl + V"] gives key ["v"] with [ctrl] set, where the
    worded algorithm gives key [" v"] and no modifier. *)
Lemma parseAccelerator_trims_tokens :
  NativePushToTalk.parseAccelerator "Ctrl + V" = Accelerator.make "v" true false false false /\
  Grammar.parse "Ctrl + V" = Accelerator.make " v" false false false false /\
  NativePushToTalk.parseAccelerator "Ctrl + V" <> Grammar.parse "Ctrl + V".
Proof. repeat split; try reflexivity. discriminate. Qed.

(** C8 (amended): for every input string [parseAccelerator] returns an
    accelerator (it is a total function); with [tokens] the pieces of the
    lower-cased string between the separators [+] and [-] (at least one
    piece, none holding a separator), the key is the last token trimmed of
    surrounding white space, each modifier flag is set exactly when some
    token before the last one, once trimmed, is one of that modifier's
    names, and when no such token is a modifier name all four flags are
    false. *)
Theorem parseAccelerator_grammar (s : string) :
  let tokens := Js.split sep_plus_minus (Js.toLowerCase s) in
  let a := NativePushToTalk.parseAccelerator s in
  tokens <> [] /\
  Forall (fun t => Grammar.clean sep_plus_minus t = true) tokens /\
  Accelerator.key a = Js.trim (last tokens "") /\
  (Accelerator.ctrl a = true <->
     exists t, In t (removelast tokens) /\ In (Js.trim t) Grammar.ctrl_names) /\
  (Accelerator.shift a = true <->
     exists t, In t (removelast tokens) /\ In (Js.trim t) Grammar.shift_names) /\
  (Accelerator.alt a = true <->
     exists t, In t (removelast tokens) /\ In (Js.trim t) Grammar.alt_names) /\
  (Accelerator.meta a = true <->
     exists t, In t (removelast tokens) /\ In (Js.trim t) Grammar.meta_names) /\
  ((forall t, In t (removelast tokens) -> ~ In (Js.trim t) Grammar.modifier_names) ->
   Accelerator.ctrl a = false /\ Accelerator.shift a = false /\
   Accelerator.alt a = false /\ Accelerator.meta a = false).
Proof.
  intros tokens a.
  assert (Ha : a = let parts := map Js.trim (removelast tokens) in
                   Accelerator.make (Js.trim (last tokens ""))
                     (Js.includes parts "ctrl" || Js.includes parts "control")
                     (Js.includes parts "shift")
                     (Js.includes parts "alt")
                     (Js.includes parts "meta" || Js.includes parts "cmd"
                      || Js.includes parts "command")).
  { unfold a, NativePushToTalk.parseAccelerator.
    rewrite (parts_of sep_plus_minus s). fold tokens. cbv zeta.
    now rewrite or_default_some. }
  assert (Hctrl : Accelerator.ctrl a = true <->
     exists t, In t (removelast tokens) /\ In (Js.trim t) Grammar.ctrl_names).
  { rewrite Ha; cbn [Accelerator.ctrl]. rewrite orb_true_iff, !includes_trimmed.
    unfold Grammar.ctrl_names; simpl.
    split.
    - intros [[t [H1 H2]]|[t [H1 H2]]]; exists t; auto.
    - intros [t [H1 [H2|[H2|[]]]]]; [left|right]; exists t; auto. }
  assert (Hshift : Accelerator.shift a = true <->
     exists t, In t (removelast tokens) /\ In (Js.trim t) Grammar.shift_names).
  { rewrite Ha; cbn [Accelerator.shift]. rewrite includes_trimmed.
    unfold Grammar.shift_names; simpl.
    split.
    - intros [t [H1 H2]]; exists t; auto.
    - intros [t [H1 [H2|[]]]]; exists t; auto. }
  assert (Halt : Accelerator.alt a = true <->
     exists t, In t (removelast tokens) /\ In (Js.trim t) Grammar.alt_names).
  { rewrite Ha; cbn [Accelerator.alt]. rewrite includes_trimmed.
    unfold Grammar.alt_names; simpl.
    split.
    - intros [t [H1 H2]]; exists t; auto.
    - intros [t [H1 [H2|[]]]]; exists t; auto. }
  assert (Hmeta : Accelerator.meta a = true <->
     exists t, In t (removelast tokens) /\ In (Js.trim t) Grammar.meta_names).
  { rewrite Ha; cbn [Accelerator.meta]. rewrite !orb_true_iff, !includes_trimmed.
    unfold Grammar.meta_names; simpl.
    split.
    - intros [[[t [H1 H2]]|[t [H1 H2]]]|[t [H1 H2]]]; exists t; auto.
    - intros [t [H1 [H2|[H2|[H2|[]]]]]];
        [left; left|left; right|right]; exists t; auto. }
  refine (conj _ (conj _ (conj _ (conj Hctrl (conj Hshift (conj Halt (conj Hmeta _))))))).
  - apply split_nonempty.
  - apply split_clean.
  - now rewrite Ha.
  - intros Hno. unfold Grammar.modifier_names in Hno.
    repeat split; apply not_true_is_false; intros H.
    + apply Hctrl in H as [t [H1 H2]]. apply (Hno t H1), in_or_app. now left.
    + apply Hshift in H as [t [H1 H2]]. apply (Hno t H1), in_or_app. right.
      apply in_or_app. now left.
    + apply Halt in H as [t [H1 H2]]. apply (Hno t H1), in_or_app. right.
      apply in_or_app. right. apply in_or_app. now left.
    + apply Hmeta in H as [t [H1 H2]]. apply (Hno t H1), in_or_app. right.
      apply in_or_app. right. apply in_or_app. now right.
Qed.

End ParserFacts.

(* ------------------------------------------------------------------ *)
(** ** The debounce controller of src/native/pushToTalk.ts *)

Module ControllerFacts.
Import NativePushToTalk.

Ltac unfold_steps :=
  unfold unregisterPushToTalkHotkey, registerGlobalHotkey, deactivatePtt,
    activatePtt, manualStateHandler, togglePtt, sendPttState,
    andThen, when, assign, emit, skip in *.

Ltac by_cases_on s :=
  destruct s as [active reg kb mods timer trig act win lis sc];
  unfold_steps; destruct active, win, timer; cbn.

Lemma activatePtt_log (s : State) :
  snd (activatePtt s) =
  if negb (isPttActive s) && canSend (mainWindow s) then [Send true] else [].
Proof. by_cases_on s; reflexivity. Qed.

Lemma activatePtt_active (s : State) : isPttActive (fst (activatePtt s)) = true.
Proof. by_cases_on s; reflexivity. Qed.

Lemma activatePtt_again (s : State) :
  activatePtt (fst (activatePtt s)) = (fst (activatePtt s), []).
Proof. by_cases_on s; reflexivity. Qed.

Lemma deactivatePtt_changes (s : State) :
  stateChanges (snd (deactivatePtt s)) =
  if isPttActive s && canSend (mainWindow s) then [false] else [].
Proof. by_cases_on s; reflexivity. Qed.

Lemma deactivatePtt_inactive (s : State) :
  isPttActive (fst (deactivatePtt s)) = false /\
  holdModeTimeout (fst (deactivatePtt s)) = None.
Proof. by_cases_on s; split; reflexivity. Qed.

Lemma deactivatePtt_again (s : State) :
  deactivatePtt (fst (deactivatePtt s)) = (fst (deactivatePtt s), []).
Proof. by_cases_on s; reflexivity. Qed.

(** C6, as stated for every starting state, fails: when talk is already
    active two calls of [activatePtt] deliver no state change at all, and
    when it is already inactive two calls of [deactivatePtt] deliver
    none. *)
Lemma flip_twice_when_already_there :
  stateChanges (snd ((activatePtt ;; activatePtt) talking)) = [] /\
  stateChanges (snd ((deactivatePtt ;; deactivatePtt) resting)) = [] /\
  length (stateChanges (snd ((activatePtt ;; activatePtt) talking))) <> 1.
Proof. repeat split; try reflexivity. discriminate. Qed.

(** C6 (amended): for every starting state the second of two consecutive
    [activatePtt] calls changes nothing and emits nothing, so the pair
    delivers what the first call delivers: exactly one [{active: true}]
    when talk was inactive and the window can receive, nothing otherwise;
    talk is active afterwards.  Symmetrically for [deactivatePtt] with
    [{active: false}]. *)
Theorem flip_twice_emits_once (s : State) :
  (activatePtt (fst (activatePtt s)) = (fst (activatePtt s), []) /\
   stateChanges (snd ((activatePtt ;; activatePtt) s)) =
     (if negb (isPttActive s) && canSend (mainWindow s) then [true] else []) /\
   isPttActive (fst ((activatePtt ;; activatePtt) s)) = true) /\
  (deactivatePtt (fst (deactivatePtt s)) = (fst (deactivatePtt s), []) /\
   stateChanges (snd ((deactivatePtt ;; deactivatePtt) s)) =
     (if isPttActive s && canSend (mainWindow s) then [false] else []) /\
   isPttActive (fst ((deactivatePtt ;; deactivatePtt) s)) = false).
Proof.
  split; split; [apply activatePtt_again | | apply deactivatePtt_again | ].
  - by_cases_on s; split; reflexivity.
  - by_cases_on s; split; reflexivity.
Qed.

(** Toggle semantics of the focus-scoped interceptor: two consecutive
    matching key-down inputs in toggle mode flip talk twice, with no key-up
    in between; each flip is delivered when the window can receive. *)
Theorem toggle_flips_on_each_key_down (input : Input.t) (s : State) :
  matchesKeybind input s = true -> Input.type input = KeyDown ->
  let r1 := handleBeforeInputEvent Toggle input s in
  let r2 := handleBeforeInputEvent Toggle input (fst r1) in
  isPttActive (fst r1) = negb (isPttActive s) /\
  isPttActive (fst r2) = isPttActive s /\
  stateChanges (snd r1 ++ snd r2) =
    (if canSend (mainWindow s) then [negb (isPttActive s); isPttActive s] else []).
Proof.
  intros Hm Hdown r1 r2. subst r2 r1.
  destruct s as [active reg kb mods timer trig act win lis sc].
  unfold handleBeforeInputEvent, matchesKeybind in *. cbn in *.
  rewrite !Hm, Hdown. unfold_steps.
  destruct active, win; cbn; rewrite ?Hm; cbn; repeat split; reflexivity.
Qed.

Lemma toggle_flips_on_each_key_down_witness :
  stateChanges
    (snd (handleBeforeInputEvent Toggle vKeyDown focusOnV) ++
     snd (handleBeforeInputEvent Toggle vKeyDown
            (fst (handleBeforeInputEvent Toggle vKeyDown focusOnV)))) =
  [true; false].
Proof.
  exact (proj2 (proj2 (toggle_flips_on_each_key_down vKeyDown focusOnV eq_refl eq_refl))).
Defined.

End ControllerFacts.

(* ------------------------------------------------------------------ *)
(** ** The manual override *)

Module ManualFacts.
Import ControllerFacts.

(** C3, as stated, fails: a manual set to the value already current is
    sent to the renderer again (a strategy edge through [deactivatePtt]
    sends nothing there), and the preload bridge calls every subscriber
    again although the value did not change. *)
Lemma manual_state_resends_same_value :
  stateChanges (snd (NativePushToTalk.manualStateHandler false resting)) = [false] /\
  stateChanges (snd (NativePushToTalk.deactivatePtt resting)) = [] /\
  snd (WorldPushToTalk.setManualState false
         (WorldPushToTalk.mkState [7] false)) =
    [WorldPushToTalk.IpcSend false; WorldPushToTalk.Invoke 7 false].
Proof. repeat split; reflexivity. Qed.

(** C3 (amended): for every boolean [v] the manual override stores [v] in
    [isPttActive] and sends [{active: v}] whenever the window can receive,
    also when [v] is the current value; it does not go through
    [activatePtt] / [deactivatePtt] and leaves a pending hold timeout
    alone.  Strategy edges that follow work from the new baseline:
    [activatePtt] after a manual [true] and [deactivatePtt] after a manual
    [false] deliver nothing, the opposite edges deliver one change. *)
Theorem manual_state_forces (v : bool) (s : NativePushToTalk.State) :
  let s' := fst (NativePushToTalk.manualStateHandler v s) in
  NativePushToTalk.manualStateHandler v s =
    (NativePushToTalk.set_isPttActive v s,
     if canSend (NativePushToTalk.mainWindow s) then [Send v] else []) /\
  NativePushToTalk.isPttActive s' = v /\
  NativePushToTalk.holdModeTimeout s' = NativePushToTalk.holdModeTimeout s /\
  stateChanges (snd (NativePushToTalk.activatePtt s')) =
    (if negb v && canSend (NativePushToTalk.mainWindow s) then [true] else []) /\
  stateChanges (snd (NativePushToTalk.deactivatePtt s')) =
    (if v && canSend (NativePushToTalk.mainWindow s) then [false] else []).
Proof.
  destruct s as [active reg kb mods timer trig act win lis sc].
  unfold NativePushToTalk.manualStateHandler, NativePushToTalk.activatePtt,
    NativePushToTalk.deactivatePtt, NativePushToTalk.sendPttState,
    andThen, when, assign, emit; cbn.
  destruct v, win, timer; cbn; repeat split; reflexivity.
Qed.

(** The window variant accepts a well-formed payload the same way. *)
Lemma window_manual_state_forces (v : bool) (s : WindowPushToTalk.State) :
  WindowPushToTalk.manualStateHandler (JsObject [("active", JsBool v)]) s =
    (WindowPushToTalk.set_isPttActive v s,
     if canSend (WindowPushToTalk.mainWindow s) then [Send v] else []).
Proof.
  destruct s as [active reg wl pa bus h kl win sc pb].
  unfold WindowPushToTalk.manualStateHandler, WindowPushToTalk.sendPttState,
    andThen, when, assign, emit; cbn.
  destruct win; reflexivity.
Qed.

End ManualFacts.

(* ------------------------------------------------------------------ *)
(** ** Malformed manual-state payloads (window.ts) *)

Module PayloadFacts.
Import WindowPushToTalk.

Lemma malformed_invalid (data : JsValue) :
  malformed data -> validManualState data = None.
Proof.
  intros [H | [[fields [-> H]] | [fields [v [-> [H Hv]]]]]].
  - destruct data as [ | | b | z | t | fields]; cbn; try reflexivity.
    + now destruct b.
    + unfold validManualState. now rewrite andb_false_r.
    + unfold validManualState. now rewrite andb_false_r.
    + now destruct (H fields).
  - cbn. now rewrite H.
  - cbn. rewrite H. destruct v; try reflexivity. now destruct (Hv b).
Qed.

Lemma activeString_malformed : malformed activeString.
Proof.
  right; right. exists [("active", JsString "yes")], (JsString "yes").
  repeat split; discriminate.
Qed.

(** The handler of src/native/window.ts validates: a malformed
    manual-state payload (not an object, no [active] field, or a
    non-boolean [active]) is dropped with one logged warning: the state,
    and [isPttActive] in particular, is unchanged and nothing is sent to
    the renderer. *)
Theorem malformed_manual_state_dropped (data : JsValue) (s : State) :
  malformed data ->
  manualStateHandler data s = (s, [LogWarning]) /\
  isPttActive (fst (manualStateHandler data s)) = isPttActive s /\
  stateChanges (snd (manualStateHandler data s)) = [].
Proof.
  intros H. unfold manualStateHandler. rewrite (malformed_invalid data H).
  repeat split.
Qed.

Lemma malformed_manual_state_dropped_witness :
  malformed activeString /\
  manualStateHandler activeString (initial WindowLive) =
    (initial WindowLive, [LogWarning]).
Proof.
  split; [exact activeString_malformed |].
  apply (malformed_manual_state_dropped activeString (initial WindowLive)).
  exact activeString_malformed.
Defined.

(** Every payload is either malformed or carries a boolean, which the
    handler stores and sends. *)
Lemma well_formed_or_malformed (data : JsValue) :
  malformed data \/ exists b, validManualState data = Some b.
Proof.
  destruct data as [ | | b | z | t | fields];
    try (left; left; intros f; discriminate).
  destruct (field "active" fields) as [v|] eqn:Hf.
  - destruct v as [ | | b | z | t | f'];
      try (left; right; right; eexists; eexists; repeat split;
           [exact Hf | intros b'; discriminate]).
    right. exists b. cbn. now rewrite Hf.
  - left; right; left. now exists fields.
Qed.

(** On the payloads its declared type admits, the handler as it runs is
    the handler on booleans. *)
Lemma unchecked_agrees_on_booleans (b : bool) (s : NativePushToTalk.State) (v : JsValue) :
  NativeManual.manualStateHandler (JsObject [("active", JsBool b)])
    (NativeManual.mkState v (NativePushToTalk.mainWindow s)) =
  Some (NativeManual.mkState
          (JsBool (NativePushToTalk.isPttActive
                     (fst (NativePushToTalk.manualStateHandler b s))))
          (NativePushToTalk.mainWindow (fst (NativePushToTalk.manualStateHandler b s))),
        map JsBool (stateChanges (snd (NativePushToTalk.manualStateHandler b s)))).
Proof.
  destruct s as [active reg kb mods timer trig act win lis sc].
  unfold NativePushToTalk.manualStateHandler, NativePushToTalk.sendPttState,
    andThen, when, assign, emit.
  cbn. destruct win; reflexivity.
Qed.

(** The handler of src/native/pushToTalk.ts never drops a payload: it
    throws on [null] and [undefined], and stores and sends whatever
    [data.active] is otherwise. *)
Lemma unchecked_never_drops (data : JsValue) (s : NativeManual.State) :
  match NativeManual.manualStateHandler data s with
  | None => data = JsNull \/ data = JsUndefined
  | Some (s', sent) =>
      NativeManual.readActive data = Some (NativeManual.isPttActive s') /\
      (canSend (NativeManual.mainWindow s) = true -> sent = [NativeManual.isPttActive s'])
  end.
Proof.
  unfold NativeManual.manualStateHandler.
  destruct data as [ | | b | z | t | fields]; cbn; auto;
    try destruct (WindowPushToTalk.field "active" fields) as [v|]; cbn;
    (split; [reflexivity | now intros ->]).
Qed.

Lemma no_active_malformed : malformed (JsObject []).
Proof. right; left. now exists []. Qed.

(** C7 fails for the handler of src/native/pushToTalk.ts, which checks
    nothing: [{ active: "yes" }] and [{}] are malformed, yet the handler
    stores ["yes"], respectively [undefined], in [isPttActive] and sends
    it to the renderer, without a warning.  The handler of
    src/native/window.ts drops the same payloads. *)
Lemma native_manual_state_is_unchecked :
  malformed activeString /\ malformed (JsObject []) /\
  NativeManual.manualStateHandler activeString
    (NativeManual.mkState (JsBool false) WindowLive) =
    Some (NativeManual.mkState (JsString "yes") WindowLive, [JsString "yes"]) /\
  NativeManual.manualStateHandler (JsObject [])
    (NativeManual.mkState (JsBool true) WindowLive) =
    Some (NativeManual.mkState JsUndefined WindowLive, [JsUndefined]) /\
  WindowPushToTalk.manualStateHandler activeString (WindowPushToTalk.initial WindowLive) =
    (WindowPushToTalk.initial WindowLive, [LogWarning]) /\
  WindowPushToTalk.manualStateHandler (JsObject []) (WindowPushToTalk.initial WindowLive) =
    (WindowPushToTalk.initial WindowLive, [LogWarning]).
Proof.
  split; [exact activeString_malformed|].
  split; [exact no_active_malformed|].
  repeat split.
Qed.

End PayloadFacts.

(* ------------------------------------------------------------------ *)
(** ** Teardown *)

Module TeardownFacts.

Ltac split_state s :=
  destruct s as [active reg kb mods timer trig act win lis sc].

Ltac settle :=
  cbn;
  repeat match goal with
         | |- context [String.eqb ?a ?b] => destruct (String.eqb a b); cbn
         end;
  repeat split; try reflexivity.

Lemma native_release_fields (r : string) (s : NativePushToTalk.State) :
  NativePushToTalk.release r s = s \/
  NativePushToTalk.release r s = NativePushToTalk.set_shortcut None s.
Proof.
  unfold NativePushToTalk.release.
  destruct (NativePushToTalk.shortcut s) as [a|]; [|now left].
  destruct (String.eqb a r); [now right | now left].
Qed.

(** Teardown in src/native/pushToTalk.ts, after any trace [os] from any
    state [s0]: talk is inactive afterwards, no hold timeout is pending
    and the shortcut registrar holds nothing; the log is the log of
    [deactivatePtt] followed by calls that send nothing, so the only state
    change delivered is one [{active: false}] when talk was active and
    the window can receive; a second teardown leaves the state as it is
    and delivers nothing. *)
Theorem native_teardown_deactivates (os : list NativePushToTalk.Occurrence)
    (s0 : NativePushToTalk.State) :
  let s := fst (NativePushToTalk.run os s0) in
  let s1 := fst (NativePushToTalk.unregisterPushToTalkHotkey s) in
  NativePushToTalk.isPttActive s1 = false /\
  NativePushToTalk.holdModeTimeout s1 = None /\
  NativePushToTalk.shortcut s1 = None /\
  (exists rest,
     snd (NativePushToTalk.unregisterPushToTalkHotkey s) =
       snd (NativePushToTalk.deactivatePtt s) ++ rest /\
     stateChanges rest = [] /\ forallb isTeardown rest = true) /\
  stateChanges (snd (NativePushToTalk.unregisterPushToTalkHotkey s)) =
    (if NativePushToTalk.isPttActive s && canSend (NativePushToTalk.mainWindow s)
     then [false] else []) /\
  fst (NativePushToTalk.unregisterPushToTalkHotkey s1) = s1 /\
  stateChanges (snd (NativePushToTalk.unregisterPushToTalkHotkey s1)) = [].
Proof.
  intros s s1. subst s1. generalize s. clear s os s0. intros s.
  split_state s.
  unfold NativePushToTalk.unregisterPushToTalkHotkey, NativePushToTalk.deactivatePtt,
    NativePushToTalk.sendPttState, NativePushToTalk.release,
    andThen, when, assign, emit.
  destruct active, win, timer, reg as [[|c r]|], sc as [a|]; settle;
    eexists; repeat split; reflexivity.
Qed.

(** C1 on the push-to-talk section of src/native/window.ts: with only the
    local fallback engaged nothing is registered, so when the renderer has
    reported the key held and push-to-talk is then disabled, teardown
    neither resets [isPttActive] nor sends [{active: false}]; the last
    state the renderer received is [{active: true}].  And where an
    accelerator is registered, the state change is sent after the key
    listener was killed. *)
Lemma window_teardown_leaves_talk_active :
  let r := WindowPushToTalk.run heldThenDisabled (WindowPushToTalk.initial WindowLive) in
  WindowPushToTalk.isPttActive (fst r) = true /\
  snd r = [ShortcutRegister "V" false; SendLocal "V"; Send true] /\
  WindowPushToTalk.unregisterPushToTalkHotkey (fst r) = (fst r, []) /\
  snd (WindowPushToTalk.run heldThenUnregistered (WindowPushToTalk.initial WindowLive)) =
    [KeyListenerNew true; Send true; KeyListenerKill; ShortcutUnregister "V"; Send false].
Proof. repeat split; reflexivity. Qed.

Lemma last_app {A} (l1 l2 : list A) (d : A) :
  last (l1 ++ l2) d = last l2 (last l1 d).
Proof.
  induction l1 as [|x l1 IH]; [reflexivity|].
  destruct l1 as [|y l1].
  - cbn. destruct l2; [reflexivity|]. clear IH. revert a.
    induction l2 as [|z l2 IH2]; intros a; [reflexivity|]. apply IH2.
  - exact IH.
Qed.

Lemma stateChanges_app (l1 l2 : list Action) :
  stateChanges (l1 ++ l2) = stateChanges l1 ++ stateChanges l2.
Proof. unfold stateChanges. apply flat_map_app. Qed.

Lemma calls_stamped (t : Z) (l : list Action) : calls (map (pair t) l) = l.
Proof. unfold calls. rewrite map_map. cbn. apply map_id. Qed.

(** With a live window every occurrence keeps the window live, and the
    last state it delivers, if any, is the value [isPttActive] then has. *)
Lemma native_step_delivers (o : NativePushToTalk.Occurrence) (s : NativePushToTalk.State) :
  NativePushToTalk.mainWindow s = WindowLive -> windowStays o ->
  NativePushToTalk.mainWindow (fst (NativePushToTalk.step o s)) = WindowLive /\
  last (stateChanges (snd (NativePushToTalk.step o s))) (NativePushToTalk.isPttActive s) =
    NativePushToTalk.isPttActive (fst (NativePushToTalk.step o s)).
Proof.
  destruct o as [now [en kbd mode] ev]. split_state s. cbn. intros -> Hstay.
  unfold NativePushToTalk.step; cbn [NativePushToTalk.event NativePushToTalk.config
    NativePushToTalk.at_ms pushToTalkMode].
  destruct ev as [input| | |b|ok| |w]; [| | | | | |contradiction].
  - unfold NativePushToTalk.handleBeforeInputEvent, NativePushToTalk.togglePtt,
      NativePushToTalk.activatePtt, NativePushToTalk.deactivatePtt,
      NativePushToTalk.sendPttState, andThen, when, assign, emit.
    cbn -[NativePushToTalk.matchesKeybind].
    destruct lis; cbn -[NativePushToTalk.matchesKeybind]; [|split; reflexivity].
    destruct (NativePushToTalk.matchesKeybind _ _); cbn; [|split; reflexivity].
    destruct mode, (NativePushToTalk.Input.type input), active, timer; cbn;
      split; reflexivity.
  - unfold NativePushToTalk.globalHotkeyCallback, NativePushToTalk.togglePtt,
      NativePushToTalk.activatePtt, NativePushToTalk.sendPttState,
      andThen, when, assign, emit.
    destruct sc, mode, active, timer; cbn; split; reflexivity.
  - unfold NativePushToTalk.timeoutElapsed, NativePushToTalk.holdTimeoutCallback,
      NativePushToTalk.extendedTimeoutCallback, NativePushToTalk.deactivatePtt,
      NativePushToTalk.sendPttState, andThen, when, assign, emit.
    cbn -[Z.leb Z.sub Z.add].
    destruct timer as [[d|d]|]; cbn -[Z.leb Z.sub Z.add]; [| |split; reflexivity].
    + destruct (d <=? now)%Z; cbn -[Z.leb Z.sub Z.add]; [|split; reflexivity].
      destruct (_ <=? _)%Z, active; cbn -[Z.leb Z.sub Z.add]; split; reflexivity.
    + destruct (d <=? now)%Z, active; cbn; split; reflexivity.
  - unfold NativePushToTalk.manualStateHandler, NativePushToTalk.sendPttState,
      andThen, when, assign, emit. cbn. split; reflexivity.
  - unfold NativePushToTalk.registerPushToTalkHotkey,
      NativePushToTalk.unregisterPushToTalkHotkey, NativePushToTalk.registerGlobalHotkey,
      NativePushToTalk.deactivatePtt, NativePushToTalk.sendPttState,
      NativePushToTalk.release, andThen, when, assign, emit.
    cbn -[NativePushToTalk.same_accelerator String.eqb NativePushToTalk.parseAccelerator].
    destruct en; cbn -[NativePushToTalk.same_accelerator String.eqb
                       NativePushToTalk.parseAccelerator];
      [destruct (NativePushToTalk.same_accelerator _ _); [split; reflexivity|] |];
      destruct active, timer, reg as [[|c r]|], sc as [x|], ok;
      cbn -[String.eqb NativePushToTalk.parseAccelerator];
      repeat match goal with
             | |- context [String.eqb ?a ?b] =>
                 destruct (String.eqb a b); cbn -[String.eqb NativePushToTalk.parseAccelerator]
             end;
      split; reflexivity.
  - unfold NativePushToTalk.unregisterPushToTalkHotkey, NativePushToTalk.deactivatePtt,
      NativePushToTalk.sendPttState, NativePushToTalk.release,
      andThen, when, assign, emit.
    destruct active, timer, reg as [[|c r]|], sc as [x|]; settle.
Qed.

Lemma native_run_delivers (os : list NativePushToTalk.Occurrence)
    (s : NativePushToTalk.State) :
  NativePushToTalk.mainWindow s = WindowLive -> Forall windowStays os ->
  NativePushToTalk.mainWindow (fst (NativePushToTalk.run os s)) = WindowLive /\
  last (stateChanges (calls (snd (NativePushToTalk.run os s))))
       (NativePushToTalk.isPttActive s) =
    NativePushToTalk.isPttActive (fst (NativePushToTalk.run os s)).
Proof.
  revert s. induction os as [|o os IH]; intros s Hlive Hstay.
  - split; [exact Hlive | reflexivity].
  - inversion Hstay as [|? ? Ho Hos]; subst.
    destruct (native_step_delivers o s Hlive Ho) as [H1 H2].
    cbn [NativePushToTalk.run].
    destruct (NativePushToTalk.step o s) as [s1 l1]. cbn [fst snd] in *.
    destruct (IH s1 H1 Hos) as [H3 H4].
    destruct (NativePushToTalk.run os s1) as [s2 l2]. cbn [fst snd] in *.
    split; [exact H3|].
    unfold calls in *. rewrite map_app, stateChanges_app, last_app.
    fold (calls (map (pair (NativePushToTalk.at_ms o)) l1)).
    rewrite calls_stamped, H2. exact H4.
Qed.

(** Symmetry in src/native/pushToTalk.ts: while the window stays live,
    whatever happened before, the last state change delivered by the trace
    followed by teardown is [{active: false}] (or none was ever delivered
    and talk started inactive). *)
Theorem native_teardown_is_terminal (os : list NativePushToTalk.Occurrence)
    (s : NativePushToTalk.State) :
  NativePushToTalk.mainWindow s = WindowLive -> Forall windowStays os ->
  let r := NativePushToTalk.run os s in
  last (stateChanges (calls (snd r) ++
                      snd (NativePushToTalk.unregisterPushToTalkHotkey (fst r))))
       (NativePushToTalk.isPttActive s) = false.
Proof.
  intros Hlive Hstay r. subst r.
  destruct (native_run_delivers os s Hlive Hstay) as [H1 H2].
  rewrite stateChanges_app, last_app, H2.
  generalize dependent (fst (NativePushToTalk.run os s)). intros s1 Hl _.
  split_state s1. cbn in Hl. subst win.
  unfold NativePushToTalk.unregisterPushToTalkHotkey, NativePushToTalk.deactivatePtt,
    NativePushToTalk.sendPttState, NativePushToTalk.release,
    andThen, when, assign, emit.
  destruct active, timer, reg as [[|c r]|], sc as [x|]; settle.
Qed.

Lemma native_teardown_is_terminal_witness :
  last (stateChanges
          (calls (snd (NativePushToTalk.run shiftVHeld (NativePushToTalk.initial WindowLive))) ++
           snd (NativePushToTalk.unregisterPushToTalkHotkey
                  (fst (NativePushToTalk.run shiftVHeld
                          (NativePushToTalk.initial WindowLive))))))
       false = false.
Proof.
  apply (native_teardown_is_terminal shiftVHeld (NativePushToTalk.initial WindowLive)).
  - reflexivity.
  - repeat apply Forall_cons; try apply Forall_nil; exact I.
Defined.

Example shift_v_held_then_torn_down :
  stateChanges
    (calls (snd (NativePushToTalk.run shiftVHeld (NativePushToTalk.initial WindowLive))) ++
     snd (NativePushToTalk.unregisterPushToTalkHotkey
            (fst (NativePushToTalk.run shiftVHeld (NativePushToTalk.initial WindowLive))))) =
  [false; true; false].
Proof. reflexivity. Qed.

End TeardownFacts.

(* ------------------------------------------------------------------ *)
(** ** Registration *)

Module RegistrationFacts.
Import TeardownFacts.

Lemma same_accelerator_eq (r : option string) (a : string) :
  NativePushToTalk.same_accelerator r a = true <-> r = Some a.
Proof.
  destruct r as [x|]; cbn; [|split; discriminate].
  rewrite String.eqb_eq. split; [now intros -> | now intros [= ->]].
Qed.

Lemma window_same_accelerator_eq (r : option string) (a : string) :
  WindowPushToTalk.same_accelerator r a = true <-> r = Some a.
Proof.
  destruct r as [x|]; cbn; [|split; discriminate].
  rewrite String.eqb_eq. split; [now intros -> | now intros [= ->]].
Qed.

Lemma native_teardown_log (s : NativePushToTalk.State) :
  forallb isTeardown (snd (NativePushToTalk.unregisterPushToTalkHotkey s)) = true /\
  In ShortcutUnregisterAll (snd (NativePushToTalk.unregisterPushToTalkHotkey s)).
Proof.
  split_state s.
  unfold NativePushToTalk.unregisterPushToTalkHotkey, NativePushToTalk.deactivatePtt,
    NativePushToTalk.sendPttState, NativePushToTalk.release,
    andThen, when, assign, emit.
  destruct active, win, timer, reg as [[|c r]|], sc as [a|]; settle;
    cbn; tauto.
Qed.

Lemma window_teardown_log (s : WindowPushToTalk.State) :
  forallb isTeardown (snd (WindowPushToTalk.unregisterPushToTalkHotkey s)) = true.
Proof.
  destruct s as [active reg wl pa bus h kl win sc pb].
  unfold WindowPushToTalk.unregisterPushToTalkHotkey, WindowPushToTalk.sendPttState,
    WindowPushToTalk.release, andThen, when, assign, emit.
  destruct win, kl, reg as [[|c r]|], wl, pa, bus, h, sc as [a|]; settle.
Qed.

Lemma andThen_log {St} (a b : Step St) (s : St) :
  snd ((a ;; b) s) = snd (a s) ++ snd (b (fst (a s))).
Proof. unfold andThen. destruct (a s) as [s1 l1]. cbn. now destruct (b s1). Qed.

Lemma andThen_state {St} (a b : Step St) (s : St) :
  fst ((a ;; b) s) = fst (b (fst (a s))).
Proof. unfold andThen. destruct (a s) as [s1 l1]. cbn. now destruct (b s1). Qed.

Lemma isHold_linux_loads (cfg : Config) (env : WindowPushToTalk.Platform) :
  let b := WindowPushToTalk.isHold (pushToTalkMode cfg) && WindowPushToTalk.linux env
           && WindowPushToTalk.keyListenerLoads env in
  b = true \/ b = false.
Proof. intros b. destruct b; auto. Qed.

Lemma registerGlobalHotkey_log (acc : string) (ok : bool) (s : NativePushToTalk.State) :
  In (ShortcutRegister acc ok) (snd (NativePushToTalk.registerGlobalHotkey acc ok s)).
Proof.
  unfold NativePushToTalk.registerGlobalHotkey. rewrite !andThen_log.
  apply in_or_app; right. apply in_or_app; left. now left.
Qed.

Lemma registerNativeHotkey_log (acc : string) (ok : bool) (w : WindowPushToTalk.State) :
  exists t, snd (WindowPushToTalk.registerNativeHotkey acc ok w) =
            ShortcutRegister acc ok :: t.
Proof.
  unfold WindowPushToTalk.registerNativeHotkey, andThen, when, assign, emit.
  destruct ok; cbn; eexists; reflexivity.
Qed.

(** The strategy chain always attempts at least one binding. *)
Lemma strategyChain_binds (cfg : Config) (acc : string)
    (env : WindowPushToTalk.Platform) (w : WindowPushToTalk.State) :
  snd (WindowPushToTalk.strategyChain cfg acc env w) <> [] /\
  existsb isBinding (snd (WindowPushToTalk.strategyChain cfg acc env w)) = true.
Proof.
  unfold WindowPushToTalk.strategyChain.
  destruct (isHold_linux_loads cfg env) as [E|E]; rewrite E.
  - unfold WindowPushToTalk.registerGlobalKeyListener, andThen, when, assign, emit.
    cbn. split; [discriminate | reflexivity].
  - rewrite !andThen_log.
    match goal with
    | |- context [WindowPushToTalk.registerNativeHotkey ?a ?o ?st] =>
        destruct (registerNativeHotkey_log a o st) as [t Ht]; rewrite Ht
    end.
    split.
    + intros H. apply app_eq_nil in H as [_ H]. discriminate.
    + rewrite existsb_app. cbn. apply orb_true_r.
Qed.

(** C5, as stated, fails: the mode is not part of the comparison.  Bound
    to ["V"] under hold mode, a request for ["V"] under toggle mode is a
    no-op in both variants; in the window variant the hold-mode key
    listener stays installed. *)
Lemma mode_change_is_not_rebound :
  NativePushToTalk.registeredAccelerator boundV = Some "V" /\
  NativePushToTalk.registerPushToTalkHotkey toggleV true boundV = (boundV, []) /\
  WindowPushToTalk.registerPushToTalkHotkey toggleV x11Platform listeningV =
    (listeningV, []) /\
  WindowPushToTalk.globalKeyListener listeningV <> None.
Proof. repeat split; try reflexivity. discriminate. Qed.

(** C5 (amended): with push-to-talk enabled, a registration request is a
    no-op (state unchanged, no call made) exactly when the requested
    accelerator equals [registeredAccelerator]; the mode is not compared,
    and in src/native/pushToTalk.ts it does not enter registration at all.
    When the accelerator differs, the request starts with the whole of
    [unregisterPushToTalkHotkey] -- calls that only take a binding down --
    and every call that sets a binding up comes after it; the log is then
    not empty. *)
Theorem reregistration_compares_accelerator (k : string) (m m' : Mode) (ok : bool)
    (env : WindowPushToTalk.Platform)
    (s : NativePushToTalk.State) (w : WindowPushToTalk.State) :
  let acc := NativePushToTalk.effectiveAccelerator (mkConfig true k m) in
  (NativePushToTalk.registeredAccelerator s = Some acc ->
     NativePushToTalk.registerPushToTalkHotkey (mkConfig true k m) ok s = (s, [])) /\
  (NativePushToTalk.registeredAccelerator s <> Some acc ->
     exists rest,
       snd (NativePushToTalk.registerPushToTalkHotkey (mkConfig true k m) ok s) =
         snd (NativePushToTalk.unregisterPushToTalkHotkey s) ++ rest /\
       forallb isTeardown (snd (NativePushToTalk.unregisterPushToTalkHotkey s)) = true /\
       snd (NativePushToTalk.unregisterPushToTalkHotkey s) <> [] /\
       In (ShortcutRegister acc ok) rest) /\
  NativePushToTalk.registerPushToTalkHotkey (mkConfig true k m) ok s =
    NativePushToTalk.registerPushToTalkHotkey (mkConfig true k m') ok s /\
  (WindowPushToTalk.registeredAccelerator w = Some acc ->
     WindowPushToTalk.registerPushToTalkHotkey (mkConfig true k m) env w = (w, [])) /\
  (WindowPushToTalk.registeredAccelerator w <> Some acc ->
     exists rest,
       snd (WindowPushToTalk.registerPushToTalkHotkey (mkConfig true k m) env w) =
         snd (WindowPushToTalk.unregisterPushToTalkHotkey w) ++ rest /\
       forallb isTeardown (snd (WindowPushToTalk.unregisterPushToTalkHotkey w)) = true /\
       rest <> [] /\ existsb isBinding rest = true).
Proof.
  intros acc. repeat split.
  - intros H. unfold NativePushToTalk.registerPushToTalkHotkey. cbn [pushToTalk negb].
    fold acc. apply same_accelerator_eq in H. now rewrite H.
  - intros H. unfold NativePushToTalk.registerPushToTalkHotkey. cbn [pushToTalk negb].
    fold acc.
    destruct (NativePushToTalk.same_accelerator _ acc) eqn:E;
      [apply same_accelerator_eq in E; contradiction|].
    rewrite andThen_log. eexists. split; [reflexivity|].
    destruct (native_teardown_log s) as [H1 H2]. split; [exact H1|].
    split; [intros Hnil; rewrite Hnil in H2; exact H2|].
    rewrite !andThen_log.
    apply in_or_app; right. apply in_or_app; right. apply in_or_app; left.
    apply registerGlobalHotkey_log.
  - intros H. unfold WindowPushToTalk.registerPushToTalkHotkey. cbn [pushToTalk negb].
    change (WindowPushToTalk.effectiveAccelerator (mkConfig true k m)) with acc.
    apply window_same_accelerator_eq in H. now rewrite H.
  - intros H. unfold WindowPushToTalk.registerPushToTalkHotkey. cbn [pushToTalk negb].
    change (WindowPushToTalk.effectiveAccelerator (mkConfig true k m)) with acc.
    destruct (WindowPushToTalk.same_accelerator _ acc) eqn:E;
      [apply window_same_accelerator_eq in E; contradiction|].
    rewrite andThen_log. eexists. split; [reflexivity|].
    split; [apply window_teardown_log|].
    apply strategyChain_binds.
Qed.

Example default_accelerator_parsed :
  NativePushToTalk.parseAccelerator "Shift+Space" =
  Accelerator.make "space" false true false false.
Proof. reflexivity. Qed.

Example register_empty_keybind :
  NativePushToTalk.registerPushToTalkHotkey (mkConfig true "" Hold) true
    (NativePushToTalk.initial WindowLive) =
  (NativePushToTalk.mkState false (Some "Shift+Space") "space"
     (Modifiers.make false true false false) None 0 0 WindowLive true
     (Some "Shift+Space"),
   [InputListenerOff; ShortcutUnregisterAll; InputListenerOff; InputListenerOn;
    ShortcutRegister "Shift+Space" true; Send false]).
Proof. reflexivity. Qed.

Lemma teardown_only (l : list Action) (a : Action) :
  forallb isTeardown l = true -> In a l -> isTeardown a = true.
Proof. intros H Hin. rewrite forallb_forall in H. now apply H. Qed.

(** Whatever the strategy chain binds, it binds the accelerator it was
    given; and it always tries the key listener or the registrar. *)
Lemma strategyChain_accelerator (cfg : Config) (acc : string) (env : WindowPushToTalk.Platform) (w : WindowPushToTalk.State) :
  let r := WindowPushToTalk.strategyChain cfg acc env w in
  (forall a b, In (ShortcutRegister a b) (snd r) -> a = acc /\ b = WindowPushToTalk.nativeRegisters env) /\
  (forall a, In (SendLocal a) (snd r) -> a = acc) /\
  (In (KeyListenerNew true) (snd r) ->
     WindowPushToTalk.registeredAccelerator (fst r) = Some acc /\
     WindowPushToTalk.globalKeyListener (fst r) =
       Some (WindowPushToTalk.mkKeyListener (WindowPushToTalk.parseAccelerator acc) Modifiers.none)) /\
  (In BusBindShortcuts (snd r) -> WindowPushToTalk.pendingBind (fst r) = Some acc) /\
  (In (KeyListenerNew true) (snd r) \/
   In (ShortcutRegister acc (WindowPushToTalk.nativeRegisters env)) (snd r)).
Proof.
  destruct cfg as [en kbd mode]. destruct env as [lx kll nat wls pin po].
  destruct w as [active reg wl pa bus h kl win sc pb].
  unfold WindowPushToTalk.strategyChain, WindowPushToTalk.afterNativeFailure, WindowPushToTalk.registerGlobalKeyListener,
    WindowPushToTalk.registerNativeHotkey, WindowPushToTalk.registerWaylandHotkey, WindowPushToTalk.registerLocalHotkey, WindowPushToTalk.sendLocalKeybind,
    WindowPushToTalk.checkPortalAvailability, andThen, when, assign, emit, skip.
  destruct mode, lx, kll, nat, wls, pin, po as [u|u|]; try destruct u;
    cbn -[canSend WindowPushToTalk.parseAccelerator];
    destruct (canSend win); cbn -[WindowPushToTalk.parseAccelerator];
    (split; [intros a b Hin; intuition congruence|]);
    (split; [intros a Hin; intuition congruence|]);
    (split; [intros Hin; intuition congruence|]);
    (split; [intros Hin; intuition congruence|]);
    auto 7.
Qed.

(** Whatever a registration request of the window variant binds, it
    binds the accelerator in force; and unless that accelerator is
    registered already, an enabled request tries the key listener or the
    registrar with it. *)
Lemma window_registration_accelerator (cfg : Config) (env : WindowPushToTalk.Platform)
    (w : WindowPushToTalk.State) :
  let acc := WindowPushToTalk.effectiveAccelerator cfg in
  let rw := WindowPushToTalk.registerPushToTalkHotkey cfg env w in
  (forall a b, In (ShortcutRegister a b) (snd rw) ->
     a = acc /\ b = WindowPushToTalk.nativeRegisters env) /\
  (forall a, In (SendLocal a) (snd rw) -> a = acc) /\
  (In (KeyListenerNew true) (snd rw) ->
     WindowPushToTalk.registeredAccelerator (fst rw) = Some acc /\
     WindowPushToTalk.globalKeyListener (fst rw) =
       Some (WindowPushToTalk.mkKeyListener (WindowPushToTalk.parseAccelerator acc)
               Modifiers.none)) /\
  (In BusBindShortcuts (snd rw) -> WindowPushToTalk.pendingBind (fst rw) = Some acc) /\
  (pushToTalk cfg = true -> WindowPushToTalk.registeredAccelerator w <> Some acc ->
     In (KeyListenerNew true) (snd rw) \/
     In (ShortcutRegister acc (WindowPushToTalk.nativeRegisters env)) (snd rw)).
Proof.
  intros acc rw. subst rw. unfold WindowPushToTalk.registerPushToTalkHotkey. fold acc.
  pose proof (window_teardown_log w) as Htd.
  assert (Hnone : forall a, isTeardown a = false ->
            ~ In a (snd (WindowPushToTalk.unregisterPushToTalkHotkey w))).
  { intros a Ha Hin. rewrite (teardown_only _ a Htd Hin) in Ha. discriminate. }
  destruct (negb (pushToTalk cfg)) eqn:Hen.
  - repeat split; try (intros; exfalso; eapply Hnone; [|eassumption]; reflexivity).
    intros H. rewrite H in Hen. discriminate.
  - destruct (WindowPushToTalk.same_accelerator _ acc) eqn:E.
    + apply window_same_accelerator_eq in E. cbn [fst snd].
      repeat split; intros; contradiction.
    + rewrite andThen_log, andThen_state.
      set (w1 := fst (WindowPushToTalk.unregisterPushToTalkHotkey w)).
      destruct (strategyChain_accelerator cfg acc env w1) as [C1 [C2 [C3 [C4 C5]]]].
      cbv zeta in *.
      assert (Hsplit : forall a, isTeardown a = false ->
                In a (snd (WindowPushToTalk.unregisterPushToTalkHotkey w) ++
                      snd (WindowPushToTalk.strategyChain cfg acc env w1)) ->
                In a (snd (WindowPushToTalk.strategyChain cfg acc env w1))).
      { intros a Ha Hin. apply in_app_or in Hin as [Hin|Hin]; [|exact Hin].
        now destruct (Hnone a Ha). }
      split; [intros a b Hin; apply C1, Hsplit; [reflexivity | exact Hin]|].
      split; [intros a Hin; apply C2, Hsplit; [reflexivity | exact Hin]|].
      split; [intros Hin; apply C3, Hsplit; [reflexivity | exact Hin]|].
      split; [intros Hin; apply C4, Hsplit; [reflexivity | exact Hin]|].
      intros _ _. destruct C5 as [H|H]; [left | right]; apply in_or_app; now right.
Qed.

(** C9: with an empty keybind string a registration request behaves, in
    both variants and from every state, exactly like a request for
    ["Shift+Space"]: the accelerator used is ["Shift+Space"], the only
    accelerator ever handed to [globalShortcut.register] is that one (never
    the empty string), and when push-to-talk is enabled and that
    accelerator is not already registered the request runs the normal
    path: it asks the registrar for ["Shift+Space"] and matches input
    against key ["space"] with shift.  In src/native/window.ts, on every
    platform: whatever the request binds, it binds ["Shift+Space"] (the
    registrar, the local keybind notice and the portal are given that
    accelerator, and a key listener that loads watches key ["space"]
    with shift), and when push-to-talk is enabled and that accelerator
    is not already registered the request does go through the strategy
    chain: the key listener loads, or the registrar is asked for
    ["Shift+Space"]. *)
Theorem empty_keybind_defaults (enabled : bool) (m : Mode) (ok : bool)
    (env : WindowPushToTalk.Platform)
    (s : NativePushToTalk.State) (w : WindowPushToTalk.State) :
  let cfg := mkConfig enabled "" m in
  let r := NativePushToTalk.registerPushToTalkHotkey cfg ok s in
  let rw := WindowPushToTalk.registerPushToTalkHotkey cfg env w in
  NativePushToTalk.effectiveAccelerator cfg = "Shift+Space" /\
  WindowPushToTalk.effectiveAccelerator cfg = "Shift+Space" /\
  r = NativePushToTalk.registerPushToTalkHotkey (mkConfig enabled "Shift+Space" m) ok s /\
  WindowPushToTalk.registerPushToTalkHotkey cfg env w =
    WindowPushToTalk.registerPushToTalkHotkey (mkConfig enabled "Shift+Space" m) env w /\
  ((forall a b, In (ShortcutRegister a b) (snd rw) ->
      a = "Shift+Space" /\ b = WindowPushToTalk.nativeRegisters env) /\
   (forall a, In (SendLocal a) (snd rw) -> a = "Shift+Space") /\
   (In (KeyListenerNew true) (snd rw) ->
      WindowPushToTalk.registeredAccelerator (fst rw) = Some "Shift+Space" /\
      WindowPushToTalk.globalKeyListener (fst rw) =
        Some (WindowPushToTalk.mkKeyListener
                (Accelerator.make "space" false true false false) Modifiers.none)) /\
   (In BusBindShortcuts (snd rw) ->
      WindowPushToTalk.pendingBind (fst rw) = Some "Shift+Space") /\
   (enabled = true -> WindowPushToTalk.registeredAccelerator w <> Some "Shift+Space" ->
      In (KeyListenerNew true) (snd rw) \/
      In (ShortcutRegister "Shift+Space" (WindowPushToTalk.nativeRegisters env)) (snd rw))) /\
  (forall a b, In (ShortcutRegister a b) (snd r) -> a = "Shift+Space" /\ b = ok) /\
  (enabled = true ->
   NativePushToTalk.registeredAccelerator s <> Some "Shift+Space" ->
   In (ShortcutRegister "Shift+Space" ok) (snd r) /\
   NativePushToTalk.currentKeybind (fst r) = "space" /\
   NativePushToTalk.keybindModifiers (fst r) = Modifiers.make false true false false).
Proof.
  intros cfg r rw.
  split; [reflexivity|]. split; [reflexivity|]. split; [reflexivity|].
  split; [reflexivity|].
  split; [exact (window_registration_accelerator cfg env w)|].
  clear rw. subst r cfg. split_state s.
  unfold NativePushToTalk.registerPushToTalkHotkey,
    NativePushToTalk.unregisterPushToTalkHotkey, NativePushToTalk.registerGlobalHotkey,
    NativePushToTalk.deactivatePtt, NativePushToTalk.sendPttState,
    NativePushToTalk.release, andThen, when, assign, emit.
  change (NativePushToTalk.effectiveAccelerator (mkConfig enabled "" m))
    with "Shift+Space".
  rewrite default_accelerator_parsed.
  split.
  - intros a b. cbn -[NativePushToTalk.same_accelerator String.eqb].
    destruct enabled; cbn -[NativePushToTalk.same_accelerator String.eqb];
      [destruct (NativePushToTalk.same_accelerator reg "Shift+Space");
       [cbn; tauto|] |];
      destruct active, win, timer, reg as [[|c r]|], sc as [x|], ok;
      cbn -[String.eqb];
      repeat match goal with
             | |- context [String.eqb ?a ?b] => destruct (String.eqb a b); cbn -[String.eqb]
             end;
      intuition congruence.
  - intros -> Hreg.
    assert (E : NativePushToTalk.same_accelerator reg "Shift+Space" = false).
    { destruct (NativePushToTalk.same_accelerator reg "Shift+Space") eqn:E; [|reflexivity].
      apply same_accelerator_eq in E. now destruct Hreg. }
    cbn -[NativePushToTalk.same_accelerator String.eqb]. rewrite E. clear E Hreg.
    destruct active, win, timer, reg as [[|c r]|], sc as [x|], ok;
      cbn -[String.eqb];
      repeat match goal with
             | |- context [String.eqb ?a ?b] => destruct (String.eqb a b); cbn -[String.eqb]
             end;
      intuition congruence.
Qed.

Example fallback_on_wayland_without_portal :
  WindowPushToTalk.registerPushToTalkHotkey holdV waylandNoPortal
    (WindowPushToTalk.initial WindowLive) =
  (WindowPushToTalk.set_isWayland true (WindowPushToTalk.initial WindowLive),
   [KeyListenerNew false; ShortcutRegister "V" false; ConsoleWarn; SendLocal "V"]).
Proof. reflexivity. Qed.

(** Fallback order: with push-to-talk enabled, the key listener failing
    to load, the native shortcut refused and no portal to turn to, a
    registration that is not a no-op notifies the renderer of the local
    keybind exactly once, with the accelerator requested, and leaves
    nothing registered. *)
Theorem fallback_engages_local_keybind (k : string) (m : Mode)
    (env : WindowPushToTalk.Platform) (w : WindowPushToTalk.State) :
  let cfg := mkConfig true k m in
  let acc := WindowPushToTalk.effectiveAccelerator cfg in
  let r := WindowPushToTalk.registerPushToTalkHotkey cfg env w in
  onlyLocalLeft env ->
  WindowPushToTalk.mainWindow w = WindowLive ->
  WindowPushToTalk.registeredAccelerator w <> Some acc ->
  localKeybinds (snd r) = [acc] /\
  WindowPushToTalk.globalKeyListener (fst r) = None /\
  WindowPushToTalk.shortcut (fst r) = WindowPushToTalk.shortcut
                                       (fst (WindowPushToTalk.unregisterPushToTalkHotkey w)).
Proof.
  intros cfg acc r [Hkl [Hnat Hportal]] Hlive Hreg. subst r.
  unfold WindowPushToTalk.registerPushToTalkHotkey. cbn [pushToTalk negb cfg].
  fold cfg. fold acc.
  destruct (WindowPushToTalk.same_accelerator _ acc) eqn:E;
    [apply window_same_accelerator_eq in E; contradiction|].
  clear E Hreg.
  destruct env as [lx kll nat wls pin po]. cbn in Hkl, Hnat, Hportal. subst kll nat.
  destruct w as [active reg wl pa bus h kl win sc pb]. cbn in Hlive. subst win.
  unfold WindowPushToTalk.unregisterPushToTalkHotkey, WindowPushToTalk.strategyChain,
    WindowPushToTalk.afterNativeFailure, WindowPushToTalk.registerGlobalKeyListener,
    WindowPushToTalk.registerNativeHotkey, WindowPushToTalk.registerWaylandHotkey,
    WindowPushToTalk.registerLocalHotkey, WindowPushToTalk.sendLocalKeybind,
    WindowPushToTalk.sendPttState, WindowPushToTalk.release,
    WindowPushToTalk.checkPortalAvailability in *.
  unfold andThen, when, assign, emit, skip.
  destruct lx, wls, pin; cbn in Hportal;
    try (destruct Hportal; discriminate); clear Hportal;
    destruct m, kl, reg as [[|c r]|], wl, pa, bus, h, sc as [x|];
    cbn -[String.eqb];
    repeat match goal with
           | |- context [String.eqb ?a ?b] => destruct (String.eqb a b); cbn -[String.eqb]
           end;
    repeat split; reflexivity.
Qed.

Lemma fallback_engages_local_keybind_witness :
  localKeybinds
    (snd (WindowPushToTalk.registerPushToTalkHotkey (mkConfig true "V" Hold) waylandNoPortal
            (WindowPushToTalk.initial WindowLive))) = ["V"].
Proof.
  refine (proj1 (fallback_engages_local_keybind "V" Hold waylandNoPortal
                   (WindowPushToTalk.initial WindowLive) _ eq_refl _)).
  - repeat split. now right.
  - discriminate.
Defined.

End RegistrationFacts.

(* ------------------------------------------------------------------ *)
(** ** Exact and tolerant matching *)

Module MatchFacts.

Lemma prefix_app (k s : string) :
  prefix k s = true <-> exists post, s = (k ++ post)%string.
Proof.
  revert s. induction k as [|c k IH]; intros s.
  - destruct s; simpl; split; intros; try reflexivity; eexists; reflexivity.
  - destruct s as [|d s]; simpl.
    + split; [discriminate | intros [post H]; discriminate].
    + destruct (ascii_dec c d) as [->|Hne].
      * rewrite IH. split.
        -- intros [post H]. exists post. now rewrite H.
        -- intros [post H]. exists post. now injection H.
      * split; [discriminate | intros [post H]; injection H as H1 H2; now destruct Hne].
Qed.

Lemma str_includes_occurs (n k : string) :
  Js.str_includes n k = true <-> occursIn k n.
Proof.
  unfold occursIn. induction n as [|c n IH].
  - change (Js.str_includes "" k) with (prefix k "" || false).
    rewrite orb_false_r, prefix_app. split.
    + intros [post H]. now exists ""%string, post.
    + intros [pre [post H]]. destruct pre; [now exists post | discriminate].
  - change (Js.str_includes (String c n) k)
      with (prefix k (String c n) || Js.str_includes n k).
    rewrite orb_true_iff, prefix_app, IH. split.
    + intros [[post H] | [pre [post H]]].
      * now exists ""%string, post.
      * exists (String c pre), post. simpl. now rewrite H.
    + intros [pre [post H]]. destruct pre as [|d pre].
      * left. now exists post.
      * right. simpl in H. injection H as _ H. now exists pre, post.
Qed.

Lemma keyMatch_spec (n k : string) :
  WindowPushToTalk.keyMatch n k = true <-> n = k \/ occursIn k n.
Proof.
  unfold WindowPushToTalk.keyMatch.
  now rewrite orb_true_iff, String.eqb_eq, str_includes_occurs.
Qed.

Lemma hasAllModifiers_spec (a : Accelerator.t) (held : Modifiers.t) :
  WindowPushToTalk.hasAllModifiers a held = true <-> requiredHeld a held.
Proof.
  destruct a as [k c s al me], held as [c' s' al' me'].
  unfold WindowPushToTalk.hasAllModifiers, requiredHeld; cbn.
  destruct c, s, al, me, c', s', al', me'; cbn; intuition congruence.
Qed.

Lemma extraModifier_mismatch (input : NativePushToTalk.Input.t)
    (s : NativePushToTalk.State) :
  extraModifier input (NativePushToTalk.keybindModifiers s) = true ->
  NativePushToTalk.matchesKeybind input s = false.
Proof.
  unfold extraModifier, NativePushToTalk.matchesKeybind.
  destruct (NativePushToTalk.keybindModifiers s) as [c sh al me].
  destruct input as [k ty ic ish ial ime]. cbn.
  destruct (String.eqb _ _); [|reflexivity].
  destruct c, sh, al, me, ic, ish, ial, ime; cbn; congruence.
Qed.

Example focus_rejects_ctrl_v :
  NativePushToTalk.matchesKeybind ctrlV focusOnV = false /\
  NativePushToTalk.handleBeforeInputEvent Hold ctrlV focusOnV = (focusOnV, []).
Proof. split; reflexivity. Qed.

Example hook_accepts_ctrl_v :
  WindowPushToTalk.keyListenerCallback vDown hookOnV
    (WindowPushToTalk.initial WindowLive) =
  (WindowPushToTalk.set_isPttActive true
     (WindowPushToTalk.set_globalKeyListener (Some hookOnV)
        (WindowPushToTalk.initial WindowLive)),
   [Send true], true).
Proof. reflexivity. Qed.

(** The loose key match also fires on a longer key name. *)
Example hook_matches_inside_name :
  WindowPushToTalk.keyMatch "left alt" "a" = true.
Proof. reflexivity. Qed.

(** C4: the focus-scoped interceptor matches exactly -- an input holding
    a modifier the keybind does not ask for never matches, and
    [handleBeforeInputEvent] then changes nothing and calls nothing,
    whatever the mode -- while the key hook is tolerant: [hasAllModifiers]
    holds exactly when every demanded modifier is held, [keyMatch] holds
    exactly when the key name equals the key or contains it, and a
    matching key going down with the demanded modifiers held activates
    talk and is reported handled, whichever other modifiers are held; a
    key going down while a demanded modifier is not held is passed on
    untouched. *)
Theorem exact_versus_tolerant_match :
  (forall mode input s,
      extraModifier input (NativePushToTalk.keybindModifiers s) = true ->
      NativePushToTalk.matchesKeybind input s = false /\
      NativePushToTalk.handleBeforeInputEvent mode input s = (s, [])) /\
  (forall a held, WindowPushToTalk.hasAllModifiers a held = true <-> requiredHeld a held) /\
  (forall n k, WindowPushToTalk.keyMatch n k = true <-> n = k \/ occursIn k n) /\
  (forall e l s,
      let held := WindowPushToTalk.trackModifiers e (WindowPushToTalk.modifierState l) in
      let r := WindowPushToTalk.keyListenerCallback e l s in
      WindowPushToTalk.state e = WindowPushToTalk.DOWN ->
      WindowPushToTalk.keyMatch (WindowPushToTalk.keyNameOf e)
        (Accelerator.key (WindowPushToTalk.target l)) = true ->
      requiredHeld (WindowPushToTalk.target l) held ->
      snd r = true /\
      WindowPushToTalk.isPttActive (fst (fst r)) = true /\
      stateChanges (snd (fst r)) =
        (if negb (WindowPushToTalk.isPttActive s) &&
            canSend (WindowPushToTalk.mainWindow s)
         then [true] else [])) /\
  (forall e l s,
      let held := WindowPushToTalk.trackModifiers e (WindowPushToTalk.modifierState l) in
      WindowPushToTalk.state e = WindowPushToTalk.DOWN ->
      ~ requiredHeld (WindowPushToTalk.target l) held ->
      WindowPushToTalk.keyListenerCallback e l s =
        (WindowPushToTalk.set_globalKeyListener
           (Some (WindowPushToTalk.mkKeyListener (WindowPushToTalk.target l) held)) s,
         [], false)) /\
  NativePushToTalk.matchesKeybind ctrlV focusOnV = false /\
  snd (WindowPushToTalk.keyListenerCallback vDown hookOnV
         (WindowPushToTalk.initial WindowLive)) = true.
Proof.
  split; [|split; [|split; [|split; [|split; [|split; reflexivity]]]]].
  - intros mode input s H. pose proof (extraModifier_mismatch input s H) as Hm.
    split; [exact Hm|].
    unfold NativePushToTalk.handleBeforeInputEvent. now rewrite Hm.
  - exact hasAllModifiers_spec.
  - exact keyMatch_spec.
  - intros e l s held r Hdown Hkey Hheld. subst r.
    unfold WindowPushToTalk.keyListenerCallback. fold held.
    apply hasAllModifiers_spec in Hheld.
    rewrite Hkey, Hheld, Hdown. cbn [WindowPushToTalk.isDown andb].
    destruct s as [active reg wl pa bus h kl win sc pb].
    unfold WindowPushToTalk.sendPttState, andThen, when, assign, emit. cbn.
    destruct active, win; cbn; repeat split; reflexivity.
  - intros e l s held Hdown Hmissing.
    unfold WindowPushToTalk.keyListenerCallback. fold held.
    destruct (WindowPushToTalk.hasAllModifiers (WindowPushToTalk.target l) held) eqn:E;
      [apply hasAllModifiers_spec in E; contradiction|].
    rewrite Hdown. cbn [WindowPushToTalk.isDown negb].
    now rewrite !andb_false_r.
Qed.

(** A matching key going up releases talk whatever modifiers are held:
    the release arm of the hook does not look at the modifiers. *)
Lemma hook_release_ignores_modifiers (e : WindowPushToTalk.KeyEvent)
    (l : WindowPushToTalk.KeyListener) (s : WindowPushToTalk.State) :
  WindowPushToTalk.state e = WindowPushToTalk.UP ->
  WindowPushToTalk.keyMatch (WindowPushToTalk.keyNameOf e)
    (Accelerator.key (WindowPushToTalk.target l)) = true ->
  snd (WindowPushToTalk.keyListenerCallback e l s) = true /\
  WindowPushToTalk.isPttActive (fst (fst (WindowPushToTalk.keyListenerCallback e l s))) = false.
Proof.
  intros Hup Hkey. unfold WindowPushToTalk.keyListenerCallback.
  rewrite Hkey, Hup. cbn [WindowPushToTalk.isDown andb negb].
  destruct s as [active reg wl pa bus h kl win sc pb].
  unfold WindowPushToTalk.sendPttState, andThen, when, assign, emit. cbn.
  destruct active, win; cbn; split; reflexivity.
Qed.

End MatchFacts.

(* ------------------------------------------------------------------ *)
(** ** Hold emulation of the native global shortcut *)

Module HoldFacts.
Import NativePushToTalk.
Local Open Scope Z_scope.
#[local] Arguments Z.add _ _ : simpl never.
#[local] Arguments Z.sub _ _ : simpl never.

Ltac unfold_hold :=
  unfold step, timeoutElapsed, holdTimeoutCallback, extendedTimeoutCallback,
    globalHotkeyCallback, deactivatePtt, activatePtt, sendPttState,
    andThen, when, assign, emit, skip, extensionCovers,
    MIN_HOLD_DURATION_MS, GLOBAL_HOLD_TIMEOUT_MS in *.

Ltac finish :=
  cbn; repeat split; cbn; auto; try lia;
  repeat (apply Forall_cons || apply Forall_nil);
  try (intros; (discriminate || lia)).

Lemma stateChangesAt_app (l1 l2 : list (Z * Action)) :
  stateChangesAt (l1 ++ l2) = (stateChangesAt l1 ++ stateChangesAt l2)%list.
Proof. unfold stateChangesAt. apply flat_map_app. Qed.

Lemma stateChangesAt_stamped (t : Z) (l : list Action) :
  stateChangesAt (map (pair t) l) = map (pair t) (stateChanges l).
Proof.
  induction l as [|a l IH]; [reflexivity|].
  change (stateChangesAt (map (pair t) (a :: l)))
    with ((match a with Send b => [(t, b)] | _ => [] end)
          ++ stateChangesAt (map (pair t) l))%list.
  change (stateChanges (a :: l))
    with ((match a with Send b => [b] | _ => [] end) ++ stateChanges l)%list.
  rewrite IH, map_app. now destruct a.
Qed.

(** One occurrence of the strategy keeps the invariant, and sends
    [{active: false}] only once the minimum hold is over. *)
Lemma hotkey_step (t0 : Z) (o : Occurrence) (s : State) :
  hotkeyOccurrence o -> t0 <= at_ms o ->
  t0 <= lastActivationTime s -> extensionCovers s ->
  t0 <= lastActivationTime (fst (step o s)) /\
  extensionCovers (fst (step o s)) /\
  Forall (fun b => b = false -> t0 + MIN_HOLD_DURATION_MS <= at_ms o)
         (stateChanges (snd (step o s))).
Proof.
  destruct o as [now [en kbd mode] ev]. intros [Hmode Hev] Hnow Hact Hcov.
  cbn in Hmode, Hev, Hnow. subst mode.
  destruct s as [active reg kb mods timer trig act win lis sc].
  cbn in Hact.
  destruct Hev as [-> | ->]; unfold_hold; cbn in *.
  - destruct sc as [x|]; cbn; [|finish].
    destruct active, win, timer; finish.
  - destruct timer as [[d|d]|]; cbn; [| |finish].
    + destruct (Z.leb_spec d now); cbn; [|finish].
      destruct (Z.leb_spec 600 (now - act)); cbn; [destruct active, win|]; finish.
    + destruct (Z.leb_spec d now); cbn; [|finish].
      destruct active, win; finish.
Qed.

Lemma hotkey_run (t0 : Z) (os : list Occurrence) (s : State) :
  Forall hotkeyOccurrence os -> Forall (fun o => t0 <= at_ms o) os ->
  t0 <= lastActivationTime s -> extensionCovers s ->
  Forall (fun p => snd p = false -> t0 + MIN_HOLD_DURATION_MS <= fst p)
         (stateChangesAt (snd (run os s))).
Proof.
  revert s. induction os as [|o os IH]; intros s Hos Hts Hact Hcov.
  - constructor.
  - inversion Hos as [|? ? Ho Hos']; inversion Hts as [|? ? Ht Hts']; subst.
    destruct (hotkey_step t0 o s Ho Ht Hact Hcov) as [H1 [H2 H3]].
    cbn [run]. destruct (step o s) as [s1 l1] eqn:E1. cbn [fst snd] in *.
    specialize (IH s1 Hos' Hts' H1 H2).
    destruct (run os s1) as [s2 l2]. cbn [fst snd] in *.
    rewrite stateChangesAt_app, stateChangesAt_stamped.
    apply Forall_app. split; [|exact IH].
    apply Forall_map. cbn. exact H3.
Qed.

Lemma boundV_ready : isPttActive boundV = false /\ shortcut boundV <> None.
Proof. split; [reflexivity | discriminate]. Qed.

Lemma earlyThenDue_hotkey (t0 : Z) :
  Forall hotkeyOccurrence (earlyThenDue t0) /\
  Forall (fun o => t0 <= at_ms o) (earlyThenDue t0).
Proof.
  split.
  - repeat apply Forall_cons; try apply Forall_nil; split; cbn; auto.
  - repeat apply Forall_cons; try apply Forall_nil; cbn; lia.
Qed.

Example hold_blip_is_extended :
  stateChangesAt
    (snd (run (mkOccurrence 1000 holdV GlobalShortcutTriggered :: earlyThenDue 1000)
              boundV)) =
  [(1000, true); (1700, false)].
Proof. reflexivity. Qed.

(** C2: in hold mode, when the global shortcut activates talk at [t0]
    (talk was inactive, the shortcut is registered), talk is active from
    [t0] with a hold timeout pending.  Should that timeout run at a time
    [t] with [t - t0 < 600], it deactivates nothing: talk stays active,
    nothing is sent, and the timeout is rescheduled to [t0 + 700].  Once
    the rescheduled timeout is due it deactivates.  And over every
    continuation made of shortcut triggers and timeouts, none earlier
    than [t0], no [{active: false}] is sent before [t0 + 600]. *)
Theorem minimum_hold_respected (s : State) (t0 : Z) (cfg : Config)
    (rest : list Occurrence) :
  pushToTalkMode cfg = Hold ->
  isPttActive s = false -> shortcut s <> None ->
  Forall hotkeyOccurrence rest -> Forall (fun o => t0 <= at_ms o) rest ->
  let activation := mkOccurrence t0 cfg GlobalShortcutTriggered in
  let s1 := fst (step activation s) in
  (isPttActive s1 = true /\ lastActivationTime s1 = t0 /\
   holdModeTimeout s1 = Some (HoldTimer (t0 + GLOBAL_HOLD_TIMEOUT_MS)) /\
   stateChanges (snd (step activation s)) =
     (if canSend (mainWindow s) then [true] else [])) /\
  (forall t, t - t0 < MIN_HOLD_DURATION_MS ->
     let r := holdTimeoutCallback t s1 in
     isPttActive (fst r) = true /\
     snd r = [ClearTimeout; SetTimeout (MIN_HOLD_DURATION_MS - (t - t0) + 100)] /\
     exists d, holdModeTimeout (fst r) = Some (ExtendedTimer d) /\
               d = t0 + MIN_HOLD_DURATION_MS + 100) /\
  (forall t t', t - t0 < MIN_HOLD_DURATION_MS ->
     t0 + MIN_HOLD_DURATION_MS + 100 <= t' ->
     let r := timeoutElapsed t' (fst (holdTimeoutCallback t s1)) in
     isPttActive (fst r) = false /\
     stateChanges (snd r) = (if canSend (mainWindow s) then [false] else [])) /\
  Forall (fun p => snd p = false -> t0 + MIN_HOLD_DURATION_MS <= fst p)
         (stateChangesAt (snd (run (activation :: rest) s))).
Proof.
  intros Hmode Hidle Hsc Hrest Hts activation s1.
  assert (Hs1 : s1 = set_holdModeTimeout (Some (HoldTimer (t0 + 400)))
                       (set_isPttActive true
                          (set_lastActivationTime t0 (set_lastGlobalTriggerTime t0 s)))
                /\ stateChanges (snd (step activation s)) =
                     (if canSend (mainWindow s) then [true] else [])).
  { subst s1 activation.
    destruct s as [active reg kb mods timer trig act win lis sc].
    cbn in Hidle, Hsc. subst active.
    destruct sc as [x|]; [|now destruct Hsc].
    unfold_hold. cbn. rewrite Hmode. cbn.
    destruct win, timer; cbn; split; reflexivity. }
  destruct Hs1 as [Hs1 Hlog].
  split; [|split; [|split]].
  - rewrite Hs1. repeat split. exact Hlog.
  - intros t Ht r. subst r. rewrite Hs1.
    destruct s as [active reg kb mods timer trig act win lis sc].
    unfold_hold. cbn.
    destruct (Z.leb_spec 600 (t - t0)); [lia|]. cbn.
    repeat split. eexists. split; [reflexivity | lia].
  - intros t t' Ht Ht' r. subst r. rewrite Hs1.
    destruct s as [active reg kb mods timer trig act win lis sc].
    unfold_hold. cbn.
    destruct (Z.leb_spec 600 (t - t0)); [lia|]. cbn.
    destruct (Z.leb_spec (t + (600 - (t - t0) + 100)) t'); [|lia]. cbn.
    destruct win; split; reflexivity.
  - cbn [run]. subst s1.
    destruct (step activation s) as [s1 l1] eqn:E1. cbn [fst snd] in *.
    pose proof (hotkey_run t0 rest s1 Hrest Hts) as Hrun.
    destruct (run rest s1) as [s2 l2]. cbn [fst snd] in *.
    rewrite stateChangesAt_app, stateChangesAt_stamped, Hlog.
    apply Forall_app. split.
    + destruct (canSend (mainWindow s)); repeat constructor; discriminate.
    + apply Hrun; rewrite Hs1; cbn; [lia | exact I].
Qed.

Lemma minimum_hold_respected_witness :
  Forall (fun p => snd p = false -> 1000 + MIN_HOLD_DURATION_MS <= fst p)
    (stateChangesAt
       (snd (run (mkOccurrence 1000 holdV GlobalShortcutTriggered :: earlyThenDue 1000)
                 boundV))).
Proof.
  refine (proj2 (proj2 (proj2
            (minimum_hold_respected boundV 1000 holdV (earlyThenDue 1000)
               eq_refl eq_refl _ _ _)))).
  - discriminate.
  - exact (proj1 (earlyThenDue_hotkey 1000)).
  - exact (proj2 (earlyThenDue_hotkey 1000)).
Defined.

End HoldFacts.

(* ------------------------------------------------------------------ *)
(** ** The preload bridge *)

Module BridgeFacts.
Import WorldPushToTalk.

Lemma run_app (cs1 cs2 : list Call) (s : State) :
  run (cs1 ++ cs2) s =
  (fst (run cs2 (fst (run cs1 s))), snd (run cs1 s) ++ snd (run cs2 (fst (run cs1 s)))).
Proof.
  revert s. induction cs1 as [|c cs1 IH]; intros s.
  - cbn. now destruct (run cs2 s).
  - cbn [app run]. destruct (step c s) as [s1 l1]. rewrite IH.
    destruct (run cs1 s1) as [s2 l2]. cbn [fst snd].
    destruct (run cs2 s2) as [s3 l3]. cbn [fst snd]. now rewrite app_assoc.
Qed.

Lemma set_add_In (cb : Callback) (l : list Callback) : In cb (set_add cb l).
Proof.
  unfold set_add. destruct (existsb (Nat.eqb cb) l) eqn:E.
  - apply existsb_exists in E as [x [Hx He]]. apply Nat.eqb_eq in He. now subst.
  - apply in_or_app. right. now left.
Qed.

(** The bridge holds the value main sent last. *)
Lemma onPushToTalk_current (b : bool) (s : State) :
  currentPttState (fst (onPushToTalk b s)) = b.
Proof.
  unfold onPushToTalk. destruct (currentPttState s) eqn:E, b; cbn; auto.
Qed.

Example late_subscriber_sees_on :
  run [PushToTalkReceived true; OnStateChange 3; PushToTalkReceived false] initial =
  (mkState [3] false, [Invoke 3 true; Invoke 3 false]).
Proof. reflexivity. Qed.

(** C10: subscribing through [onStateChange] calls the callback at once,
    exactly once, with [{active: currentPttState}]: that call is the whole
    effect of the subscription, the callback is registered, the current
    state is unchanged, and in any run the call comes before everything
    that later calls deliver.  After any history whose last event is a
    state [b] received from the main process, a new subscriber is called
    with [b]. *)
Theorem subscriber_gets_current_state (cb : Callback) (s : State)
    (before later : list Call) (b : bool) :
  snd (onStateChange cb s) = [Invoke cb (currentPttState s)] /\
  In cb (stateChangeCallbacks (fst (onStateChange cb s))) /\
  currentPttState (fst (onStateChange cb s)) = currentPttState s /\
  snd (run (OnStateChange cb :: later) s) =
    Invoke cb (currentPttState s) :: snd (run later (fst (onStateChange cb s))) /\
  snd (onStateChange cb (fst (run (before ++ [PushToTalkReceived b]) s))) =
    [Invoke cb b].
Proof.
  repeat split.
  - apply set_add_In.
  - cbn [run step]. unfold onStateChange at 1. cbn [currentPttState].
    now destruct (run later _).
  - rewrite run_app. cbn [fst]. unfold onStateChange. cbn [snd currentPttState].
    cbn [run step]. destruct (onPushToTalk b (fst (run before s))) as [s1 l1] eqn:E.
    cbn [fst]. pose proof (onPushToTalk_current b (fst (run before s))) as H.
    rewrite E in H. cbn [fst] in H. now rewrite H.
Qed.

End BridgeFacts.

(* ------------------------------------------------------------------ *)
(** ** Inputs of the focused window *)

Module FocusFacts.
Import NativePushToTalk.

Ltac unfold_focus :=
  unfold handleBeforeInputEvent, togglePtt, activatePtt, deactivatePtt, sendPttState,
    andThen, when, assign, emit, skip in *.

(** The keybind in force is not touched by the controller. *)
Lemma handle_keeps_keybind (mode : Mode) (i j : Input.t) (s : State) :
  matchesKeybind j (fst (handleBeforeInputEvent mode i s)) = matchesKeybind j s.
Proof.
  destruct s as [active reg kb mods timer trig act win lis sc].
  unfold handleBeforeInputEvent.
  destruct (negb (matchesKeybind i _)); [reflexivity|].
  unfold_focus. destruct mode, (Input.type i), active, win, timer; reflexivity.
Qed.

(** The focused-window handler swallows exactly the inputs it acts on:
    [preventDefault] is called if and only if the input matches the
    keybind and is a key-down, or a key-up under hold mode.  Any other
    input leaves the state as it is and calls nothing. *)
Theorem input_consumed_iff (mode : Mode) (input : Input.t) (s : State) :
  (In PreventDefault (snd (handleBeforeInputEvent mode input s)) <->
     matchesKeybind input s = true /\ actsOn mode (Input.type input) = true) /\
  (matchesKeybind input s && actsOn mode (Input.type input) = false ->
     handleBeforeInputEvent mode input s = (s, [])).
Proof.
  destruct s as [active reg kb mods timer trig act win lis sc].
  unfold handleBeforeInputEvent.
  destruct (matchesKeybind input _) eqn:Hm; cbn [negb].
  - unfold_focus.
    destruct mode, (Input.type input), active, win, timer; cbn;
      (split; [split; [intros H; try (split; reflexivity); intuition discriminate
                      | intros [_ H]; try discriminate; auto]
              | intros H; try discriminate; reflexivity]).
  - split; [split; [intros [] | intros [H _]; discriminate] | reflexivity].
Qed.

Lemma andThen_run (a b : Step) (s : State) :
  (a ;; b) s = (fst (b (fst (a s))), snd (a s) ++ snd (b (fst (a s)))).
Proof. unfold andThen. destruct (a s) as [s1 l1]. cbn. now destruct (b s1). Qed.

Lemma feed_app (mode : Mode) (l1 l2 : list Input.t) (s : State) :
  feed mode (l1 ++ l2) s =
  (fst (feed mode l2 (fst (feed mode l1 s))),
   snd (feed mode l1 s) ++ snd (feed mode l2 (fst (feed mode l1 s)))).
Proof.
  revert s. induction l1 as [|i l1 IH]; intros s.
  - cbn. now destruct (feed mode l2 s).
  - cbn [app feed]. rewrite !andThen_run, IH. cbn [fst snd]. now rewrite app_assoc.
Qed.

Lemma feed_cons (mode : Mode) (i : Input.t) (l : list Input.t) (s : State) :
  feed mode (i :: l) s =
  (fst (feed mode l (fst (handleBeforeInputEvent mode i s))),
   snd (handleBeforeInputEvent mode i s) ++
   snd (feed mode l (fst (handleBeforeInputEvent mode i s)))).
Proof. cbn [feed]. apply andThen_run. Qed.

Lemma stateChanges_app' (l1 l2 : list Action) :
  stateChanges (l1 ++ l2) = stateChanges l1 ++ stateChanges l2.
Proof. unfold stateChanges. apply flat_map_app. Qed.

(** A repeated key-down while talk is active is consumed and nothing
    else. *)
Lemma repeats_when_active (d : Input.t) (k : nat) (s : State) :
  matchesKeybind d s = true -> Input.type d = KeyDown -> isPttActive s = true ->
  feed Hold (repeat d k) s = (s, repeat PreventDefault k).
Proof.
  intros Hm Hd Ha. induction k as [|k IH]; [reflexivity|].
  change (repeat d (S k)) with (d :: repeat d k). rewrite feed_cons.
  assert (H1 : handleBeforeInputEvent Hold d s = (s, [PreventDefault])).
  { unfold handleBeforeInputEvent. rewrite Hm, Hd. cbn [negb].
    destruct s as [active reg kb mods timer trig act win lis sc]. cbn in Ha. subst active.
    reflexivity. }
  rewrite H1. cbn [fst snd]. rewrite IH. reflexivity.
Qed.

Lemma stateChanges_consumed (k : nat) : stateChanges (repeat PreventDefault k) = [].
Proof. induction k; [reflexivity | exact IHk]. Qed.

(** Hold mode in the focused window: the key goes down, repeats [n]
    times while held, and goes up.  Talk is inactive afterwards with no
    timeout pending, and the renderer is told once that talk is active
    (unless it already was) and once that it is not. *)
Theorem key_repeat_is_one_activation (d u : Input.t) (n : nat) (s : State) :
  matchesKeybind d s = true -> matchesKeybind u s = true ->
  Input.type d = KeyDown -> Input.type u = KeyUp ->
  let r := feed Hold (repeat d (S n) ++ [u]) s in
  isPttActive (fst r) = false /\
  holdModeTimeout (fst r) = None /\
  stateChanges (snd r) =
    (if canSend (mainWindow s)
     then (if isPttActive s then [false] else [true; false])
     else []).
Proof.
  intros Hd Hu Td Tu r. subst r.
  rewrite feed_app. change (repeat d (S n)) with (d :: repeat d n).
  rewrite !feed_cons. cbn [fst snd].
  set (s1 := fst (handleBeforeInputEvent Hold d s)).
  assert (Hs1 : isPttActive s1 = true /\ mainWindow s1 = mainWindow s /\
                stateChanges (snd (handleBeforeInputEvent Hold d s)) =
                  (if canSend (mainWindow s) && negb (isPttActive s) then [true] else [])).
  { subst s1. unfold handleBeforeInputEvent. rewrite Hd, Td. cbn [negb].
    destruct s as [active reg kb mods timer trig act win lis sc].
    unfold_focus. destruct active, win; cbn; repeat split; reflexivity. }
  destruct Hs1 as [Ha [Hw Hl]].
  assert (Hd1 : matchesKeybind d s1 = true) by (subst s1; now rewrite handle_keeps_keybind).
  assert (Hu1 : matchesKeybind u s1 = true) by (subst s1; now rewrite handle_keeps_keybind).
  rewrite (repeats_when_active d n s1 Hd1 Td Ha). cbn [fst snd feed skip].
  rewrite !stateChanges_app', Hl, stateChanges_consumed, app_nil_r.
  assert (Hup : isPttActive (fst (handleBeforeInputEvent Hold u s1)) = false /\
                holdModeTimeout (fst (handleBeforeInputEvent Hold u s1)) = None /\
                stateChanges (snd (handleBeforeInputEvent Hold u s1)) =
                  (if canSend (mainWindow s) then [false] else [])).
  { rewrite <- Hw. unfold handleBeforeInputEvent. rewrite Hu1, Tu. cbn [negb].
    clear Hd1 Hu1 Hl Hw. destruct s1 as [active reg kb mods timer trig act win lis sc].
    cbn in Ha. subst active.
    unfold_focus. destruct win, timer; cbn; repeat split; reflexivity. }
  destruct Hup as [H1 [H2 H3]]. rewrite H3.
  repeat split; [exact H1 | exact H2 |].
  destruct (canSend (mainWindow s)), (isPttActive s); reflexivity.
Qed.

(** ["V"] held through two repeats and released, from rest. *)
Lemma key_repeat_is_one_activation_witness :
  stateChanges (snd (feed Hold (repeat vKeyDown 3 ++ [vKeyUp]) focusOnV)) = [true; false].
Proof.
  exact (proj2 (proj2 (key_repeat_is_one_activation vKeyDown vKeyUp 2 focusOnV
                         eq_refl eq_refl eq_refl eq_refl))).
Defined.

End FocusFacts.

(* ------------------------------------------------------------------ *)
(** ** The hold timeout, toggling and quiescence of the native module *)

Module TimerFacts.
Import NativePushToTalk.

(** At most one hold timeout is pending.  Whatever the module handles,
    in whatever state: it never arms a timeout while another one is
    pending without clearing that one first, and [holdModeTimeout] is set
    afterwards exactly when a timeout is pending according to the calls
    made (a timeout whose callback has just run is no longer pending). *)
Theorem one_timeout_at_a_time (o : Occurrence) (s : State) :
  pendingAfter (if fires o s then false else isSome (holdModeTimeout s))
               (snd (step o s)) =
  Some (isSome (holdModeTimeout (fst (step o s)))).
Proof.
  destruct o as [now [en kbd mode] ev].
  destruct s as [active reg kb mods timer trig act win lis sc].
  unfold fires, step; cbn [event config at_ms pushToTalkMode holdModeTimeout].
  destruct ev as [input| | |b|ok| |w].
  - unfold handleBeforeInputEvent, togglePtt, activatePtt, deactivatePtt,
      sendPttState, andThen, when, assign, emit.
    cbn -[matchesKeybind].
    destruct lis, win; cbn -[matchesKeybind]; try reflexivity;
      destruct (matchesKeybind _ _); cbn; try reflexivity;
      destruct mode, (Input.type input), active, timer; reflexivity.
  - unfold globalHotkeyCallback, togglePtt, activatePtt, sendPttState,
      andThen, when, assign, emit.
    destruct sc, mode, active, win, timer; reflexivity.
  - unfold timeoutElapsed, holdTimeoutCallback, extendedTimeoutCallback, deactivatePtt,
      sendPttState, andThen, when, assign, emit.
    cbn -[Z.leb Z.sub Z.add].
    destruct timer as [[d|d]|]; cbn -[Z.leb Z.sub Z.add]; [| |reflexivity].
    + destruct (d <=? now)%Z; cbn -[Z.leb Z.sub Z.add]; [|reflexivity].
      destruct (_ <=? _)%Z, active, win; reflexivity.
    + destruct (d <=? now)%Z, active, win; reflexivity.
  - unfold manualStateHandler, sendPttState, andThen, when, assign, emit.
    destruct win, timer; reflexivity.
  - unfold registerPushToTalkHotkey, unregisterPushToTalkHotkey, registerGlobalHotkey,
      deactivatePtt, sendPttState, release, andThen, when, assign, emit.
    cbn -[same_accelerator String.eqb parseAccelerator].
    destruct en; cbn -[same_accelerator String.eqb parseAccelerator];
      [destruct (same_accelerator _ _); [now destruct timer|] |];
      destruct active, win, timer, reg as [[|c r]|], sc as [x|], ok;
      cbn -[String.eqb parseAccelerator];
      repeat match goal with
             | |- context [String.eqb ?a ?b] =>
                 destruct (String.eqb a b); cbn -[String.eqb parseAccelerator]
             end;
      reflexivity.
  - unfold unregisterPushToTalkHotkey, deactivatePtt, sendPttState, release,
      andThen, when, assign, emit.
    destruct active, win, timer, reg as [[|c r]|], sc as [x|]; cbn -[String.eqb];
      repeat match goal with
             | |- context [String.eqb ?a ?b] => destruct (String.eqb a b); cbn -[String.eqb]
             end;
      reflexivity.
  - now destruct timer.
Qed.

End TimerFacts.

Module ToggleFacts.
Import NativePushToTalk.

Lemma flipped_S (n : nat) (b : bool) : flipped (S n) b = flipped n (negb b).
Proof.
  unfold flipped. rewrite Nat.odd_succ, <- Nat.negb_odd.
  destruct (Nat.odd n), b; reflexivity.
Qed.

Lemma stateChanges_app2 (l1 l2 : list Action) :
  stateChanges (l1 ++ l2) = stateChanges l1 ++ stateChanges l2.
Proof. unfold stateChanges. apply flat_map_app. Qed.

Lemma calls_stamped2 (t : Z) (l : list Action) : calls (map (pair t) l) = l.
Proof. unfold calls. rewrite map_map. cbn. apply map_id. Qed.

(** Toggle mode on the global shortcut: every trigger flips talk and
    tells the renderer; no timeout is ever armed. *)
Theorem global_toggle_flips (os : list Occurrence) (s : State) :
  shortcut s <> None -> Forall toggleTrigger os ->
  let r := run os s in
  isPttActive (fst r) = flipped (length os) (isPttActive s) /\
  holdModeTimeout (fst r) = holdModeTimeout s /\
  stateChanges (calls (snd r)) =
    (if canSend (mainWindow s) then flips (length os) (isPttActive s) else []) /\
  (forall d, ~ In (SetTimeout d) (calls (snd r))).
Proof.
  revert s. induction os as [|o os IH]; intros s Hsc Hos.
  - cbn [run fst snd length flips calls map stateChanges flat_map]. unfold flipped. cbn [Nat.odd xorb].
    split; [now destruct (isPttActive s)|].
    split; [reflexivity|]. split; [now destruct (canSend _) | intros d []].
  - inversion Hos as [|? ? [Hmode Hev] Hos']; subst.
    cbn [run length].
    assert (Hstep : step o s =
              (set_isPttActive (negb (isPttActive s)) (set_lastGlobalTriggerTime (at_ms o) s),
               if canSend (mainWindow s) then [Send (negb (isPttActive s))] else [])).
    { unfold step. rewrite Hev, Hmode.
      destruct s as [active reg kb mods timer trig act win lis sc].
      cbn in Hsc. destruct sc as [x|]; [|now destruct Hsc].
      unfold globalHotkeyCallback, togglePtt, sendPttState, andThen, when, assign, emit.
      cbn. destruct win; reflexivity. }
    rewrite Hstep.
    set (s1 := set_isPttActive _ _).
    assert (Hsc1 : shortcut s1 <> None) by (subst s1; now destruct s).
    destruct (IH s1 Hsc1 Hos') as [H1 [H2 [H3 H4]]].
    destruct (run os s1) as [s2 l2]. cbn [fst snd] in *.
    unfold calls in *. rewrite map_app. fold (calls (map (pair (at_ms o))
      (if canSend (mainWindow s) then [Send (negb (isPttActive s))] else []))).
    rewrite calls_stamped2, stateChanges_app2, H3.
    replace (mainWindow s1) with (mainWindow s) by (subst s1; now destruct s).
    replace (isPttActive s1) with (negb (isPttActive s)) in * by (subst s1; now destruct s).
    replace (holdModeTimeout s1) with (holdModeTimeout s) in * by (subst s1; now destruct s).
    repeat split.
    + now rewrite flipped_S.
    + exact H2.
    + destruct (canSend (mainWindow s)); reflexivity.
    + intros d Hin. apply in_app_or in Hin as [Hin|Hin]; [|exact (H4 d Hin)].
      destruct (canSend (mainWindow s)); cbn in Hin; intuition discriminate.
Qed.

Lemma boundV_holds_shortcut : shortcut boundV <> None.
Proof. discriminate. Qed.

Lemma doubleTrigger_toggles : Forall toggleTrigger doubleTrigger.
Proof. repeat constructor. Qed.

Lemma global_toggle_flips_witness :
  isPttActive (fst (run doubleTrigger boundV)) = false /\
  stateChanges (calls (snd (run doubleTrigger boundV))) = [true; false].
Proof.
  pose proof (global_toggle_flips doubleTrigger boundV boundV_holds_shortcut
                doubleTrigger_toggles) as H.
  exact (conj (proj1 H) (proj1 (proj2 (proj2 H)))).
Defined.

End ToggleFacts.

Module QuiescenceFacts.
Import NativePushToTalk.

(** After teardown the module is deaf: an input of the window, a trigger
    of the global shortcut or an elapsing timeout changes nothing and
    calls nothing. *)
Theorem nothing_fires_after_teardown (s : State) (o : Occurrence) :
  fromEventSource o ->
  step o (fst (unregisterPushToTalkHotkey s)) = (fst (unregisterPushToTalkHotkey s), []).
Proof.
  destruct o as [now cfg ev]. unfold fromEventSource. cbn [event]. intros Hev.
  destruct s as [active reg kb mods timer trig act win lis sc].
  unfold step; cbn [event config at_ms].
  unfold unregisterPushToTalkHotkey, deactivatePtt, sendPttState, release,
    andThen, when, assign, emit.
  destruct ev as [input| | |b|ok| |w]; try contradiction;
    destruct active, win, timer, reg as [[|c r]|], sc as [x|]; cbn -[String.eqb];
    repeat match goal with
           | |- context [String.eqb ?a ?b] => destruct (String.eqb a b); cbn -[String.eqb]
           end;
    try reflexivity; destruct lis; reflexivity.
Qed.

Lemma nothing_fires_after_teardown_witness :
  step (mkOccurrence 5 holdV GlobalShortcutTriggered) (fst (unregisterPushToTalkHotkey boundV)) =
  (fst (unregisterPushToTalkHotkey boundV), []).
Proof.
  exact (nothing_fires_after_teardown boundV (mkOccurrence 5 holdV GlobalShortcutTriggered) I).
Defined.

End QuiescenceFacts.

(* ------------------------------------------------------------------ *)
(** ** Registration settles *)

Module SettleFacts.
Import NativePushToTalk.

Lemma accelerator_not_empty (cfg : Config) : effectiveAccelerator cfg <> "".
Proof. unfold effectiveAccelerator. destruct (pushToTalkKeybind cfg); discriminate. Qed.

Lemma same_accelerator_true (r : option string) (a : string) :
  same_accelerator r a = true <-> r = Some a.
Proof.
  destruct r as [x|]; cbn; [|split; discriminate].
  rewrite String.eqb_eq. split; [now intros -> | now intros [= ->]].
Qed.

Lemma log_of_sequence (a b : Step) (s : State) :
  snd ((a ;; b) s) = snd (a s) ++ snd (b (fst (a s))).
Proof. unfold andThen. destruct (a s) as [s1 l1]. cbn. now destruct (b s1). Qed.

Lemma registered_is_noop (cfg : Config) (ok : bool) (s : State) :
  pushToTalk cfg = true ->
  registeredAccelerator s = Some (effectiveAccelerator cfg) ->
  registerPushToTalkHotkey cfg ok s = (s, []).
Proof.
  intros Hen H. unfold registerPushToTalkHotkey. rewrite Hen. cbn [negb].
  apply same_accelerator_true in H. now rewrite H.
Qed.

(** What a registration that is not a no-op leaves behind. *)
Lemma fresh_registration (cfg : Config) (ok : bool) (s : State) :
  pushToTalk cfg = true ->
  registeredAccelerator s <> Some (effectiveAccelerator cfg) ->
  let r := registerPushToTalkHotkey cfg ok s in
  isPttActive (fst r) = false /\
  holdModeTimeout (fst r) = None /\
  inputListener (fst r) = (canAttach (mainWindow s) || inputListener s) /\
  (ok = true -> registeredAccelerator (fst r) = Some (effectiveAccelerator cfg) /\
                shortcut (fst r) = Some (effectiveAccelerator cfg)) /\
  (ok = false -> same_accelerator (registeredAccelerator (fst r))
                   (effectiveAccelerator cfg) = false /\
                 shortcut (fst r) = None).
Proof.
  intros Hen Hreg r. subst r.
  pose proof (accelerator_not_empty cfg) as Hne.
  unfold registerPushToTalkHotkey. rewrite Hen. cbn [negb].
  destruct (same_accelerator _ _) eqn:E;
    [apply same_accelerator_true in E; contradiction|]. clear E Hreg.
  remember (effectiveAccelerator cfg) as acc eqn:Eacc. clear Eacc.
  destruct acc as [|a0 acc0]; [now destruct Hne|].
  destruct s as [active reg kb mods timer trig act win lis sc].
  unfold unregisterPushToTalkHotkey, registerGlobalHotkey, deactivatePtt, sendPttState,
    release, andThen, when, assign, emit.
  destruct active, win, timer, reg as [[|c r]|], sc as [x|], ok, lis;
    cbn -[String.eqb parseAccelerator];
    repeat match goal with
           | |- context [String.eqb ?a ?b] =>
               is_var a; destruct (String.eqb a b); cbn -[String.eqb parseAccelerator]
           end;
    cbn -[parseAccelerator];
    repeat split; try reflexivity; try discriminate;
    try (intros _; split; reflexivity).
Qed.

(** Registration settles: once the registrar has accepted the
    accelerator, the accelerator is recorded and asking again for the same
    configuration is a no-op, whatever the registrar would answer now.  A
    refused registration records nothing: the focused-window listener is
    attached all the same, and the next request runs the whole
    registration again. *)
Theorem registration_settles (cfg : Config) (ok' : bool) (s : State) :
  pushToTalk cfg = true ->
  let accepted := fst (registerPushToTalkHotkey cfg true s) in
  let refused := registerPushToTalkHotkey cfg false s in
  registeredAccelerator accepted = Some (effectiveAccelerator cfg) /\
  registerPushToTalkHotkey cfg ok' accepted = (accepted, []) /\
  (registeredAccelerator s <> Some (effectiveAccelerator cfg) ->
     isPttActive accepted = false /\
     shortcut accepted = Some (effectiveAccelerator cfg) /\
     inputListener (fst refused) = (canAttach (mainWindow s) || inputListener s) /\
     In (ShortcutRegister (effectiveAccelerator cfg) ok')
        (snd (registerPushToTalkHotkey cfg ok' (fst refused)))).
Proof.
  intros Hen accepted refused.
  assert (Hacc : registeredAccelerator accepted = Some (effectiveAccelerator cfg)).
  { subst accepted.
    destruct (same_accelerator (registeredAccelerator s) (effectiveAccelerator cfg)) eqn:E.
    - apply same_accelerator_true in E.
      now rewrite (registered_is_noop cfg true s Hen E).
    - assert (Hreg : registeredAccelerator s <> Some (effectiveAccelerator cfg)).
      { intros H. apply same_accelerator_true in H. congruence. }
      destruct (fresh_registration cfg true s Hen Hreg) as [_ [_ [_ [H _]]]].
      now destruct (H eq_refl). }
  split; [exact Hacc|]. split; [now apply registered_is_noop|].
  intros Hreg.
  destruct (fresh_registration cfg true s Hen Hreg) as [H1 [_ [_ [H4 _]]]].
  destruct (H4 eq_refl) as [_ Hsc].
  destruct (fresh_registration cfg false s Hen Hreg) as [_ [_ [H3 [_ H5]]]].
  destruct (H5 eq_refl) as [Hsame _].
  repeat split; [exact H1 | exact Hsc | exact H3 |].
  fold refused in Hsame.
  unfold registerPushToTalkHotkey at 1. rewrite Hen. cbn [negb]. rewrite Hsame.
  rewrite !log_of_sequence.
  apply in_or_app; right. apply in_or_app; right. apply in_or_app; right.
  apply in_or_app; left. unfold registerGlobalHotkey. rewrite !log_of_sequence.
  apply in_or_app; right. apply in_or_app; left. now left.
Qed.

Lemma registration_settles_witness :
  registerPushToTalkHotkey holdV false boundV = (boundV, []).
Proof.
  exact (proj1 (proj2 (registration_settles holdV false resting eq_refl))).
Defined.

End SettleFacts.

(* ------------------------------------------------------------------ *)
(** ** Modifier tracking of the key listener *)

Module ModifierFacts.
Import WindowPushToTalk.

Lemma trackModifiers_flags (e : KeyEvent) (m : Modifiers.t) :
  let n := keyNameOf e in
  let down := isDown (state e) in
  Modifiers.ctrl (trackModifiers e m) = (if ctrlKey n then down else Modifiers.ctrl m) /\
  Modifiers.shift (trackModifiers e m) = (if shiftKey n then down else Modifiers.shift m) /\
  Modifiers.alt (trackModifiers e m) = (if altKey n then down else Modifiers.alt m) /\
  Modifiers.meta (trackModifiers e m) = (if metaKey n then down else Modifiers.meta m).
Proof. repeat split. Qed.

Lemma callback_keeps_listener (e : KeyEvent) (l : KeyListener) (s : State) :
  globalKeyListener (fst (fst (keyListenerCallback e l s))) =
  Some (mkKeyListener (target l) (trackModifiers e (modifierState l))).
Proof.
  unfold keyListenerCallback.
  destruct s as [active reg wl pa bus h kl win sc pb].
  unfold sendPttState, andThen, when, assign, emit.
  destruct (keyMatch _ _), (isDown _), (hasAllModifiers _ _), active, win; reflexivity.
Qed.

Lemma pressed_tracks (cfg : Config) (es : list KeyEvent) (l : KeyListener) (s : State) :
  globalKeyListener s = Some l ->
  globalKeyListener (fst (run (pressed cfg es) s)) =
  Some (mkKeyListener (target l) (tracked es (modifierState l))).
Proof.
  revert l s. induction es as [|e es IH]; intros l s Hl.
  - cbn. rewrite Hl. now destruct l.
  - cbn [pressed map run step]. rewrite Hl.
    pose proof (callback_keeps_listener e l s) as H.
    destruct (keyListenerCallback e l s) as [[s1 l1] handled]. cbn [fst] in *.
    specialize (IH _ s1 H). cbn [target modifierState] in IH.
    fold (pressed cfg es). destruct (run (pressed cfg es) s1) as [s2 l2].
    exact IH.
Qed.

(** The listener tracks edges, not keys: after any sequence of key events
    the listener still watches the same accelerator, and each modifier
    flag is the state of the last event that named one of that modifier's
    keys, left or right alike (the flag it started with when no event
    named one). *)
Theorem modifier_is_last_edge (cfg : Config) (es : list KeyEvent) (l : KeyListener)
    (s : State) :
  globalKeyListener s = Some l ->
  exists l',
    globalKeyListener (fst (run (pressed cfg es) s)) = Some l' /\
    target l' = target l /\
    Modifiers.ctrl (modifierState l') = lastEdge ctrlKey es (Modifiers.ctrl (modifierState l)) /\
    Modifiers.shift (modifierState l') = lastEdge shiftKey es (Modifiers.shift (modifierState l)) /\
    Modifiers.alt (modifierState l') = lastEdge altKey es (Modifiers.alt (modifierState l)) /\
    Modifiers.meta (modifierState l') = lastEdge metaKey es (Modifiers.meta (modifierState l)).
Proof.
  intros Hl. eexists. split; [exact (pressed_tracks cfg es l s Hl)|].
  cbn [target modifierState]. split; [reflexivity|].
  generalize (modifierState l). clear. intros m.
  revert m. induction es as [|e es IH]; intros m; [repeat split|].
  cbn [tracked lastEdge].
  destruct (IH (trackModifiers e m)) as [H1 [H2 [H3 H4]]].
  destruct (trackModifiers_flags e m) as [F1 [F2 [F3 F4]]]. cbv zeta in *.
  rewrite H1, H2, H3, H4, F1, F2, F3, F4. repeat split.
Qed.

(** With both ctrl keys held, releasing one records ctrl as released. *)
Lemma modifier_is_last_edge_witness :
  exists l',
    globalKeyListener (fst (run (pressed holdV bothCtrlThenLeftUp) hookTalking)) = Some l' /\
    target l' = target shiftVHook /\
    Modifiers.ctrl (modifierState l') = false /\
    Modifiers.shift (modifierState l') = false /\
    Modifiers.alt (modifierState l') = false /\
    Modifiers.meta (modifierState l') = false.
Proof.
  exact (modifier_is_last_edge holdV bothCtrlThenLeftUp shiftVHook hookTalking eq_refl).
Defined.

End ModifierFacts.

(* ------------------------------------------------------------------ *)
(** ** Hold through the key listener *)

Module HookFacts.
Import WindowPushToTalk.

Lemma window_run_app (os1 os2 : list (Config * Event)) (s : State) :
  run (os1 ++ os2) s =
  (fst (run os2 (fst (run os1 s))), snd (run os1 s) ++ snd (run os2 (fst (run os1 s)))).
Proof.
  revert s. induction os1 as [|[cfg e] os1 IH]; intros s.
  - cbn. now destruct (run os2 s).
  - cbn [app run]. destruct (step cfg e s) as [s1 l1]. rewrite IH.
    destruct (run os1 s1) as [s2 l2]. cbn [fst snd].
    destruct (run os2 s2) as [s3 l3]. cbn [fst snd]. now rewrite app_assoc.
Qed.

Lemma window_changes_app (l1 l2 : list Action) :
  stateChanges (l1 ++ l2) = stateChanges l1 ++ stateChanges l2.
Proof. unfold stateChanges. apply flat_map_app. Qed.

Lemma track_again (e : KeyEvent) (m : Modifiers.t) :
  trackModifiers e (trackModifiers e m) = trackModifiers e m.
Proof.
  unfold trackModifiers. cbn [Modifiers.ctrl Modifiers.shift Modifiers.alt Modifiers.meta].
  repeat match goal with |- context [if ?b then _ else _] => destruct b end; reflexivity.
Qed.

(** A qualifying key-down: talk is active afterwards, the listener has
    tracked the event, and the renderer is told only on a change. *)
Lemma qualifying_down (cfg : Config) (d : KeyEvent) (l : KeyListener) (s : State) :
  globalKeyListener s = Some l ->
  state d = DOWN ->
  keyMatch (keyNameOf d) (Accelerator.key (target l)) = true ->
  requiredHeld (target l) (trackModifiers d (modifierState l)) ->
  let r := step cfg (KeyPressed d) s in
  isPttActive (fst r) = true /\
  mainWindow (fst r) = mainWindow s /\
  globalKeyListener (fst r) =
    Some (mkKeyListener (target l) (trackModifiers d (modifierState l))) /\
  stateChanges (snd r) =
    (if canSend (mainWindow s) && negb (isPttActive s) then [true] else []).
Proof.
  intros Hl Hd Hk Hheld r. subst r. cbn [step]. rewrite Hl.
  unfold keyListenerCallback.
  assert (Hall : hasAllModifiers (target l) (trackModifiers d (modifierState l)) = true).
  { destruct (target l) as [k c sh al me].
    destruct (trackModifiers d (modifierState l)) as [c' sh' al' me'].
    unfold requiredHeld in Hheld. cbn in Hheld. destruct Hheld as [H1 [H2 [H3 H4]]].
    unfold hasAllModifiers. cbn.
    destruct c, sh, al, me, c', sh', al', me'; cbn; auto;
      try (now apply H1); try (now apply H2); try (now apply H3); try (now apply H4). }
  rewrite Hk, Hd, Hall. cbn [isDown andb fst].
  destruct s as [active reg wl pa bus h kl win sc pb].
  unfold sendPttState, andThen, when, assign, emit.
  destruct active, win; cbn; repeat split; reflexivity.
Qed.

(** Key repeats while talk is active change nothing the renderer sees. *)
Lemma repeats_while_active (cfg : Config) (d : KeyEvent) (k : nat) (l : KeyListener)
    (s : State) :
  globalKeyListener s = Some l ->
  state d = DOWN ->
  keyMatch (keyNameOf d) (Accelerator.key (target l)) = true ->
  requiredHeld (target l) (trackModifiers d (modifierState l)) ->
  trackModifiers d (modifierState l) = modifierState l ->
  isPttActive s = true ->
  let r := run (pressed cfg (repeat d k)) s in
  isPttActive (fst r) = true /\ mainWindow (fst r) = mainWindow s /\
  globalKeyListener (fst r) = Some l /\ stateChanges (snd r) = [].
Proof.
  intros Hl Hd Hk Hheld Hfix Ha. revert s Hl Ha.
  induction k as [|k IH]; intros s Hl Ha r; subst r.
  - cbn. repeat split; assumption.
  - change (repeat d (S k)) with (d :: repeat d k).
    cbn [pressed map run]. fold (pressed cfg (repeat d k)).
    destruct (qualifying_down cfg d l s Hl Hd Hk Hheld) as [H1 [H2 [H3 H4]]].
    destruct (step cfg (KeyPressed d) s) as [s1 l1]. cbn [fst snd] in *.
    rewrite Hfix in H3. replace (mkKeyListener (target l) (modifierState l)) with l in H3
      by now destruct l.
    destruct (IH s1 H3 H1) as [I1 [I2 [I3 I4]]].
    destruct (run (pressed cfg (repeat d k)) s1) as [s2 l2]. cbn [fst snd] in *.
    rewrite window_changes_app, H4, I4, Ha, andb_false_r.
    repeat split; [exact I1 | congruence | exact I3].
Qed.

(** Hold mode through the key hook: the key goes down with the demanded
    modifiers held, repeats [n] times, and goes up.  Talk is inactive
    afterwards; the renderer is told once that talk is active (unless it
    already was) and once that it is not. *)
Theorem hook_repeat_is_one_activation (cfg : Config) (d u : KeyEvent) (n : nat)
    (l : KeyListener) (s : State) :
  globalKeyListener s = Some l ->
  state d = DOWN -> state u = UP ->
  keyMatch (keyNameOf d) (Accelerator.key (target l)) = true ->
  keyMatch (keyNameOf u) (Accelerator.key (target l)) = true ->
  requiredHeld (target l) (trackModifiers d (modifierState l)) ->
  let r := run (pressed cfg (repeat d (S n) ++ [u])) s in
  isPttActive (fst r) = false /\
  stateChanges (snd r) =
    (if canSend (mainWindow s)
     then (if isPttActive s then [false] else [true; false])
     else []).
Proof.
  intros Hl Hd Hu Hkd Hku Hheld r. subst r.
  change (repeat d (S n)) with (d :: repeat d n).
  unfold pressed. rewrite map_app. fold (pressed cfg [u]).
  cbn [map app run]. fold (pressed cfg (repeat d n)).
  destruct (qualifying_down cfg d l s Hl Hd Hkd Hheld) as [H1 [H2 [H3 H4]]].
  destruct (step cfg (KeyPressed d) s) as [s1 l1]. cbn [fst snd] in *.
  set (l1' := mkKeyListener (target l) (trackModifiers d (modifierState l))) in *.
  assert (Hheld' : requiredHeld (target l1') (trackModifiers d (modifierState l1'))).
  { subst l1'. cbn [target modifierState]. now rewrite track_again. }
  assert (Hfix : trackModifiers d (modifierState l1') = modifierState l1').
  { subst l1'. cbn [modifierState]. apply track_again. }
  rewrite window_run_app.
  destruct (repeats_while_active cfg d n l1' s1 H3 Hd Hkd Hheld' Hfix H1)
    as [R1 [R2 [R3 R4]]].
  destruct (run (pressed cfg (repeat d n)) s1) as [s2 l2]. cbn [fst snd] in *.
  cbn [pressed map run step]. rewrite R3.
  assert (Hup : isPttActive (fst (fst (keyListenerCallback u l1' s2))) = false /\
                stateChanges (snd (fst (keyListenerCallback u l1' s2))) =
                  (if canSend (mainWindow s) then [false] else [])).
  { unfold keyListenerCallback. unfold l1'. cbn [target modifierState]. rewrite Hku, Hu.
    cbn [isDown andb negb fst snd]. rewrite <- H2, <- R2. clear - R1.
    destruct s2 as [active reg wl pa bus h kl win sc pb]. cbn in R1. subst active.
    unfold sendPttState, andThen, when, assign, emit.
    destruct win; cbn; split; reflexivity. }
  destruct Hup as [U1 U2].
  destruct (keyListenerCallback u l1' s2) as [[s3 l3] handled]. cbn [fst snd] in *.
  rewrite app_nil_r, !window_changes_app, H4, R4, U2. cbn [app].
  split; [exact U1|].
  destruct (canSend (mainWindow s)), (isPttActive s); reflexivity.
Qed.

Lemma plainVHook_needs_nothing :
  requiredHeld (target plainVHook) (trackModifiers vDown (modifierState plainVHook)).
Proof. repeat split; intros H; discriminate H. Qed.

(** ["V"] held through one repeat and released, after registration. *)
Lemma hook_repeat_is_one_activation_witness :
  stateChanges (snd (run (pressed holdV (repeat vDown 2 ++ [vUp])) listeningV)) = [true; false].
Proof.
  exact (proj2 (hook_repeat_is_one_activation holdV vDown vUp 1 plainVHook listeningV
                  eq_refl eq_refl eq_refl eq_refl eq_refl plainVHook_needs_nothing)).
Defined.

(** ["V"] going up with shift already released still ends talk. *)
Lemma hook_release_ignores_modifiers_witness :
  snd (keyListenerCallback vUp shiftVHook hookTalking) = true /\
  isPttActive (fst (fst (keyListenerCallback vUp shiftVHook hookTalking))) = false.
Proof.
  exact (MatchFacts.hook_release_ignores_modifiers vUp shiftVHook hookTalking eq_refl eq_refl).
Defined.

End HookFacts.

(* ------------------------------------------------------------------ *)
(** ** Portal signals, teardown and strategy order of the window variant *)

Module WindowFacts.
Import WindowPushToTalk.

Ltac split_window s := destruct s as [active reg wl pa bus h kl win sc pb].

Ltac unfold_window :=
  unfold unregisterPushToTalkHotkey, strategyChain, afterNativeFailure,
    registerGlobalKeyListener, registerNativeHotkey, registerWaylandHotkey,
    registerLocalHotkey, sendLocalKeybind, bindShortcutsAnswered, portalMessageHandler,
    togglePtt, sendPttState, release, checkPortalAvailability,
    andThen, when, assign, emit, skip in *.

Ltac settle_strings :=
  cbn -[String.eqb];
  repeat match goal with
         | |- context [String.eqb ?a ?b] => is_var a; destruct (String.eqb a b); cbn -[String.eqb]
         end.

(** Closes a goal from a membership in a concrete log that cannot hold. *)
Ltac in_log H :=
  cbn in H; repeat (destruct H as [H|H]; [discriminate H|]); contradiction.

(** Signals that are not for the module change nothing. *)
Theorem portal_ignores_foreign_signals (mode : Mode) (m : PortalMessage) (s : State) :
  foreignSignal mode m -> portalMessageHandler mode m s = (s, []).
Proof.
  unfold foreignSignal, portalMessageHandler, skip.
  destruct m as [i|i|]; [intros -> | intros [-> | ->] | intros _]; try reflexivity.
  now destruct mode.
Qed.

Lemma portal_ignores_foreign_signals_witness :
  portalMessageHandler Hold (Activated (Some "screenshot")) (initial WindowLive) =
  (initial WindowLive, []).
Proof.
  exact (portal_ignores_foreign_signals Hold (Activated (Some "screenshot"))
           (initial WindowLive) eq_refl).
Defined.

Lemma teardown_fields (s : State) :
  let s1 := fst (unregisterPushToTalkHotkey s) in
  globalKeyListener s1 = None /\
  (registeredAccelerator s1 = None \/ registeredAccelerator s1 = Some "") /\
  isWayland s1 = false /\ portalAvailable s1 = false /\
  dbusBus s1 && dbusMessageHandler s1 = false /\
  (dbusBus s = true -> dbusMessageHandler s1 = false).
Proof.
  split_window s. unfold_window.
  destruct kl, reg as [[|c r]|], wl, pa, bus, h, sc as [x|], win; settle_strings;
    repeat split; auto; discriminate.
Qed.

Lemma quiet_teardown (t : State) :
  globalKeyListener t = None ->
  registeredAccelerator t = None \/ registeredAccelerator t = Some "" ->
  isWayland t = false -> portalAvailable t = false ->
  dbusBus t && dbusMessageHandler t = false ->
  unregisterPushToTalkHotkey t = (t, []).
Proof.
  split_window t. cbn. intros -> Hreg -> -> Hbus.
  destruct bus, h; try discriminate Hbus;
    destruct Hreg as [-> | ->]; reflexivity.
Qed.

Lemma teardown_calls (s : State) :
  (In KeyListenerKill (snd (unregisterPushToTalkHotkey s)) <-> globalKeyListener s <> None) /\
  (In BusUnlisten (snd (unregisterPushToTalkHotkey s)) <->
     dbusBus s && dbusMessageHandler s = true).
Proof.
  split_window s. unfold_window.
  destruct kl, reg as [[|c r]|], wl, pa, bus, h, sc as [x|], win; settle_strings;
    intuition congruence.
Qed.

(** Teardown of the window variant, whatever the module's variables
    hold.  The key listener held in [globalKeyListener] is killed,
    exactly when there is one, and the variable is cleared; the bus
    message handler held in [dbusMessageHandler] is removed, exactly when
    a bus and a handler are held; the recorded accelerator is cleared
    (unless it is the empty string, which the test takes for none);
    [isWayland] and [portalAvailable] are reset; and tearing down again
    right after changes nothing and calls nothing.  The statement is
    about what the variables hold: a listener that an overlapping
    registration created and the module no longer holds is out of
    teardown's reach. *)
Theorem window_teardown_is_idempotent (s : State) :
  let r := unregisterPushToTalkHotkey s in
  globalKeyListener (fst r) = None /\
  (In KeyListenerKill (snd r) <-> globalKeyListener s <> None) /\
  (In BusUnlisten (snd r) <-> dbusBus s && dbusMessageHandler s = true) /\
  dbusBus (fst r) && dbusMessageHandler (fst r) = false /\
  (registeredAccelerator s <> Some "" -> registeredAccelerator (fst r) = None) /\
  isWayland (fst r) = false /\ portalAvailable (fst r) = false /\
  unregisterPushToTalkHotkey (fst r) = (fst r, []).
Proof.
  intros r. destruct (teardown_fields s) as [H1 [H2 [H3 [H4 [H5 H6]]]]].
  destruct (teardown_calls s) as [K1 K2]. cbv zeta in *.
  change (unregisterPushToTalkHotkey s) with r in H1, H2, H3, H4, H5, H6, K1, K2.
  split; [exact H1|]. split; [exact K1|]. split; [exact K2|]. split; [exact H5|].
  split.
  - intros Hne. destruct H2 as [H2|H2]; [exact H2|]. exfalso.
    assert (Hkeep : registeredAccelerator (fst r) = Some "" -> registeredAccelerator s = Some "").
    { subst r. clear. split_window s. unfold_window.
      destruct kl, reg as [[|c r]|], wl, pa, bus, h, sc as [x|], win; settle_strings;
        intros H; (discriminate H || reflexivity). }
    exact (Hne (Hkeep H2)).
  - split; [exact H3|]. split; [exact H4|]. now apply quiet_teardown.
Qed.

(** The strategy chain tries the strategies in order and binds at most
    one: a key listener that loads ends the chain; the key listener is
    not tried outside hold mode on Linux; a shortcut the registrar accepts
    ends the chain before portal and local fallback; these two are only
    reached after the registrar refused; the renderer is told of a local
    keybind at most once. *)
Theorem strategy_priority (cfg : Config) (acc : string) (env : Platform) (w : State) :
  let l := snd (strategyChain cfg acc env w) in
  bindingsMade l <= 1 /\
  (In (KeyListenerNew true) l -> l = [KeyListenerNew true]) /\
  (pushToTalkMode cfg = Toggle \/ linux env = false ->
     forall b, ~ In (KeyListenerNew b) l) /\
  (In (ShortcutRegister acc true) l ->
     ~ In BusCreateSession l /\ localKeybinds l = []) /\
  (In BusCreateSession l \/ localKeybinds l <> [] ->
     In (ShortcutRegister acc false) l) /\
  length (localKeybinds l) <= 1.
Proof.
  destruct cfg as [en kbd mode]. destruct env as [lx kll nat wls pin po].
  split_window w. unfold_window.
  destruct mode, lx, kll, nat, wls, pin, po as [u|u|]; try destruct u; cbn -[canSend];
    destruct (canSend win); cbn;
    (split; [lia|]);
    (split; [intuition congruence|]);
    (split; [intuition congruence|]);
    (split; [intuition congruence|]);
    (split; [intuition congruence|lia]).
Qed.

Lemma flip_step (cfg : Config) (s : State) :
  shortcut s <> None ->
  step cfg NativeShortcutTriggered s =
  (set_isPttActive (negb (isPttActive s)) s,
   if canSend (mainWindow s) then [Send (negb (isPttActive s))] else []).
Proof.
  intros Hsc. split_window s. cbn in Hsc. destruct sc as [x|]; [|now destruct Hsc].
  cbn [step]. unfold_window. cbn. destruct win; reflexivity.
Qed.

(** The native shortcut of the window variant toggles, in hold mode as
    in toggle mode: every trigger flips talk and tells the renderer. *)
Theorem native_shortcut_toggles_in_any_mode (os : list (Config * Event)) (s : State) :
  shortcut s <> None -> nativeTriggers os ->
  let r := run os s in
  isPttActive (fst r) = flipped (length os) (isPttActive s) /\
  stateChanges (snd r) =
    (if canSend (mainWindow s) then flips (length os) (isPttActive s) else []).
Proof.
  revert s. induction os as [|[cfg e] os IH]; intros s Hsc Hos.
  - cbn [run fst snd length flips stateChanges flat_map]. unfold flipped. cbn [Nat.odd].
    split; [now destruct (isPttActive s) | now destruct (canSend _)].
  - inversion Hos as [|? ? He Hos']; subst. cbn [snd] in He. subst e.
    cbn [run length]. rewrite (flip_step cfg s Hsc).
    set (s1 := set_isPttActive _ s).
    assert (Hsc1 : shortcut s1 <> None) by (subst s1; now destruct s).
    destruct (IH s1 Hsc1 Hos') as [H1 H2].
    destruct (run os s1) as [s2 l2]. cbn [fst snd] in *.
    replace (mainWindow s1) with (mainWindow s) in * by (subst s1; now destruct s).
    replace (isPttActive s1) with (negb (isPttActive s)) in * by (subst s1; now destruct s).
    split.
    + rewrite H1. unfold flipped. rewrite Nat.odd_succ, <- Nat.negb_odd.
      destruct (Nat.odd (length os)), (isPttActive s); reflexivity.
    + unfold stateChanges in *. rewrite flat_map_app, H2.
      destruct (canSend (mainWindow s)); reflexivity.
Qed.

Lemma nativeV_holds_shortcut : shortcut nativeV <> None.
Proof. discriminate. Qed.

Lemma doubleNativeTrigger_native : nativeTriggers doubleNativeTrigger.
Proof. repeat constructor. Qed.

Lemma native_shortcut_toggles_in_any_mode_witness :
  isPttActive (fst (run doubleNativeTrigger nativeV)) = false /\
  stateChanges (snd (run doubleNativeTrigger nativeV)) = [true; false].
Proof.
  exact (native_shortcut_toggles_in_any_mode doubleNativeTrigger nativeV
           nativeV_holds_shortcut doubleNativeTrigger_native).
Defined.

(** The answer to BindShortcuts is applied whenever it arrives.  When
    teardown overtakes it, a successful answer still records the
    accelerator: nothing listens any more, yet a request for the same
    accelerator is then a no-op. *)
Theorem late_bind_answer_blocks_registration (cfg : Config) (env : Platform) (w : State) :
  pushToTalk cfg = true ->
  pendingBind w = Some (effectiveAccelerator cfg) ->
  dbusBus w = true ->
  let w1 := fst (unregisterPushToTalkHotkey w) in
  let w2 := fst (bindShortcutsAnswered true w1) in
  registeredAccelerator w2 = Some (effectiveAccelerator cfg) /\
  globalKeyListener w2 = None /\ dbusMessageHandler w2 = false /\
  registerPushToTalkHotkey cfg env w2 = (w2, []).
Proof.
  intros Hen Hp Hbus w1 w2.
  assert (H : registeredAccelerator w2 = Some (effectiveAccelerator cfg) /\
              globalKeyListener w2 = None /\ dbusMessageHandler w2 = false).
  { subst w2 w1. split_window w. cbn in Hp, Hbus. subst pb bus.
    unfold_window.
    destruct kl, reg as [[|c r]|], wl, pa, h, sc as [x|], win; settle_strings;
      repeat split; reflexivity. }
  destruct H as [H1 [H2 H3]]. repeat split; try assumption.
  unfold registerPushToTalkHotkey. rewrite Hen, H1. cbn [negb same_accelerator].
  now rewrite String.eqb_refl.
Qed.

Lemma late_bind_answer_blocks_registration_witness :
  registerPushToTalkHotkey toggleV waylandPortal
    (fst (bindShortcutsAnswered true (fst (unregisterPushToTalkHotkey negotiatingV)))) =
  (fst (bindShortcutsAnswered true (fst (unregisterPushToTalkHotkey negotiatingV))), []).
Proof.
  exact (proj2 (proj2 (proj2
           (late_bind_answer_blocks_registration toggleV waylandPortal negotiatingV
              eq_refl eq_refl eq_refl)))).
Defined.

End WindowFacts.

(* ------------------------------------------------------------------ *)
(** ** The preload bridges, subscriber by subscriber *)

Module WorldFacts.
Import WorldPushToTalk.

Lemma delivered_app (cb : Callback) (l1 l2 : list Effect) :
  deliveredTo cb (l1 ++ l2) = deliveredTo cb l1 ++ deliveredTo cb l2.
Proof. unfold deliveredTo. apply flat_map_app. Qed.

Lemma step_run (c : Call) (cs : list Call) (s : State) :
  run (c :: cs) s = (fst (run cs (fst (step c s))), snd (step c s) ++ snd (run cs (fst (step c s)))).
Proof.
  cbn [run]. destruct (step c s) as [s1 l1]. cbn [fst snd]. now destruct (run cs s1).
Qed.

(** Nobody outside the set is called when the set is notified. *)
Lemma notify_outsider (cb : Callback) (b : bool) (l : list Callback) :
  ~ In cb l -> deliveredTo cb (map (fun c => Invoke c b) l) = [].
Proof.
  induction l as [|c l IH]; intros Hn; [reflexivity|].
  cbn. destruct (Nat.eqb c cb) eqn:E.
  - apply Nat.eqb_eq in E. subst. destruct Hn. now left.
  - cbn. apply IH. intros H. apply Hn. now right.
Qed.

(** A member of a duplicate-free set is called once. *)
Lemma notify_member (cb : Callback) (b : bool) (l : list Callback) :
  NoDup l -> In cb l -> deliveredTo cb (map (fun c => Invoke c b) l) = [b].
Proof.
  induction 1 as [|c l Hc Hl IH]; intros Hin; [destruct Hin|].
  cbn. destruct (Nat.eqb c cb) eqn:E.
  - apply Nat.eqb_eq in E. subst. cbn. f_equal. now apply notify_outsider.
  - cbn. apply IH. destruct Hin as [->|Hin]; [|exact Hin].
    now rewrite Nat.eqb_refl in E.
Qed.

Lemma subscribed_In (cb : Callback) (s : State) :
  subscribed cb s = true <-> In cb (stateChangeCallbacks s).
Proof.
  unfold subscribed. rewrite existsb_exists. split.
  - intros [x [Hx He]]. apply Nat.eqb_eq in He. now subst.
  - intros H. exists cb. split; [exact H | apply Nat.eqb_refl].
Qed.

Lemma notify_delivers (cb : Callback) (b : bool) (s : State) :
  NoDup (stateChangeCallbacks s) ->
  deliveredTo cb (notifyAll b s) = if subscribed cb s then [b] else [].
Proof.
  intros Hnd. unfold notifyAll. destruct (subscribed cb s) eqn:E.
  - apply notify_member; [exact Hnd | now apply subscribed_In].
  - apply notify_outsider. intros H. apply subscribed_In in H. congruence.
Qed.

Lemma set_add_NoDup (cb : Callback) (l : list Callback) : NoDup l -> NoDup (set_add cb l).
Proof.
  intros H. unfold set_add. destruct (existsb (Nat.eqb cb) l) eqn:E; [exact H|].
  apply NoDup_app; [exact H | repeat constructor; intros [] |].
  intros x Hx [Heq|[]]. subst x.
  assert (existsb (Nat.eqb cb) l = true); [|congruence].
  apply existsb_exists. exists cb. split; [exact Hx | apply Nat.eqb_refl].
Qed.

Lemma step_NoDup (c : Call) (s : State) :
  NoDup (stateChangeCallbacks s) -> NoDup (stateChangeCallbacks (fst (step c s))).
Proof.
  intros H. destruct c as [b|cb|cb|b]; cbn.
  - unfold onPushToTalk. now destruct (negb _).
  - now apply set_add_NoDup.
  - now apply NoDup_filter.
  - exact H.
Qed.

Lemma run_NoDup (cs : list Call) (s : State) :
  NoDup (stateChangeCallbacks s) -> NoDup (stateChangeCallbacks (fst (run cs s))).
Proof.
  revert s. induction cs as [|c cs IH]; intros s H; [exact H|].
  rewrite step_run. cbn [fst]. apply IH. now apply step_NoDup.
Qed.

Lemma reachable_NoDup (cs : list Call) :
  NoDup (stateChangeCallbacks (fst (run cs initial))).
Proof. apply run_NoDup. constructor. Qed.

(** A callback that has unsubscribed and does not subscribe again is never
    called again, whatever arrives from the main process and whatever the
    page sets by hand; it stays out of the set. *)
Theorem unsubscribed_is_never_called (cb : Callback) (cs : list Call) (s : State) :
  (forall c, In c cs -> ~ subscribes cb c) ->
  let r := run cs (fst (offStateChange cb s)) in
  deliveredTo cb (snd r) = [] /\ subscribed cb (fst r) = false.
Proof.
  intros Hcs.
  assert (Hout : ~ In cb (stateChangeCallbacks (fst (offStateChange cb s)))).
  { cbn. unfold set_delete. intros H. apply filter_In in H as [_ H].
    now rewrite Nat.eqb_refl in H. }
  generalize dependent (fst (offStateChange cb s)). clear s.
  induction cs as [|c cs IH]; intros s Hout.
  - cbn. split; [reflexivity|].
    destruct (subscribed cb s) eqn:E; [|reflexivity].
    apply subscribed_In in E. contradiction.
  - cbv zeta. rewrite step_run. cbn [fst snd]. rewrite delivered_app.
    assert (Hc : ~ subscribes cb c) by (apply Hcs; now left).
    assert (Hstep : deliveredTo cb (snd (step c s)) = [] /\
                    ~ In cb (stateChangeCallbacks (fst (step c s)))).
    { destruct c as [b|c|c|b]; cbn [step].
      - unfold onPushToTalk. destruct (negb _); cbn [fst snd]; [|now split].
        split; [now apply notify_outsider | exact Hout].
      - unfold onStateChange. cbn [fst snd stateChangeCallbacks currentPttState].
        assert (Hne : c <> cb) by (intros ->; now apply Hc).
        split.
        + cbn. apply Nat.eqb_neq in Hne. now rewrite Hne.
        + unfold set_add. destruct (existsb _ _); [exact Hout|].
          intros H. apply in_app_or in H as [H|[H|[]]]; [now apply Hout | now apply Hne].
      - unfold offStateChange. cbn [fst snd stateChangeCallbacks]. split; [reflexivity|].
        unfold set_delete. intros H. apply filter_In in H as [H _]. now apply Hout.
      - unfold setManualState. cbn [fst snd stateChangeCallbacks]. split; [|exact Hout].
        cbn. now apply notify_outsider. }
    destruct Hstep as [H1 H2]. rewrite H1.
    apply IH; [|exact H2]. intros c' Hc'. apply Hcs. now right.
Qed.

Lemma unsubscribed_is_never_called_witness :
  deliveredTo 1 (snd (run afterLeaving (fst (offStateChange 1 twoSubscribers)))) = [] /\
  subscribed 1 (fst (run afterLeaving (fst (offStateChange 1 twoSubscribers)))) = false.
Proof.
  apply (unsubscribed_is_never_called 1 afterLeaving twoSubscribers).
  intros c [<-|[<-|[<-|[]]]]; discriminate.
Defined.

Lemma received_from (cb : Callback) (bs : list bool) (s : State) :
  NoDup (stateChangeCallbacks s) ->
  deliveredTo cb (snd (run (received bs) s)) =
    (if subscribed cb s then changes (currentPttState s) bs else []) /\
  currentPttState (fst (run (received bs) s)) = last bs (currentPttState s) /\
  stateChangeCallbacks (fst (run (received bs) s)) = stateChangeCallbacks s.
Proof.
  revert s. induction bs as [|b bs IH]; intros s Hnd.
  - cbn. split; [now destruct (subscribed cb s) | now split].
  - unfold received. cbn [map]. fold (received bs). rewrite step_run. cbn [fst snd step].
    rewrite delivered_app.
    assert (Hlast : forall d, last (b :: bs) d = last bs b).
    { intros d. clear. revert b d. induction bs as [|x bs IH]; intros b d; [reflexivity|].
      change (last (b :: x :: bs) d) with (last (x :: bs) d). rewrite IH.
      symmetry. apply (IH x b). }
    rewrite Hlast. cbn [changes].
    unfold onPushToTalk. destruct (Bool.eqb (currentPttState s) b) eqn:E; cbn [negb fst snd].
    + apply eqb_prop in E. destruct (IH s Hnd) as [H1 [H2 H3]].
      rewrite H1, H2, H3, E. now split.
    + set (s' := mkState (stateChangeCallbacks s) b).
      assert (Hnd' : NoDup (stateChangeCallbacks s')) by exact Hnd.
      destruct (IH s' Hnd') as [H1 [H2 H3]]. rewrite H1, H2, H3.
      rewrite (notify_delivers cb b s' Hnd').
      change (subscribed cb s') with (subscribed cb s).
      cbn [currentPttState stateChangeCallbacks s'].
      split; [now destruct (subscribed cb s) | now split].
Qed.

(** The bridge relays changes only.  Whatever the page did before, of the
    states the main process sends, a subscriber is called exactly once for
    each one that differs from the state the bridge holds, in order, and
    not at all for a repeated one; a callback outside the set is not
    called.  The bridge ends up holding the last state sent, and the set
    of subscribers is untouched. *)
Theorem bridge_relays_changes_only (history : list Call) (bs : list bool) (cb : Callback) :
  let s := fst (run history initial) in
  let r := run (received bs) s in
  deliveredTo cb (snd r) =
    (if subscribed cb s then changes (getCurrentState s) bs else []) /\
  getCurrentState (fst r) = last bs (getCurrentState s) /\
  stateChangeCallbacks (fst r) = stateChangeCallbacks s /\
  ipcSent (snd r) = [].
Proof.
  intros s r. subst r.
  destruct (received_from cb bs s (reachable_NoDup history)) as [H1 [H2 H3]].
  split; [exact H1|]. split; [exact H2|]. split; [exact H3|].
  generalize s. clear. induction bs as [|b bs IH]; intros s; [reflexivity|].
  unfold received. cbn [map]. fold (received bs). rewrite step_run. cbn [fst snd step].
  unfold ipcSent in *. rewrite flat_map_app, IH, app_nil_r.
  unfold onPushToTalk, notifyAll. destruct (negb _); [|reflexivity].
  cbn [snd stateChangeCallbacks]. induction (stateChangeCallbacks s); [reflexivity | assumption].
Qed.

(** A manual state makes one round trip and notifies once.  The bridge
    sends the state to the main process and calls every subscriber exactly
    once with it; the handler of the main process stores it and, when the
    window can receive, sends it back; the bridge takes the echo for no
    change and calls nobody a second time.  Both sides then hold the
    state. *)
Theorem manual_round_trip_notifies_once (history : list Call) (active : bool)
    (cb : Callback) (m : NativePushToTalk.State) :
  let s := fst (run history initial) in
  let page := setManualState active s in
  let main := NativePushToTalk.manualStateHandler active m in
  let echo := run (received (stateChanges (snd main))) (fst page) in
  ipcSent (snd page) = [active] /\
  deliveredTo cb (snd page) = (if subscribed cb s then [active] else []) /\
  NativePushToTalk.isPttActive (fst main) = active /\
  stateChanges (snd main) = (if canSend (NativePushToTalk.mainWindow m) then [active] else []) /\
  echo = (fst page, []) /\
  getCurrentState (fst echo) = active.
Proof.
  intros s page main echo.
  assert (Hmain : NativePushToTalk.isPttActive (fst main) = active /\
                  stateChanges (snd main) =
                    (if canSend (NativePushToTalk.mainWindow m) then [active] else [])).
  { subst main. destruct m as [a reg kb mods timer trig act win lis sc].
    unfold NativePushToTalk.manualStateHandler, NativePushToTalk.sendPttState,
      andThen, when, assign, emit.
    cbn. destruct win; split; reflexivity. }
  destruct Hmain as [M1 M2].
  assert (Hecho : echo = (fst page, [])).
  { subst echo. rewrite M2. subst page. unfold setManualState. cbn [fst].
    destruct (canSend _); [|reflexivity].
    cbn [received map run step]. unfold onPushToTalk. cbn [currentPttState].
    now rewrite eqb_reflx. }
  split.
  - subst page. unfold setManualState, notifyAll. cbn [snd stateChangeCallbacks].
    unfold ipcSent. cbn [flat_map app]. f_equal.
    induction (stateChangeCallbacks s); [reflexivity | assumption].
  - split.
    + subst page. unfold setManualState. cbn [snd].
      change (deliveredTo cb (IpcSend active :: ?l)) with (deliveredTo cb l).
      rewrite notify_delivers; [reflexivity | apply reachable_NoDup].
    + split; [exact M1|]. split; [exact M2|]. split; [exact Hecho|].
      rewrite Hecho. reflexivity.
Qed.

End WorldFacts.

Module LegacyFacts.
Import LegacyBridge.

Lemma legacy_delivered_app (cb : Callback) (l1 l2 : list Effect) :
  legacyDeliveredTo cb (l1 ++ l2) = legacyDeliveredTo cb l1 ++ legacyDeliveredTo cb l2.
Proof. unfold legacyDeliveredTo. apply flat_map_app. Qed.

Lemma legacy_step_run (c : Call) (cs : list Call) (s : State) :
  run (c :: cs) s = (fst (run cs (fst (step c s))), snd (step c s) ++ snd (run cs (fst (step c s)))).
Proof.
  cbn [run]. destruct (step c s) as [s1 l1]. cbn [fst snd]. now destruct (run cs s1).
Qed.

Lemma legacy_run_app (cs1 cs2 : list Call) (s : State) :
  run (cs1 ++ cs2) s =
  (fst (run cs2 (fst (run cs1 s))), snd (run cs1 s) ++ snd (run cs2 (fst (run cs1 s)))).
Proof.
  revert s. induction cs1 as [|c cs1 IH]; intros s.
  - cbn. now destruct (run cs2 s).
  - cbn [app]. rewrite !legacy_step_run, IH. cbn [fst snd]. now rewrite app_assoc.
Qed.

Lemma has_In (cb : Callback) (l : list Callback) : has cb l = true <-> In cb l.
Proof.
  unfold has. rewrite existsb_exists. split.
  - intros [x [Hx He]]. apply Nat.eqb_eq in He. now subst.
  - intros H. exists cb. split; [exact H | apply Nat.eqb_refl].
Qed.

Lemma relay_outsider (cb : Callback) (b : bool) (l : list Callback) :
  ~ In cb l -> legacyDeliveredTo cb (map (fun c => Invoke c b) l) = [].
Proof.
  induction l as [|c l IH]; intros Hn; [reflexivity|].
  cbn. destruct (Nat.eqb c cb) eqn:E.
  - apply Nat.eqb_eq in E. subst. destruct Hn. now left.
  - cbn. apply IH. intros H. apply Hn. now right.
Qed.

Lemma relay_member (cb : Callback) (b : bool) (l : list Callback) :
  NoDup l -> In cb l -> legacyDeliveredTo cb (map (fun c => Invoke c b) l) = [b].
Proof.
  induction 1 as [|c l Hc Hl IH]; intros Hin; [destruct Hin|].
  cbn. destruct (Nat.eqb c cb) eqn:E.
  - apply Nat.eqb_eq in E. subst. cbn. f_equal. now apply relay_outsider.
  - cbn. apply IH. destruct Hin as [->|Hin]; [|exact Hin].
    now rewrite Nat.eqb_refl in E.
Qed.

Lemma legacy_step_NoDup (c : Call) (s : State) :
  NoDup (stateChangeCallbacks s) -> NoDup (stateChangeCallbacks (fst (step c s))).
Proof.
  intros H. destruct c as [b|a|cb|cb|cb|cb|b]; cbn [step]; try exact H.
  - unfold onStateChange. destruct (has cb _) eqn:E; [exact H|]. cbn.
    apply NoDup_app; [exact H | repeat constructor; intros [] |].
    intros x Hx [Heq|[]]. subst x. apply has_In in Hx. congruence.
  - unfold offStateChange. destruct (has cb _); [|exact H]. cbn. now apply NoDup_filter.
  - unfold onLocalKeybind. now destruct (has cb _).
  - unfold offLocalKeybind. now destruct (has cb _).
Qed.

Lemma legacy_run_NoDup (cs : list Call) (s : State) :
  NoDup (stateChangeCallbacks s) -> NoDup (stateChangeCallbacks (fst (run cs s))).
Proof.
  revert s. induction cs as [|c cs IH]; intros s H; [exact H|].
  rewrite legacy_step_run. cbn [fst]. apply IH. now apply legacy_step_NoDup.
Qed.

Lemma last_cons_default (b : bool) (bs : list bool) (d : bool) :
  last (b :: bs) d = last bs b.
Proof.
  revert b d. induction bs as [|x bs IH]; intros b d; [reflexivity|].
  change (last (b :: x :: bs) d) with (last (x :: bs) d). rewrite IH.
  symmetry. apply (IH x b).
Qed.

Lemma last_of_app (l1 l2 : list bool) (d : bool) :
  last (l1 ++ l2) d = last l2 (last l1 d).
Proof.
  revert d. induction l1 as [|x l1 IH]; intros d; [reflexivity|].
  cbn [app]. rewrite !last_cons_default. apply IH.
Qed.

Lemma legacy_received (cb : Callback) (bs : list bool) (s : State) :
  NoDup (stateChangeCallbacks s) ->
  legacyDeliveredTo cb (snd (run (legacyReceived bs) s)) =
    (if has cb (stateChangeCallbacks s) then bs else []) /\
  currentPttState (fst (run (legacyReceived bs) s)) = last bs (currentPttState s) /\
  stateChangeCallbacks (fst (run (legacyReceived bs) s)) = stateChangeCallbacks s.
Proof.
  revert s. induction bs as [|b bs IH]; intros s Hnd.
  - cbn. split; [now destruct (has cb _) | now split].
  - unfold legacyReceived. cbn [map]. fold (legacyReceived bs).
    rewrite legacy_step_run. cbn [fst snd step]. rewrite legacy_delivered_app.
    rewrite last_cons_default. unfold onPushToTalk. cbn [fst snd].
    set (s' := mkState (stateChangeCallbacks s) (localKeybindCallbacks s) b).
    destruct (IH s' Hnd) as [H1 [H2 H3]]. rewrite H1, H2, H3.
    cbn [stateChangeCallbacks currentPttState s'].
    split; [|now split].
    destruct (has cb (stateChangeCallbacks s)) eqn:E.
    + rewrite relay_member; [reflexivity | exact Hnd | now apply has_In].
    + rewrite relay_outsider; [reflexivity|]. intros H. apply has_In in H. congruence.
Qed.

(** The earlier bridge relays every message between subscription and
    unsubscription.  Whatever the page did before (it may have subscribed
    the callback already: the second subscription is ignored), a callback
    that subscribes is not called at that moment; it is then called exactly
    once for every state the main process sends, repeated ones included,
    in order, and never after it has unsubscribed.  The state the bridge
    reports is the last one sent. *)
Theorem legacy_relays_every_message (history : list Call) (cb : Callback)
    (during after : list bool) :
  let s := fst (run history initial) in
  let r := run (OnStateChange cb :: legacyReceived during ++
                OffStateChange cb :: legacyReceived after) s in
  legacyDeliveredTo cb (snd r) = during /\
  getCurrentState (fst r) = last (during ++ after) (getCurrentState s) /\
  has cb (stateChangeCallbacks (fst r)) = false.
Proof.
  intros s r. subst r.
  assert (Hnd : NoDup (stateChangeCallbacks s)).
  { apply legacy_run_NoDup. constructor. }
  rewrite legacy_step_run. cbn [fst snd]. rewrite legacy_delivered_app.
  set (s1 := fst (step (OnStateChange cb) s)).
  assert (H1 : legacyDeliveredTo cb (snd (step (OnStateChange cb) s)) = [] /\
               has cb (stateChangeCallbacks s1) = true /\
               currentPttState s1 = currentPttState s).
  { subst s1. cbn [step]. unfold onStateChange.
    destruct (has cb (stateChangeCallbacks s)) eqn:E; cbn [fst snd]; [now split|].
    cbn [stateChangeCallbacks currentPttState]. split; [reflexivity|]. split; [|reflexivity].
    apply has_In. apply in_or_app. right. now left. }
  destruct H1 as [D1 [S1 C1]]. rewrite D1. cbn [app].
  assert (Hnd1 : NoDup (stateChangeCallbacks s1)) by (now apply legacy_step_NoDup).
  rewrite legacy_run_app. cbn [fst snd]. rewrite legacy_delivered_app.
  destruct (legacy_received cb during s1 Hnd1) as [R1 [R2 R3]].
  set (s2 := fst (run (legacyReceived during) s1)) in *.
  rewrite R1, S1.
  assert (Hnd2 : NoDup (stateChangeCallbacks s2)) by (now rewrite R3).
  rewrite legacy_step_run. cbn [fst snd]. rewrite legacy_delivered_app.
  set (s3 := fst (step (OffStateChange cb) s2)).
  assert (H3 : snd (step (OffStateChange cb) s2) = [] /\
               has cb (stateChangeCallbacks s3) = false /\
               currentPttState s3 = currentPttState s2).
  { subst s3. cbn [step]. unfold offStateChange.
    destruct (has cb (stateChangeCallbacks s2)) eqn:E; cbn [fst snd]; [|now split].
    cbn [stateChangeCallbacks currentPttState]. split; [reflexivity|]. split; [|reflexivity].
    destruct (has cb (remove cb _)) eqn:E'; [|reflexivity].
    apply has_In in E'. unfold remove in E'. apply filter_In in E' as [_ E'].
    now rewrite Nat.eqb_refl in E'. }
  destruct H3 as [D3 [S3 C3]]. rewrite D3. cbn [legacyDeliveredTo flat_map app].
  assert (Hnd3 : NoDup (stateChangeCallbacks s3)) by (now apply legacy_step_NoDup).
  destruct (legacy_received cb after s3 Hnd3) as [A1 [A2 A3]].
  rewrite A1, S3, app_nil_r. split; [reflexivity|].
  unfold getCurrentState. rewrite A2, A3, S3, C3, R2, C1.
  split; [|reflexivity].
  now rewrite last_of_app.
Qed.

(** A manual state in the earlier generation: the bridge only sends it on
    (no subscriber is called, the state it reports is untouched); the
    payload passes the validation of the main process, which stores the
    state and, when the window can receive, sends it back; it is that
    echo which calls every subscriber, exactly once, and brings the
    bridge up to date. *)
Theorem legacy_manual_state_returns_as_echo (history : list Call) (active : bool)
    (cb : Callback) (w : WindowPushToTalk.State) :
  let s := fst (run history initial) in
  let page := setManualState active s in
  let main := WindowPushToTalk.manualStateHandler (manualPayload active) w in
  let echo := run (legacyReceived (stateChanges (snd main))) (fst page) in
  page = (s, [IpcSend active]) /\
  WindowPushToTalk.isPttActive (fst main) = active /\
  ~ In LogWarning (snd main) /\
  stateChanges (snd main) =
    (if canSend (WindowPushToTalk.mainWindow w) then [active] else []) /\
  legacyDeliveredTo cb (snd echo) =
    (if has cb (stateChangeCallbacks s) && canSend (WindowPushToTalk.mainWindow w)
     then [active] else []) /\
  getCurrentState (fst echo) =
    (if canSend (WindowPushToTalk.mainWindow w) then active else getCurrentState s).
Proof.
  intros s page main echo.
  assert (Hnd : NoDup (stateChangeCallbacks s)).
  { apply legacy_run_NoDup. constructor. }
  assert (Hmain : WindowPushToTalk.isPttActive (fst main) = active /\
                  ~ In LogWarning (snd main) /\
                  stateChanges (snd main) =
                    (if canSend (WindowPushToTalk.mainWindow w) then [active] else [])).
  { subst main. destruct w as [a reg wl pa bus h kl win sc pb].
    unfold WindowPushToTalk.manualStateHandler, manualPayload.
    cbn [WindowPushToTalk.validManualState WindowPushToTalk.truthy
         WindowPushToTalk.typeofObject andb WindowPushToTalk.field String.eqb Ascii.eqb
         Bool.eqb].
    unfold WindowPushToTalk.sendPttState, andThen, when, assign, emit.
    cbn. destruct win; cbn; (split; [reflexivity|]); (split; [|reflexivity]);
      intuition discriminate. }
  destruct Hmain as [M1 [M2 M3]].
  split; [reflexivity|]. split; [exact M1|]. split; [exact M2|]. split; [exact M3|].
  subst echo. rewrite M3. subst page. cbn [setManualState fst].
  destruct (legacy_received cb (if canSend (WindowPushToTalk.mainWindow w)
                                then [active] else []) s Hnd) as [H1 [H2 _]].
  rewrite H1. unfold getCurrentState. rewrite H2.
  destruct (canSend _), (has cb _); split; reflexivity.
Qed.

Lemma local_step_NoDup (c : Call) (s : State) :
  NoDup (localKeybindCallbacks s) -> NoDup (localKeybindCallbacks (fst (step c s))).
Proof.
  intros H. destruct c as [b|a|cb|cb|cb|cb|b]; cbn [step]; try exact H.
  - unfold onStateChange. now destruct (has cb _).
  - unfold offStateChange. now destruct (has cb _).
  - unfold onLocalKeybind. destruct (has cb _) eqn:E; [exact H|]. cbn.
    apply NoDup_app; [exact H | repeat constructor; intros [] |].
    intros x Hx [Heq|[]]. subst x. apply has_In in Hx. congruence.
  - unfold offLocalKeybind. destruct (has cb _); [|exact H]. cbn. now apply NoDup_filter.
Qed.

Lemma local_run_NoDup (cs : list Call) (s : State) :
  NoDup (localKeybindCallbacks s) -> NoDup (localKeybindCallbacks (fst (run cs s))).
Proof.
  revert s. induction cs as [|c cs IH]; intros s H; [exact H|].
  rewrite legacy_step_run. cbn [fst]. apply IH. now apply local_step_NoDup.
Qed.

Lemma local_relay (cb : Callback) (a : string) (l : list Callback) :
  NoDup l ->
  legacyLocalDeliveredTo cb (map (fun c => InvokeLocal c a) l) = if has cb l then [a] else [].
Proof.
  induction 1 as [|c l Hc Hl IH]; [reflexivity|].
  cbn. rewrite (Nat.eqb_sym cb c). destruct (Nat.eqb c cb) eqn:E; cbn.
  - apply Nat.eqb_eq in E. subst c. f_equal.
    change (legacyLocalDeliveredTo cb (map (fun c => InvokeLocal c a) l) = []).
    rewrite IH. destruct (has cb l) eqn:E'; [|reflexivity].
    apply has_In in E'. contradiction.
  - exact IH.
Qed.

Lemma local_received (cb : Callback) (accs : list string) (s : State) :
  NoDup (localKeybindCallbacks s) ->
  run (legacyLocalReceived accs) s =
    (s, snd (run (legacyLocalReceived accs) s)) /\
  legacyLocalDeliveredTo cb (snd (run (legacyLocalReceived accs) s)) =
    (if has cb (localKeybindCallbacks s) then accs else []) /\
  legacyDeliveredTo cb (snd (run (legacyLocalReceived accs) s)) = [].
Proof.
  intros Hnd. induction accs as [|a accs [IH1 [IH2 IH3]]].
  - cbn. split; [reflexivity|]. split; [now destruct (has cb _) | reflexivity].
  - unfold legacyLocalReceived. cbn [map]. fold (legacyLocalReceived accs).
    rewrite legacy_step_run. cbn [step onPushToTalkLocal fst snd].
    rewrite IH1. cbn [fst snd]. split; [reflexivity|].
    unfold legacyLocalDeliveredTo, legacyDeliveredTo in *. rewrite !flat_map_app.
    fold (legacyLocalDeliveredTo cb (map (fun c => InvokeLocal c a) (localKeybindCallbacks s))).
    rewrite IH2, IH3, (local_relay cb a _ Hnd). split.
    + now destruct (has cb _).
    + rewrite app_nil_r. clear. induction (localKeybindCallbacks s) as [|x l IHl]; [reflexivity | exact IHl].
Qed.

(** The local-keybind channel of the earlier bridge, which the local
    fallback of the main process talks to: between [onLocalKeybind] and
    [offLocalKeybind] a callback is called exactly once with every
    accelerator announced, in order; it is not called when it subscribes,
    nor after it has left; the announcements touch neither the state
    subscribers nor the state the bridge reports. *)
Theorem legacy_local_keybind_relay (history : list Call) (cb : Callback)
    (during after : list string) :
  let s := fst (run history initial) in
  let r := run (OnLocalKeybind cb :: legacyLocalReceived during ++
                OffLocalKeybind cb :: legacyLocalReceived after) s in
  legacyLocalDeliveredTo cb (snd r) = during /\
  (forall c, legacyDeliveredTo c (snd r) = []) /\
  getCurrentState (fst r) = getCurrentState s /\
  stateChangeCallbacks (fst r) = stateChangeCallbacks s /\
  has cb (localKeybindCallbacks (fst r)) = false.
Proof.
  intros s r. subst r.
  assert (Hnd : NoDup (localKeybindCallbacks s)).
  { apply local_run_NoDup. constructor. }
  set (s1 := fst (step (OnLocalKeybind cb) s)).
  assert (H1 : step (OnLocalKeybind cb) s = (s1, snd (step (OnLocalKeybind cb) s)) /\
               (snd (step (OnLocalKeybind cb) s) = [] \/
                snd (step (OnLocalKeybind cb) s) = [Warn]) /\
               has cb (localKeybindCallbacks s1) = true /\
               currentPttState s1 = currentPttState s /\
               stateChangeCallbacks s1 = stateChangeCallbacks s).
  { subst s1. cbn [step]. unfold onLocalKeybind.
    destruct (has cb (localKeybindCallbacks s)) eqn:E; cbn [fst snd].
    - repeat split; auto.
    - cbn [localKeybindCallbacks currentPttState stateChangeCallbacks].
      repeat split; auto. apply has_In. apply in_or_app. right. now left. }
  destruct H1 as [_ [L1 [S1 [C1 K1]]]].
  assert (Hnd1 : NoDup (localKeybindCallbacks s1)) by (now apply local_step_NoDup).
  destruct (local_received cb during s1 Hnd1) as [R1 [R2 _]].
  set (s3 := fst (step (OffLocalKeybind cb) s1)).
  assert (H3 : snd (step (OffLocalKeybind cb) s1) = [] /\
               has cb (localKeybindCallbacks s3) = false /\
               currentPttState s3 = currentPttState s1 /\
               stateChangeCallbacks s3 = stateChangeCallbacks s1).
  { subst s3. cbn [step]. unfold offLocalKeybind. rewrite S1. cbn [fst snd].
    cbn [localKeybindCallbacks currentPttState stateChangeCallbacks].
    repeat split.
    destruct (has cb (remove cb _)) eqn:E'; [|reflexivity].
    apply has_In in E'. unfold remove in E'. apply filter_In in E' as [_ E'].
    now rewrite Nat.eqb_refl in E'. }
  destruct H3 as [D3 [S3 [C3 K3]]].
  assert (Hnd3 : NoDup (localKeybindCallbacks s3)) by (now apply local_step_NoDup).
  destruct (local_received cb after s3 Hnd3) as [A1 [A2 _]].
  rewrite legacy_step_run. fold s1. rewrite legacy_run_app. rewrite R1. cbn [fst snd].
  rewrite legacy_step_run. fold s3. rewrite D3, A1. cbn [fst snd app].
  split.
  - unfold legacyLocalDeliveredTo in *. rewrite !flat_map_app.
    rewrite R2, A2, S1, S3, app_nil_r.
    destruct L1 as [-> | ->]; reflexivity.
  - split.
    + intros c. rewrite !legacy_delivered_app.
      destruct (local_received c during s1 Hnd1) as [_ [_ Z1]].
      destruct (local_received c after s3 Hnd3) as [_ [_ Z2]].
      rewrite Z1, Z2. destruct L1 as [-> | ->]; reflexivity.
    + unfold getCurrentState. rewrite C3, C1, K3, K1. repeat split. exact S3.
Qed.

End LegacyFacts.

(* ------------------------------------------------------------------ *)
(** ** The window and the DOM interception *)

Module ShellFacts.
Import WindowShell.
Local Open Scope Z_scope.

Lemma shell_step_run (m : bool) (e : Event) (es : list (bool * Event)) (s : State) :
  run ((m, e) :: es) s =
  (fst (run es (fst (step m e s))), snd (step m e s) ++ snd (run es (fst (step m e s)))).
Proof.
  cbn [run]. destruct (step m e s) as [s1 l1]. cbn [fst snd]. now destruct (run es s1).
Qed.

Lemma shortcut_keeps_window (i : NativePushToTalk.Input.t) (z : Z) :
  ~ In Hide (shortcutHandler i z) /\
  ~ In Destroy (shortcutHandler i z) /\
  ~ In DestroyedError (shortcutHandler i z).
Proof.
  unfold shortcutHandler.
  destruct (_ && String.eqb _ "=")%bool; [cbn; intuition discriminate|].
  destruct (_ && String.eqb _ "-")%bool; [cbn; intuition discriminate|].
  destruct (_ && _)%bool; cbn; intuition discriminate.
Qed.

(** Once the app was asked to quit, by [quitApp] or by [before-quit],
    nothing brings the tray behaviour back: whatever follows and whatever
    [minimiseToTray] says then, the window is never hidden, [shouldQuit]
    stays set, and a close request on the live window closes it.
    [quitApp] itself closes a live window at once. *)
Theorem quit_is_final (m : bool) (e : Event) (es : list (bool * Event)) (s : State) :
  quits e ->
  let s1 := fst (step m e s) in
  let r := run es s1 in
  ~ In Hide (snd (step m e s) ++ snd r) /\
  shouldQuit (fst r) = true /\
  (forall m', destroyed (fst r) = false ->
     step m' CloseRequested (fst r) = (mkState true true, [Destroy])) /\
  (e = QuitApp -> destroyed s = false ->
     snd (step m e s) = [Destroy] /\ destroyed s1 = true).
Proof.
  intros He s1 r.
  assert (H1 : ~ In Hide (snd (step m e s)) /\ shouldQuit s1 = true).
  { subst s1. destruct He as [-> | ->]; cbn [step].
    - unfold quitApp, close. cbn [destroyed shouldQuit negb andb].
      destruct (destroyed s); cbn; intuition discriminate.
    - cbn. intuition. }
  destruct H1 as [Hh Hq].
  assert (Hrun : forall es s, shouldQuit s = true ->
            ~ In Hide (snd (run es s)) /\ shouldQuit (fst (run es s)) = true).
  { clear. induction es as [|[m e] es IH]; intros s Hq; [cbn; intuition|].
    rewrite shell_step_run. cbn [fst snd].
    assert (H : ~ In Hide (snd (step m e s)) /\ shouldQuit (fst (step m e s)) = true).
    { destruct e as [| | | |mx|i z]; cbn [step].
      - unfold close. rewrite Hq. cbn [negb andb].
        destruct (destroyed s); cbn; intuition discriminate.
      - unfold quitApp, close. cbn [destroyed shouldQuit negb andb].
        destruct (destroyed s); cbn; intuition discriminate.
      - cbn. intuition.
      - unfold minimise. destruct (destroyed s); cbn; intuition discriminate.
      - unfold maximise. destruct (destroyed s), mx; cbn; intuition discriminate.
      - destruct (destroyed s); [cbn; intuition|]. cbn [fst snd].
        destruct (shortcut_keeps_window i z) as [K _]. now split. }
    destruct H as [H1 H2]. destruct (IH _ H2) as [I1 I2].
    split; [|exact I2]. intros Hin. apply in_app_or in Hin as [Hin|Hin]; auto. }
  destruct (Hrun es s1 Hq) as [R1 R2]. fold r in R1, R2.
  split; [intros Hin; apply in_app_or in Hin as [Hin|Hin]; auto|].
  split; [exact R2|]. split.
  - intros m' Hd. cbn [step]. unfold close. rewrite Hd, R2. reflexivity.
  - intros -> Hd. subst s1. cbn [step]. unfold quitApp, close.
    cbn [destroyed shouldQuit negb andb]. rewrite Hd. split; reflexivity.
Qed.

Lemma quit_is_final_witness :
  ~ In Hide (snd (step true BeforeQuit initial) ++
             snd (run closeTwice (fst (step true BeforeQuit initial)))) /\
  shouldQuit (fst (run closeTwice (fst (step true BeforeQuit initial)))) = true.
Proof.
  pose proof (quit_is_final true BeforeQuit closeTwice initial (or_intror eq_refl)) as H.
  exact (conj (proj1 H) (proj1 (proj2 H))).
Defined.

(** With minimise-to-tray on, and until the app is asked to quit, the
    window survives everything: nothing destroys it, no call fails on a
    destroyed window, and a close request is prevented and hides the
    window instead. *)
Theorem tray_keeps_window (es : list (bool * Event)) (s : State) :
  trayOnly es -> shouldQuit s = false -> destroyed s = false ->
  let r := run es s in
  fst r = s /\
  ~ In Destroy (snd r) /\ ~ In DestroyedError (snd r) /\
  step true CloseRequested (fst r) = (s, [PreventDefault; Hide]).
Proof.
  intros Hes Hq Hd r.
  assert (Hrun : fst r = s /\ ~ In Destroy (snd r) /\ ~ In DestroyedError (snd r)).
  { subst r. induction Hes as [|[m e] es [Hm He] Hes IH].
    - cbn. intuition.
    - cbn [fst snd] in Hm, He. subst m. rewrite shell_step_run. cbn [fst snd].
      assert (H : fst (step true e s) = s /\
                  ~ In Destroy (snd (step true e s)) /\
                  ~ In DestroyedError (snd (step true e s))).
      { destruct e as [| | | |mx|i z]; cbn [step].
        - unfold close. rewrite Hd, Hq. cbn. intuition discriminate.
        - destruct He. now left.
        - destruct He. now right.
        - unfold minimise. rewrite Hd. cbn. intuition discriminate.
        - unfold maximise. rewrite Hd. destruct mx; cbn; intuition discriminate.
        - rewrite Hd. cbn [fst snd]. destruct (shortcut_keeps_window i z) as [_ [K5 K6]].
          intuition. }
      destruct H as [H1 [H3 H4]]. rewrite H1. destruct IH as [I1 [I3 I4]].
      split; [exact I1|].
      split; intros Hin; apply in_app_or in Hin as [Hin|Hin]; auto. }
  destruct Hrun as [R1 [R3 R4]].
  split; [exact R1|]. split; [exact R3|]. split; [exact R4|].
  rewrite R1. cbn [step]. unfold close. now rewrite Hd, Hq.
Qed.

Lemma closeTwice_trayOnly : trayOnly closeTwice.
Proof.
  repeat constructor; cbn; intros [H|H]; discriminate H.
Qed.

Lemma tray_keeps_window_witness :
  fst (run closeTwice initial) = initial /\
  ~ In Destroy (snd (run closeTwice initial)).
Proof.
  pose proof (tray_keeps_window closeTwice initial closeTwice_trayOnly eq_refl eq_refl) as H.
  exact (conj (proj1 H) (proj1 (proj2 H))).
Defined.

(** The zoom shortcuts count every input.  On the live window each input
    that carries ctrl with [=] asks for one level above the level the
    window reports, each one that carries ctrl with [-] for one level
    below, and no other input changes the zoom.  The handler does not read
    the input's type, so the release of the key asks again like the
    press.  The window's state is left alone. *)
Theorem zoom_counts_every_input (m : bool) (inputs : list (NativePushToTalk.Input.t * Z))
    (s : State) :
  destroyed s = false ->
  zoomRequests (snd (run (typed m inputs) s)) = zoomSteps inputs /\
  fst (run (typed m inputs) s) = s.
Proof.
  intros Hd. induction inputs as [|[i z] inputs [IH1 IH2]]; [now split|].
  unfold typed. cbn [map]. fold (typed m inputs). rewrite shell_step_run.
  cbn [fst snd step]. rewrite Hd. cbn [fst snd]. split; [|exact IH2].
  unfold zoomRequests, zoomSteps in *. rewrite flat_map_app, IH1. cbn [flat_map fst snd].
  f_equal. unfold shortcutHandler, zoomsIn, zoomsOut.
  destruct (_ && String.eqb _ "=")%bool; [reflexivity|].
  destruct (_ && String.eqb _ "-")%bool; [reflexivity|].
  destruct (_ && _)%bool; reflexivity.
Qed.

Lemma zoom_counts_every_input_witness :
  zoomRequests (snd (run (typed false ctrlEqualsTap) initial)) = [1; 2].
Proof.
  exact (proj1 (zoom_counts_every_input false ctrlEqualsTap initial eq_refl)).
Defined.

End ShellFacts.

Module DomFacts.
Import DomBridge.

(** The DOM interception follows the last configuration received and
    nothing else: after a configuration message, key-down and key-up are
    kept from the page's own handlers in exactly the same cases, namely
    when push-to-talk is enabled, the key is the configured one up to
    letter case, and the target is not an input; the mode and whatever was
    configured before play no part.  Before any configuration message
    nothing is intercepted. *)
Theorem dom_interception_follows_config (enabled : bool) (keybind : string) (mode : Mode)
    (e : KeyboardEvent) (s : State) :
  let s' := onConfig enabled keybind mode s in
  handleKeyDown e s' =
    (enabled && String.eqb (Js.toLowerCase (key e)) (Js.toLowerCase keybind)
     && negb (isInput e)) /\
  handleKeyUp e s' = handleKeyDown e s' /\
  handleKeyDown e initial = false /\ handleKeyUp e initial = false.
Proof.
  unfold handleKeyDown, handleKeyUp, matchesPttKeybind, onConfig.
  cbn [pttEnabled pttKeybind initial negb orb].
  destruct enabled, (String.eqb _ _), (isInput e); repeat split.
Qed.

End DomFacts.

(* ------------------------------------------------------------------ *)
(** ** Main process and renderer in step *)

Module SyncFacts.

Lemma native_step_sync (o : NativePushToTalk.Occurrence) (s : NativePushToTalk.State) :
  windowStays o ->
  NativePushToTalk.mainWindow (fst (NativePushToTalk.step o s)) = NativePushToTalk.mainWindow s /\
  (canSend (NativePushToTalk.mainWindow s) = true ->
     NativePushToTalk.isPttActive (fst (NativePushToTalk.step o s)) =
       last (stateChanges (snd (NativePushToTalk.step o s))) (NativePushToTalk.isPttActive s)) /\
  (canSend (NativePushToTalk.mainWindow s) = false ->
     stateChanges (snd (NativePushToTalk.step o s)) = []).
Proof.
  destruct o as [now [en kbd mode] ev].
  destruct s as [active reg kb mods timer trig act win lis sc].
  unfold windowStays, NativePushToTalk.step;
    cbn [NativePushToTalk.event NativePushToTalk.config NativePushToTalk.at_ms pushToTalkMode].
  intros Hev.
  destruct ev as [input| | |b|ok| |w]; [| | | | | |contradiction].
  - unfold NativePushToTalk.handleBeforeInputEvent, NativePushToTalk.togglePtt,
      NativePushToTalk.activatePtt, NativePushToTalk.deactivatePtt,
      NativePushToTalk.sendPttState, andThen, when, assign, emit.
    cbn -[NativePushToTalk.matchesKeybind].
    destruct lis, win; cbn -[NativePushToTalk.matchesKeybind];
      try (split; [reflexivity|split; [reflexivity || discriminate | reflexivity || discriminate]]);
      destruct (NativePushToTalk.matchesKeybind _ _); cbn;
      try (split; [reflexivity|split; [reflexivity || discriminate | reflexivity || discriminate]]);
      destruct mode, (NativePushToTalk.Input.type input), active, timer; cbn;
      (split; [reflexivity|split; intros H; try discriminate H; reflexivity]).
  - unfold NativePushToTalk.globalHotkeyCallback, NativePushToTalk.togglePtt,
      NativePushToTalk.activatePtt, NativePushToTalk.sendPttState,
      andThen, when, assign, emit.
    destruct sc, mode, active, win, timer; cbn;
      (split; [reflexivity|split; intros H; try discriminate H; reflexivity]).
  - unfold NativePushToTalk.timeoutElapsed, NativePushToTalk.holdTimeoutCallback,
      NativePushToTalk.extendedTimeoutCallback, NativePushToTalk.deactivatePtt,
      NativePushToTalk.sendPttState, andThen, when, assign, emit.
    cbn -[Z.leb Z.sub Z.add].
    destruct timer as [[d|d]|]; cbn -[Z.leb Z.sub Z.add].
    + destruct (d <=? now)%Z; cbn -[Z.leb Z.sub Z.add];
        [destruct (_ <=? _)%Z|]; destruct active, win; cbn;
        (split; [reflexivity|split; intros H; try discriminate H; reflexivity]).
    + destruct (d <=? now)%Z, active, win; cbn;
        (split; [reflexivity|split; intros H; try discriminate H; reflexivity]).
    + destruct active, win; cbn;
        (split; [reflexivity|split; intros H; try discriminate H; reflexivity]).
  - unfold NativePushToTalk.manualStateHandler, NativePushToTalk.sendPttState,
      andThen, when, assign, emit.
    destruct win, timer; cbn;
      (split; [reflexivity|split; intros H; try discriminate H; reflexivity]).
  - unfold NativePushToTalk.registerPushToTalkHotkey,
      NativePushToTalk.unregisterPushToTalkHotkey, NativePushToTalk.registerGlobalHotkey,
      NativePushToTalk.deactivatePtt, NativePushToTalk.sendPttState,
      NativePushToTalk.release, andThen, when, assign, emit.
    cbn -[NativePushToTalk.same_accelerator String.eqb NativePushToTalk.parseAccelerator].
    destruct en;
      cbn -[NativePushToTalk.same_accelerator String.eqb NativePushToTalk.parseAccelerator];
      [destruct (NativePushToTalk.same_accelerator _ _);
         [cbn; split; [reflexivity|split; intros H; reflexivity]|] |];
      destruct active, win, timer, reg as [[|c r]|], sc as [x|], ok;
      cbn -[String.eqb NativePushToTalk.parseAccelerator];
      repeat match goal with
             | |- context [String.eqb ?a ?b] =>
                 destruct (String.eqb a b); cbn -[String.eqb NativePushToTalk.parseAccelerator]
             end;
      (split; [reflexivity|split; intros H; try discriminate H; reflexivity]).
  - unfold NativePushToTalk.unregisterPushToTalkHotkey, NativePushToTalk.deactivatePtt,
      NativePushToTalk.sendPttState, NativePushToTalk.release, andThen, when, assign, emit.
    destruct active, win, timer, reg as [[|c r]|], sc as [x|]; cbn -[String.eqb];
      repeat match goal with
             | |- context [String.eqb ?a ?b] => destruct (String.eqb a b); cbn -[String.eqb]
             end;
      (split; [reflexivity|split; intros H; try discriminate H; reflexivity]).
Qed.

(** Main process and renderer stay in step.  While the window is
    the same, whatever the module goes through (inputs, shortcut
    triggers, timeouts, manual states, registrations, teardowns): if the
    window can receive, talk is in the end what the renderer was told
    last (what it was at the start when nothing was sent); if it cannot,
    nothing is sent at all. *)
Theorem native_renderer_in_step (os : list NativePushToTalk.Occurrence)
    (s : NativePushToTalk.State) :
  Forall windowStays os ->
  let r := NativePushToTalk.run os s in
  (canSend (NativePushToTalk.mainWindow s) = true ->
     NativePushToTalk.isPttActive (fst r) =
       last (stateChanges (calls (snd r))) (NativePushToTalk.isPttActive s)) /\
  (canSend (NativePushToTalk.mainWindow s) = false -> stateChanges (calls (snd r)) = []).
Proof.
  intros Hos. revert s. induction Hos as [|o os Ho Hos IH]; intros s.
  - cbn. split; reflexivity.
  - cbn [NativePushToTalk.run].
    destruct (native_step_sync o s Ho) as [Hw [Hlive Hdead]].
    destruct (NativePushToTalk.step o s) as [s1 l1]. cbn [fst snd] in *.
    specialize (IH s1). destruct (NativePushToTalk.run os s1) as [s2 l2]. cbn [fst snd] in *.
    rewrite Hw in IH. destruct IH as [IHlive IHdead].
    unfold calls in *. rewrite map_app. fold (calls (map (pair (NativePushToTalk.at_ms o)) l1)).
    rewrite ToggleFacts.calls_stamped2, ToggleFacts.stateChanges_app2.
    split; intros Hc.
    + rewrite LegacyFacts.last_of_app, <- (Hlive Hc). exact (IHlive Hc).
    + now rewrite (Hdead Hc), (IHdead Hc).
Qed.

Lemma shiftVHeld_keeps_window : Forall windowStays shiftVHeld.
Proof. repeat constructor. Qed.

Lemma native_renderer_in_step_witness :
  NativePushToTalk.isPttActive (fst (NativePushToTalk.run shiftVHeld resting)) =
  last (stateChanges (calls (snd (NativePushToTalk.run shiftVHeld resting)))) false.
Proof.
  exact (proj1 (native_renderer_in_step shiftVHeld resting shiftVHeld_keeps_window) eq_refl).
Defined.

Lemma localKeybinds_app (l1 l2 : list Action) :
  localKeybinds (l1 ++ l2) = localKeybinds l1 ++ localKeybinds l2.
Proof. unfold localKeybinds. apply flat_map_app. Qed.

Lemma inStep_andThen (a b : Step WindowPushToTalk.State) :
  inStep a -> inStep b -> inStep (a ;; b).
Proof.
  intros Ha Hb s. unfold andThen.
  destruct (Ha s) as [A1 [A2 A3]]. destruct (a s) as [s1 l1]. cbn [fst snd] in *.
  destruct (Hb s1) as [B1 [B2 B3]]. destruct (b s1) as [s2 l2]. cbn [fst snd] in *.
  rewrite A1 in B1, B2, B3.
  rewrite ToggleFacts.stateChanges_app2, localKeybinds_app.
  split; [exact B1|]. split; intros Hc.
  - rewrite LegacyFacts.last_of_app, <- (A2 Hc). exact (B2 Hc).
  - destruct (A3 Hc) as [-> ->]. destruct (B3 Hc) as [-> ->]. now split.
Qed.

Ltac unfold_sync :=
  unfold WindowPushToTalk.unregisterPushToTalkHotkey, WindowPushToTalk.strategyChain,
    WindowPushToTalk.afterNativeFailure, WindowPushToTalk.registerGlobalKeyListener,
    WindowPushToTalk.registerNativeHotkey, WindowPushToTalk.registerWaylandHotkey,
    WindowPushToTalk.registerLocalHotkey, WindowPushToTalk.sendLocalKeybind,
    WindowPushToTalk.bindShortcutsAnswered, WindowPushToTalk.portalMessageHandler,
    WindowPushToTalk.togglePtt, WindowPushToTalk.sendPttState, WindowPushToTalk.release,
    WindowPushToTalk.checkPortalAvailability, WindowPushToTalk.manualStateHandler,
    WindowPushToTalk.keyListenerCallback,
    andThen, when, assign, emit, skip in *.

Ltac sync_done :=
  split; [reflexivity|];
  split; intros H; try discriminate H; try reflexivity; split; reflexivity.

Lemma unregister_inStep : inStep WindowPushToTalk.unregisterPushToTalkHotkey.
Proof.
  intros s. destruct s as [active reg wl pa bus h kl win sc pb]. unfold_sync.
  destruct kl, reg as [[|c r]|], wl, pa, bus, h, active; cbn -[String.eqb canSend];
    destruct win; cbn -[String.eqb];
    destruct sc as [x|]; cbn -[String.eqb];
    repeat match goal with
           | |- context [String.eqb ?a ?b] => is_var a; destruct (String.eqb a b); cbn -[String.eqb]
           end;
    sync_done.
Qed.

Lemma strategyChain_inStep (cfg : Config) (acc : string) (env : WindowPushToTalk.Platform) :
  inStep (WindowPushToTalk.strategyChain cfg acc env).
Proof.
  intros s. destruct cfg as [en kbd mode]. destruct env as [lx kll nat wls pin po].
  destruct s as [active reg wl pa bus h kl win sc pb]. unfold_sync.
  destruct mode, lx, kll, nat, wls, pin, po as [u|u|]; try destruct u; cbn;
    destruct win; cbn; sync_done.
Qed.

Lemma window_step_sync (cfg : Config) (e : WindowPushToTalk.Event) :
  windowKept (cfg, e) -> inStep (WindowPushToTalk.step cfg e).
Proof.
  unfold windowKept. cbn [snd]. intros He.
  destruct e as [k| |m|ok|data|env| |w]; [| | | | | | |contradiction]; cbn [WindowPushToTalk.step].
  - intros s. destruct s as [active reg wl pa bus h kl win sc pb].
    cbn [WindowPushToTalk.globalKeyListener]. destruct kl as [l|]; [|sync_done].
    unfold_sync.
    destruct (_ && _ && _); [destruct active, win; cbn; sync_done|].
    destruct (_ && _); destruct active, win; cbn; sync_done.
  - intros s. destruct s as [active reg wl pa bus h kl win sc pb]. unfold_sync.
    destruct sc, active, win; cbn; sync_done.
  - intros s. destruct s as [active reg wl pa bus h kl win sc pb]. unfold_sync.
    destruct cfg as [en kbd mode]. cbn [pushToTalkMode].
    destruct h, m as [i|i|]; cbn; try sync_done;
      destruct (WindowPushToTalk.isPushToTalkId i), mode, active, win; cbn; sync_done.
  - intros s. destruct s as [active reg wl pa bus h kl win sc pb]. unfold_sync.
    destruct pb, ok; cbn; sync_done.
  - intros s. destruct s as [active reg wl pa bus h kl win sc pb]. unfold_sync.
    destruct (WindowPushToTalk.validManualState data) as [b|]; [destruct b|];
      destruct active, win; cbn; sync_done.
  - intros s. unfold WindowPushToTalk.registerPushToTalkHotkey.
    destruct (negb (pushToTalk cfg)); [apply unregister_inStep|].
    destruct (WindowPushToTalk.same_accelerator _ _); [sync_done|].
    apply (inStep_andThen _ _ unregister_inStep (strategyChain_inStep cfg _ env)).
  - apply unregister_inStep.
Qed.

(** Main process and renderer stay in step in the window variant too.
    While the window is the same, whatever the module goes through (key
    events, shortcut triggers, portal signals and answers, manual states
    well-formed or not, registrations on any platform, teardowns): if the
    window can receive, talk is in the end what the renderer was told last
    (what it was at the start when nothing was sent); if it cannot,
    neither a state nor a local keybind is sent. *)
Theorem window_renderer_in_step (os : list (Config * WindowPushToTalk.Event))
    (s : WindowPushToTalk.State) :
  Forall windowKept os ->
  let r := WindowPushToTalk.run os s in
  (canSend (WindowPushToTalk.mainWindow s) = true ->
     WindowPushToTalk.isPttActive (fst r) =
       last (stateChanges (snd r)) (WindowPushToTalk.isPttActive s)) /\
  (canSend (WindowPushToTalk.mainWindow s) = false ->
     stateChanges (snd r) = [] /\ localKeybinds (snd r) = []).
Proof.
  intros Hos. revert s. induction Hos as [|[cfg e] os Ho Hos IH]; intros s.
  - cbn. repeat split.
  - cbn [WindowPushToTalk.run].
    destruct (window_step_sync cfg e Ho s) as [Hw [Hlive Hdead]].
    destruct (WindowPushToTalk.step cfg e s) as [s1 l1]. cbn [fst snd] in *.
    specialize (IH s1). destruct (WindowPushToTalk.run os s1) as [s2 l2]. cbn [fst snd] in *.
    rewrite Hw in IH. destruct IH as [IHlive IHdead].
    rewrite ToggleFacts.stateChanges_app2, localKeybinds_app.
    split; intros Hc.
    + rewrite LegacyFacts.last_of_app, <- (Hlive Hc). exact (IHlive Hc).
    + destruct (Hdead Hc) as [-> ->]. destruct (IHdead Hc) as [-> ->]. now split.
Qed.

Lemma heldThenUnregistered_keeps_window : Forall windowKept heldThenUnregistered.
Proof. repeat constructor. Qed.

Lemma window_renderer_in_step_witness :
  WindowPushToTalk.isPttActive
    (fst (WindowPushToTalk.run heldThenUnregistered (WindowPushToTalk.initial WindowLive))) =
  last (stateChanges
          (snd (WindowPushToTalk.run heldThenUnregistered (WindowPushToTalk.initial WindowLive))))
       false.
Proof.
  exact (proj1 (window_renderer_in_step heldThenUnregistered (WindowPushToTalk.initial WindowLive)
                  heldThenUnregistered_keeps_window) eq_refl).
Defined.

End SyncFacts.
